(** * mcp-router: OAuth 2.1 engine and connection manager

    A shallow embedding of [src/services/OAuthManager.js],
    [src/services/MCPClientEnhanced.js] and the enhanced connection manager,
    with the properties of the specification stated over it.

    Conventions of the embedding.
    - A JavaScript string is a [string]; binary data ([Buffer]) is a
      [list byte].
    - [undefined]/[null] of an optional field is [None]; JavaScript
      truthiness is written out ([truthy]): the empty string and the
      number 0 are falsy.
    - What lies outside the process (URL parser, environment, clock,
      network, random source, MCP SDK) is an explicit [Platform]; the clock,
      the network, the random source and the SDK are oracles indexed by the
      number of calls made so far, so that two readings of the clock are two
      values.
    - A method is a function from the state of the process to an outcome
      ([Return] or [Throw]) and the state it leaves: what was mutated before
      a [throw] stays mutated, as in the source.
    - [MCPClientEnhanced] instances live in a heap and are passed by
      reference. Logging is left out. *)

From Stdlib Require Import ZArith NArith Lia List Ascii String.
From Stdlib Require Import Init.Byte.
From Stdlib Require Strings.Byte.
From stdpp Require Import gmap strings.
Import ListNotations.

Local Open Scope string_scope.

(** ** Buffers: base64url and SHA-256 (the part of node:crypto the source calls) *)

Module Base64Url.

(** The 64 digits of the URL-safe alphabet of RFC 4648 section 5, by value:
    A-Z, a-z, 0-9, '-', '_'. *)
Definition digit (v : N) : ascii :=
  if (v <? 26)%N then ascii_of_N (65 + v)
  else if (v <? 52)%N then ascii_of_N (97 + (v - 26))
  else if (v <? 62)%N then ascii_of_N (48 + (v - 52))
  else if (v =? 62)%N then "-"%char
  else "_"%char.

Definition value (c : ascii) : option N :=
  let n := N_of_ascii c in
  if ((65 <=? n) && (n <=? 90))%N then Some (n - 65)%N
  else if ((97 <=? n) && (n <=? 122))%N then Some (n - 97 + 26)%N
  else if ((48 <=? n) && (n <=? 57))%N then Some (n - 48 + 52)%N
  else if (n =? 45)%N then Some 62%N
  else if (n =? 95)%N then Some 63%N
  else None.

(** [buf.toString('base64url')]: three bytes give four digits; a tail of one
    byte gives two digits and a tail of two bytes three; no padding. *)
Fixpoint encode_digits (buf : list byte) : list ascii :=
  match buf with
  | [] => []
  | [a] =>
      let a := Byte.to_N a in
      [digit (a / 4); digit (a mod 4 * 16)]
  | [a; b] =>
      let a := Byte.to_N a in
      let b := Byte.to_N b in
      [digit (a / 4); digit (a mod 4 * 16 + b / 16); digit (b mod 16 * 4)]
  | a :: b :: c :: rest =>
      let a := Byte.to_N a in
      let b := Byte.to_N b in
      let c := Byte.to_N c in
      digit (a / 4) :: digit (a mod 4 * 16 + b / 16)
        :: digit (b mod 16 * 4 + c / 64) :: digit (c mod 64)
        :: encode_digits rest
  end%N.

Definition encode (buf : list byte) : string :=
  string_of_list_ascii (encode_digits buf).

(** The reading direction, used only to state what a challenge decodes to:
    [Buffer.from(s, 'base64url')] on an unpadded string of URL-safe digits. *)
Definition octets (ns : list N) : option (list byte) := mapM Byte.of_N ns.

Fixpoint decode_digits (ds : list ascii) : option (list byte) :=
  match ds with
  | [] => Some []
  | [_] => None
  | [p; q] =>
      match value p, value q with
      | Some p, Some q => octets [p * 4 + q / 16]
      | _, _ => None
      end
  | [p; q; r] =>
      match value p, value q, value r with
      | Some p, Some q, Some r =>
          octets [p * 4 + q / 16; q mod 16 * 16 + r / 4]
      | _, _, _ => None
      end
  | p :: q :: r :: s :: rest =>
      match value p, value q, value r, value s with
      | Some p, Some q, Some r, Some s =>
          match octets [p * 4 + q / 16; q mod 16 * 16 + r / 4;
                        r mod 4 * 64 + s], decode_digits rest with
          | Some group, Some tail => Some (group ++ tail)%list
          | _, _ => None
          end
      | _, _, _, _ => None
      end
  end%N.

Definition decode (s : string) : option (list byte) :=
  decode_digits (list_ascii_of_string s).

Definition is_digit (c : ascii) : bool :=
  match value c with Some _ => true | None => false end.

End Base64Url.

Module Sha256.

Local Open Scope Z_scope.

(** 32-bit words are integers reduced modulo 2^32. *)
Definition w32 (x : Z) : Z := x mod 2 ^ 32.
Definition rotr (n x : Z) : Z :=
  Z.lor (Z.shiftr x n) (w32 (Z.shiftl x (32 - n))).
Definition ch (x y z : Z) : Z :=
  Z.lxor (Z.land x y) (Z.land (Z.lxor x (2 ^ 32 - 1)) z).
Definition maj (x y z : Z) : Z :=
  Z.lxor (Z.lxor (Z.land x y) (Z.land x z)) (Z.land y z).
Definition bsig0 x := Z.lxor (Z.lxor (rotr 2 x) (rotr 13 x)) (rotr 22 x).
Definition bsig1 x := Z.lxor (Z.lxor (rotr 6 x) (rotr 11 x)) (rotr 25 x).
Definition ssig0 x := Z.lxor (Z.lxor (rotr 7 x) (rotr 18 x)) (Z.shiftr x 3).
Definition ssig1 x := Z.lxor (Z.lxor (rotr 17 x) (rotr 19 x)) (Z.shiftr x 10).

(** The constants are the leading 32 fractional bits of the square roots
    (initial hash) and cube roots (round constants) of the first primes;
    they are computed here rather than transcribed. *)
Definition primes : list Z :=
  [2; 3; 5; 7; 11; 13; 17; 19; 23; 29; 31; 37; 41; 43; 47; 53; 59; 61; 67;
   71; 73; 79; 83; 89; 97; 101; 103; 107; 109; 113; 127; 131; 137; 139;
   149; 151; 157; 163; 167; 173; 179; 181; 191; 193; 197; 199; 211; 223;
   227; 229; 233; 239; 241; 251; 257; 263; 269; 271; 277; 281; 283; 293;
   307; 311].

Fixpoint cube_root_bits (bits : nat) (r n : Z) : Z :=
  match bits with
  | O => r
  | S b =>
      let c := r + 2 ^ Z.of_nat b in
      cube_root_bits b (if c * c * c <=? n then c else r) n
  end.

Definition round_constants : list Z :=
  Eval vm_compute in
    map (fun p => w32 (cube_root_bits 36 0 (p * 2 ^ 96))) primes.

Definition initial_hash : list Z :=
  Eval vm_compute in
    map (fun p => w32 (Z.sqrt (p * 2 ^ 64))) (firstn 8 primes).

Definition byte_of_Z (z : Z) : byte :=
  match Byte.of_N (Z.to_N (z mod 256)) with
  | Some b => b
  | None => x00
  end.
Definition Z_of_byte (b : byte) : Z := Z.of_N (Byte.to_N b).

(** Big-endian serialisation of a word on [n] bytes. *)
Fixpoint be_bytes (n : nat) (x : Z) : list Z :=
  match n with
  | O => []
  | S k => (x / 256 ^ Z.of_nat k) mod 256 :: be_bytes k x
  end.

Definition pad (msg : list Z) : list Z :=
  let len := Z.of_nat (length msg) in
  msg ++ [128] ++ repeat 0 (Z.to_nat ((55 - len) mod 64))
      ++ be_bytes 8 (8 * len).

(** Big-endian words of a padded message: four bytes at a time. *)
Fixpoint words (bs : list Z) : list Z :=
  match bs with
  | a :: b :: c :: d :: rest =>
      (((a * 256 + b) * 256 + c) * 256 + d) :: words rest
  | _ => []
  end.

Fixpoint blocks (fuel : nat) (ws : list Z) : list (list Z) :=
  match fuel, ws with
  | S f, _ :: _ => firstn 16 ws :: blocks f (skipn 16 ws)
  | _, _ => []
  end.

Fixpoint schedule (n : nat) (w : list Z) : list Z :=
  match n with
  | O => w
  | S k =>
      let t := length w in
      let at_ i := nth (t - i) w 0 in
      schedule k
        (w ++ [w32 (ssig1 (at_ 2%nat) + at_ 7%nat + ssig0 (at_ 15%nat)
                    + at_ 16%nat)])
  end.

Record regs := Regs { ra : Z; rb : Z; rc : Z; rd : Z;
                      re : Z; rf : Z; rg : Z; rh : Z }.

Definition round (s : regs) (kw : Z * Z) : regs :=
  let t1 := rh s + bsig1 (re s) + ch (re s) (rf s) (rg s) + fst kw + snd kw in
  let t2 := bsig0 (ra s) + maj (ra s) (rb s) (rc s) in
  Regs (w32 (t1 + t2)) (ra s) (rb s) (rc s)
       (w32 (rd s + t1)) (re s) (rf s) (rg s).

Definition compress (h : regs) (block : list Z) : regs :=
  let s := fold_left round (combine round_constants (schedule 48 block)) h in
  Regs (w32 (ra h + ra s)) (w32 (rb h + rb s)) (w32 (rc h + rc s))
       (w32 (rd h + rd s)) (w32 (re h + re s)) (w32 (rf h + rf s))
       (w32 (rg h + rg s)) (w32 (rh h + rh s)).

Definition start : regs :=
  match initial_hash with
  | [a; b; c; d; e; f; g; h] => Regs a b c d e f g h
  | _ => Regs 0 0 0 0 0 0 0 0
  end.

Definition digest_of (s : regs) : list byte :=
  map byte_of_Z
    (be_bytes 4 (ra s) ++ be_bytes 4 (rb s) ++ be_bytes 4 (rc s)
     ++ be_bytes 4 (rd s) ++ be_bytes 4 (re s) ++ be_bytes 4 (rf s)
     ++ be_bytes 4 (rg s) ++ be_bytes 4 (rh s)).

(** [crypto.createHash('sha256').update(msg).digest()] *)
Definition sha256 (msg : list byte) : list byte :=
  let ws := words (pad (map Z_of_byte msg)) in
  digest_of (fold_left compress (blocks (length ws) ws) start).

End Sha256.

(** ** PKCE and state generation *)

(** [generateCodeChallenge(codeVerifier)]: the verifier is hashed as its
    UTF-8 bytes, which is how a [string] is read here. *)
Definition generateCodeChallenge (codeVerifier : string) : string :=
  let hash := Sha256.sha256 (list_byte_of_string codeVerifier) in
  Base64Url.encode hash.

(** The bytes of a buffer as numbers. *)
Definition hex (bs : list byte) : list N := map Byte.to_N bs.

(** ** JavaScript values as the source uses them *)

(** Truthiness, as tested by [if (x)], [!x], [x || y] and [x && y]. *)
Class Truthy (A : Type) := truthy : A -> bool.
#[global] Instance truthy_string : Truthy string :=
  fun s => negb (String.eqb s "").
#[global] Instance truthy_Z : Truthy Z := fun n => negb (n =? 0)%Z.
#[global] Instance truthy_option {A} `{Truthy A} : Truthy (option A) :=
  fun o => match o with Some a => truthy a | None => false end.

(** [a || b] on an optional value. *)
Definition or_else {A} `{Truthy A} (a b : option A) : option A :=
  if truthy a then a else b.

(** Interpolation of a possibly missing value into a template string. *)
Definition js_string (o : option string) : string := default "undefined" o.

(** [hay.includes(needle)] *)
Fixpoint includes (needle hay : string) : bool :=
  String.prefix needle hay
  || match hay with
     | EmptyString => false
     | String _ rest => includes needle rest
     end.

(** [s.replace(/\/$/, '')]: one slash is removed, and only at the very end. *)
Fixpoint strip_trailing_slash (s : string) : string :=
  match s with
  | EmptyString => EmptyString
  | String c rest =>
      if Ascii.eqb c "/" && String.eqb rest "" then EmptyString
      else String c (strip_trailing_slash rest)
  end.

(** [s.split('/')] *)
Fixpoint split_slash (s : string) : list string :=
  match s with
  | EmptyString => [EmptyString]
  | String c rest =>
      if Ascii.eqb c "/" then EmptyString :: split_slash rest
      else match split_slash rest with
           | seg :: segs => String c seg :: segs
           | [] => [String c EmptyString]
           end
  end.

(** [url.pathname.split('/').slice(0, -1).join('/')] *)
Definition path_prefix (pathname : string) : string :=
  String.concat "/" (removelast (split_slash pathname)).

(** The class [\w] of regular expressions. *)
Definition is_word (c : ascii) : bool :=
  let n := N_of_ascii c in
  ((65 <=? n) && (n <=? 90) || (97 <=? n) && (n <=? 122)
   || (48 <=? n) && (n <=? 57) || (n =? 95))%N.

Definition dquote : ascii := "034"%char.

Fixpoint span (p : ascii -> bool) (s : list ascii) : list ascii * list ascii :=
  match s with
  | c :: rest =>
      if p c then let (a, b) := span p rest in (c :: a, b) else ([], s)
  | [] => ([], [])
  end.

(** One match of the header pattern (a run of word characters, an equals
    sign, a double-quoted value without quotes inside) anchored at the head
    of [s]: the key, the value and what follows the closing quote. *)
Definition match_param (s : list ascii)
    : option (list ascii * list ascii * list ascii) :=
  match span is_word s with
  | ([], _) => None
  | (key, c1 :: c2 :: after) =>
      if Ascii.eqb c1 "=" && Ascii.eqb c2 dquote then
        match span (fun c => negb (Ascii.eqb c dquote)) after with
        | (val, _ :: rest) => Some (key, val, rest)
        | _ => None
        end
      else None
  | _ => None
  end.

(** The [while ((match = regex.exec(header)) !== null)] loop of a global
    regular expression: leftmost match from the current position, then
    resume after it. *)
Fixpoint exec_all (fuel : nat) (s : list ascii) : list (string * string) :=
  match fuel with
  | O => []
  | S fuel' =>
      match match_param s with
      | Some (key, val, rest) =>
          (string_of_list_ascii key, string_of_list_ascii val)
            :: exec_all fuel' rest
      | None =>
          match s with
          | [] => []
          | _ :: s' => exec_all fuel' s'
          end
      end
  end.

(** [params[k]] after the assignments [params[match[1]] = match[2]] made in
    order: the last one wins. *)
Fixpoint param (k : string) (ms : list (string * string)) : option string :=
  match ms with
  | [] => None
  | (k', v) :: rest =>
      match param k rest with
      | Some v' => Some v'
      | None => if String.eqb k k' then Some v else None
      end
  end.


(** ** Data model *)

(** A JavaScript object, through the properties the code reads: the body
    of a response (server metadata, a client registration, a token
    response) and the token record the manager builds from one. A field
    is the value of the property; [None] is a property that is absent
    ([undefined]) or [null], and [nulls] names the properties the object
    carries with the value [null]. A body that is a JSON value other than
    an object or [null] (a number, a string, an array) has none of these
    properties and reads as the empty object; the body [null] is not an
    object and is kept apart, see [Parsed]. *)
Record Json := {
  issuer : option string;
  authorization_endpoint : option string;
  token_endpoint : option string;
  registration_endpoint : option string;
  revocation_endpoint : option string;
  response_types_supported : option (list string);
  grant_types_supported : option (list string);
  code_challenge_methods_supported : option (list string);
  token_endpoint_auth_methods_supported : option (list string);
  client_id : option string;
  access_token : option string;
  refresh_token : option string;
  token_type : option string;
  scope : option string;
  expires_in : option Z;
  (* the properties the manager adds to a token record; a token response
     may carry properties of these names too *)
  serverUrl : option string;
  clientId : option string;
  clientSecret : option string;
  grantType : option string;
  nulls : list string
}.

Definition empty_object : Json :=
  {| issuer := None; authorization_endpoint := None; token_endpoint := None;
     registration_endpoint := None; revocation_endpoint := None;
     response_types_supported := None; grant_types_supported := None;
     code_challenge_methods_supported := None;
     token_endpoint_auth_methods_supported := None; client_id := None;
     access_token := None; refresh_token := None; token_type := None;
     scope := None; expires_in := None; serverUrl := None; clientId := None;
     clientSecret := None; grantType := None; nulls := [] |}.

(** How an object carries a property: not at all, with the value [null],
    or with a value. *)
Inductive carried (A : Type) :=
| Absent
| Null
| Value (a : A).
Arguments Absent {A}.
Arguments Null {A}.
Arguments Value {A} a.

Definition carries {A} (name : string) (f : Json -> option A) (j : Json)
    : carried A :=
  match f j with
  | Some v => Value v
  | None => if bool_decide (name ∈ nulls j) then Null else Absent
  end.

(** [String(j.name)], as in a template string or in the fields of a form. *)
Definition js_prop (name : string) (f : Json -> option string) (j : Json)
    : string :=
  match carries name f j with
  | Value v => v
  | Null => "null"
  | Absent => "undefined"
  end.

(** The names of the properties that have a value. *)
Definition valued (j : Json) : list string :=
  let has {A} (name : string) (f : Json -> option A) :=
    match f j with Some _ => [name] | None => [] end in
  (has "issuer" issuer ++ has "authorization_endpoint" authorization_endpoint
   ++ has "token_endpoint" token_endpoint
   ++ has "registration_endpoint" registration_endpoint
   ++ has "revocation_endpoint" revocation_endpoint
   ++ has "response_types_supported" response_types_supported
   ++ has "grant_types_supported" grant_types_supported
   ++ has "code_challenge_methods_supported" code_challenge_methods_supported
   ++ has "token_endpoint_auth_methods_supported"
        token_endpoint_auth_methods_supported
   ++ has "client_id" client_id ++ has "access_token" access_token
   ++ has "refresh_token" refresh_token ++ has "token_type" token_type
   ++ has "scope" scope ++ has "expires_in" expires_in
   ++ has "serverUrl" serverUrl ++ has "clientId" clientId
   ++ has "clientSecret" clientSecret ++ has "grantType" grantType)%list.

(** [{...a, ...b}]: every property that [b] carries, with a value or with
    [null], replaces the one of [a]; the others are those of [a]. *)
Definition spread (a b : Json) : Json :=
  let over {A} (name : string) (f : Json -> option A) :=
    match carries name f b with
    | Value v => Some v
    | Null => None
    | Absent => f a
    end in
  {| issuer := over "issuer" issuer;
     authorization_endpoint :=
       over "authorization_endpoint" authorization_endpoint;
     token_endpoint := over "token_endpoint" token_endpoint;
     registration_endpoint :=
       over "registration_endpoint" registration_endpoint;
     revocation_endpoint := over "revocation_endpoint" revocation_endpoint;
     response_types_supported :=
       over "response_types_supported" response_types_supported;
     grant_types_supported :=
       over "grant_types_supported" grant_types_supported;
     code_challenge_methods_supported :=
       over "code_challenge_methods_supported"
         code_challenge_methods_supported;
     token_endpoint_auth_methods_supported :=
       over "token_endpoint_auth_methods_supported"
         token_endpoint_auth_methods_supported;
     client_id := over "client_id" client_id;
     access_token := over "access_token" access_token;
     refresh_token := over "refresh_token" refresh_token;
     token_type := over "token_type" token_type;
     scope := over "scope" scope;
     expires_in := over "expires_in" expires_in;
     serverUrl := over "serverUrl" serverUrl;
     clientId := over "clientId" clientId;
     clientSecret := over "clientSecret" clientSecret;
     grantType := over "grantType" grantType;
     nulls :=
       (nulls b
        ++ filter (fun name => name ∉ valued b) (nulls a))%list |}.

(** [{...j, serverUrl, clientId, clientSecret}] and [{...j, grantType}]:
    a property written after the spread replaces the one [j] carries. *)
Definition set_record_fields (serverUrl' clientId' : string)
    (clientSecret' : option string) (j : Json) : Json :=
  {| issuer := issuer j;
     authorization_endpoint := authorization_endpoint j;
     token_endpoint := token_endpoint j;
     registration_endpoint := registration_endpoint j;
     revocation_endpoint := revocation_endpoint j;
     response_types_supported := response_types_supported j;
     grant_types_supported := grant_types_supported j;
     code_challenge_methods_supported := code_challenge_methods_supported j;
     token_endpoint_auth_methods_supported :=
       token_endpoint_auth_methods_supported j;
     client_id := client_id j; access_token := access_token j;
     refresh_token := refresh_token j; token_type := token_type j;
     scope := scope j; expires_in := expires_in j;
     serverUrl := Some serverUrl'; clientId := Some clientId';
     clientSecret := clientSecret'; grantType := grantType j;
     nulls :=
       filter (fun name => name ∉ ["serverUrl"; "clientId"; "clientSecret"])
         (nulls j) |}.
Definition set_grantType (grantType' : string) (j : Json) : Json :=
  {| issuer := issuer j;
     authorization_endpoint := authorization_endpoint j;
     token_endpoint := token_endpoint j;
     registration_endpoint := registration_endpoint j;
     revocation_endpoint := revocation_endpoint j;
     response_types_supported := response_types_supported j;
     grant_types_supported := grant_types_supported j;
     code_challenge_methods_supported := code_challenge_methods_supported j;
     token_endpoint_auth_methods_supported :=
       token_endpoint_auth_methods_supported j;
     client_id := client_id j; access_token := access_token j;
     refresh_token := refresh_token j; token_type := token_type j;
     scope := scope j; expires_in := expires_in j;
     serverUrl := serverUrl j; clientId := clientId j;
     clientSecret := clientSecret j; grantType := Some grantType';
     nulls := filter (fun name => name ∉ ["grantType"]) (nulls j) |}.

Module Error.
Record t := mk {
  name : string;
  message : string;
  code : option Z;
  authorizationUrl : option string;
  state : option string;
  expiresIn : option Z
}.
(** [new Error(message)] *)
Definition new (message : string) : t :=
  mk "Error" message None None None None.
Definition TypeError (message : string) : t :=
  mk "TypeError" message None None None None.
Definition SyntaxError (message : string) : t :=
  mk "SyntaxError" message None None None None.
End Error.

Module PendingAuthorization.
Record t := mk {
  serverName : string;
  serverUrl : string;
  codeVerifier : string;
  clientId : string;
  clientSecret : option string;
  scopes : list string;
  redirectUri : string;
  createdAt : Z;
  expiresAt : Z
}.
End PendingAuthorization.

Module TokenRecord.
(** The object stored for a server: [response] holds its properties other
    than the two timestamps, that is the properties spread from the token
    response(s) and [serverUrl], [clientId], [clientSecret], [grantType]. *)
Record t := mk {
  response : Json;
  obtainedAt : Z;
  expiresAt : option Z
}.
Definition serverUrl (tokenData : t) : option string :=
  serverUrl (response tokenData).
Definition clientId (tokenData : t) : option string :=
  clientId (response tokenData).
Definition clientSecret (tokenData : t) : option string :=
  clientSecret (response tokenData).
Definition grantType (tokenData : t) : option string :=
  grantType (response tokenData).
End TokenRecord.

(** The defaults of a registration request, and the caller's overrides.
    As for [Json], [None] is a property that is absent or [null], and
    [null_properties] names those carried as [null], which
    [JSON.stringify] writes out. *)
Record ClientMetadata := {
  client_name : option string;
  redirect_uris : option (list string);
  grant_types : option (list string);
  response_types : option (list string);
  token_endpoint_auth_method : option string;
  null_properties : list string
}.

(** [{...a, ...b}]: a property that [b] carries, with a value or with
    [null], replaces the one of [a]. *)
Definition spread_client (a b : ClientMetadata) : ClientMetadata :=
  let over {A} (name : string) (f : ClientMetadata -> option A) :=
    match f b with
    | Some v => Some v
    | None => if bool_decide (name ∈ null_properties b) then None else f a
    end in
  let has {A} (name : string) (f : ClientMetadata -> option A) :=
    match f b with Some _ => [name] | None => [] end in
  let valued :=
    (has "client_name" client_name ++ has "redirect_uris" redirect_uris
     ++ has "grant_types" grant_types ++ has "response_types" response_types
     ++ has "token_endpoint_auth_method" token_endpoint_auth_method)%list in
  {| client_name := over "client_name" client_name;
     redirect_uris := over "redirect_uris" redirect_uris;
     grant_types := over "grant_types" grant_types;
     response_types := over "response_types" response_types;
     token_endpoint_auth_method :=
       over "token_endpoint_auth_method" token_endpoint_auth_method;
     null_properties :=
       (null_properties b
        ++ filter (fun name => name ∉ valued) (null_properties a))%list |}.

(** The [options] of an authorization flow, which is also the [oauth] part
    of a server configuration. As for [Json], [None] is a property that
    is absent or [null], and [nulls] names those carried as [null]. *)
Module Options.
Record t := mk {
  clientId : option string;
  clientSecret : option string;
  scopes : option (list string);
  clientMetadata : option ClientMetadata;
  metadataUrl : option string;
  callbackUrl : option string;
  nulls : list string
}.
Definition empty : t := mk None None None None None None [].
End Options.

Inductive TransportType := SSE | STREAMABLE_HTTP | HTTP_SSE.
Inductive AuthType :=
  NONE | API_KEY | BEARER_TOKEN | OAUTH2 | OAUTH2_CLIENT_CREDENTIALS.

#[global] Instance AuthType_eq_dec : EqDecision AuthType.
Proof. solve_decision. Defined.

Module URL.
Record t := mk {
  protocol : string;
  host : string;
  pathname : string;
  searchParams : list (string * string)
}.
(** [url.searchParams.set(k, v)]: the first pair named [k] takes the
    value and later ones are dropped; a new pair goes last. *)
Fixpoint set_params (k v : string) (ps : list (string * string))
    : list (string * string) :=
  match ps with
  | [] => [(k, v)]
  | (k', v') :: rest =>
      if String.eqb k k'
      then (k, v) :: filter (fun p => negb (String.eqb k (fst p))) rest
      else (k', v') :: set_params k v rest
  end.
Definition set (k v : string) (u : t) : t :=
  mk (protocol u) (host u) (pathname u) (set_params k v (searchParams u)).
End URL.

Inductive Body :=
| NoBody
| Form (fields : list (string * string))
| JsonBody (metadata : ClientMetadata).

Record Request := {
  req_url : string;
  req_method : string;
  req_headers : list (string * string);
  req_body : Body
}.

(** What the body of a response parses to: nothing ([response.json()]
    rejects), the JSON value [null], or another JSON value, read as an
    object. *)
Inductive Parsed :=
| Unparseable
| JsonNull
| JsonValue (j : Json).

(** What [fetch] resolves to. *)
Record Response := {
  status : Z;
  www_authenticate : option string;
  json : Parsed;
  text : string
}.
Definition ok (r : Response) : bool :=
  ((200 <=? status r) && (status r <=? 299))%Z.

Inductive FetchOutcome :=
| Resolved (r : Response)
| Rejected (message : string).

(** What an MCP SDK call yields. *)
Record ServerSide := {
  server_version : option string;
  server_capabilities : option string;
  tools : list string
}.
Inductive SdkOutcome :=
| SdkOk (r : ServerSide)
| SdkThrows (e : Error.t).

Record Transport := {
  transport_url : URL.t;
  transport_headers : gmap string string
}.

Module RawConfig.
(** A server configuration as given by a caller. [None] is a property
    that is absent or [null]; [nulls] names those carried as [null]. *)
Record t := mk {
  url : option string;
  transport : option TransportType;
  authType : option AuthType;
  apiKey : option string;
  bearerToken : option string;
  oauth : option Options.t;
  clientId : option string;
  clientSecret : option string;
  scopes : option (list string);
  headers : option (gmap string string);
  timeout : option Z;
  maxRetries : option Z;
  retryDelay : option Z;
  nulls : list string
}.
End RawConfig.

Module Config.
(** A normalized configuration. The manager's [normalizeConfig] leaves
    [maxRetries] and [retryDelay] out ([None]); the client's sets them. *)
Record t := mk {
  url : option string;
  transport : TransportType;
  authType : AuthType;
  apiKey : option string;
  bearerToken : option string;
  oauth : Options.t;
  headers : gmap string string;
  timeout : Z;
  maxRetries : option Z;
  retryDelay : option Z
}.
Definition set_authType (a : AuthType) (c : t) : t :=
  mk (url c) (transport c) a (apiKey c) (bearerToken c) (oauth c)
     (headers c) (timeout c) (maxRetries c) (retryDelay c).
End Config.

Module MCPClientEnhanced.
(** An instance; [client] is the handle of the SDK client it owns. *)
Record t := mk {
  name : string;
  config : Config.t;
  client : option nat;
  transport : option Transport;
  connected : bool;
  capabilities : option string;
  serverInfo : option string;
  sessionId : option string
}.
End MCPClientEnhanced.

(** [process.env] *)
Record ProcessEnv := {
  APP_URL : option string;
  HEROKU_APP_URL : option string;
  HEROKU_APP_NAME : option string;
  PORT : option string;
  MCP_TIMEOUT : option Z
}.

(** ** The platform and the state of the process *)

(** Everything outside the process. [new_URL] is the URL parser of the
    runtime ([None]: it throws); the other fields answer the n-th clock
    read, the n-th fetch, the n-th random byte and the n-th SDK call. *)
Record Platform := {
  new_URL : string -> option URL.t;
  URL_toString : URL.t -> string;
  env : ProcessEnv;
  clock : nat -> Z;
  network : nat -> Request -> FetchOutcome;
  entropy : nat -> byte;
  sdk : nat -> SdkOutcome
}.

Inductive Event :=
| EvFetch (r : Request)
| EvClientConnect (client : nat) (t : Transport)
| EvClientClose (client : nat)
| EvClientCall (client : nat) (op : string).

Record State := {
  (* oauthManager *)
  pendingAuthorizations : gmap string PendingAuthorization.t;
  tokens : gmap string TokenRecord.t;
  (* a cached value is what [response.json()] gave: [None] is [null] *)
  serverMetadata : gmap string (option Json);
  clientRegistrations : gmap string (option Json);
  (* the MCPClientEnhanced objects, by reference *)
  heap : gmap nat MCPClientEnhanced.t;
  (* the connection manager *)
  connections : gmap string nat;
  configs : gmap string Config.t;
  (* how far the platform has been consumed, and what was done to it *)
  reads : nat;
  fetches : nat;
  drawn : nat;
  sdk_calls : nat;
  allocated : nat;
  events : list Event
}.

Definition initial : State :=
  {| pendingAuthorizations := ∅; tokens := ∅; serverMetadata := ∅;
     clientRegistrations := ∅; heap := ∅; connections := ∅; configs := ∅;
     reads := 0; fetches := 0; drawn := 0; sdk_calls := 0; allocated := 0;
     events := [] |}.

Definition with_pendingAuthorizations f (s : State) : State :=
  {| pendingAuthorizations := f (pendingAuthorizations s);
     tokens := tokens s; serverMetadata := serverMetadata s;
     clientRegistrations := clientRegistrations s; heap := heap s;
     connections := connections s; configs := configs s; reads := reads s;
     fetches := fetches s; drawn := drawn s; sdk_calls := sdk_calls s;
     allocated := allocated s; events := events s |}.
Definition with_tokens f (s : State) : State :=
  {| pendingAuthorizations := pendingAuthorizations s;
     tokens := f (tokens s); serverMetadata := serverMetadata s;
     clientRegistrations := clientRegistrations s; heap := heap s;
     connections := connections s; configs := configs s; reads := reads s;
     fetches := fetches s; drawn := drawn s; sdk_calls := sdk_calls s;
     allocated := allocated s; events := events s |}.
Definition with_serverMetadata f (s : State) : State :=
  {| pendingAuthorizations := pendingAuthorizations s;
     tokens := tokens s; serverMetadata := f (serverMetadata s);
     clientRegistrations := clientRegistrations s; heap := heap s;
     connections := connections s; configs := configs s; reads := reads s;
     fetches := fetches s; drawn := drawn s; sdk_calls := sdk_calls s;
     allocated := allocated s; events := events s |}.
Definition with_clientRegistrations f (s : State) : State :=
  {| pendingAuthorizations := pendingAuthorizations s;
     tokens := tokens s; serverMetadata := serverMetadata s;
     clientRegistrations := f (clientRegistrations s); heap := heap s;
     connections := connections s; configs := configs s; reads := reads s;
     fetches := fetches s; drawn := drawn s; sdk_calls := sdk_calls s;
     allocated := allocated s; events := events s |}.
Definition with_heap f (s : State) : State :=
  {| pendingAuthorizations := pendingAuthorizations s;
     tokens := tokens s; serverMetadata := serverMetadata s;
     clientRegistrations := clientRegistrations s; heap := f (heap s);
     connections := connections s; configs := configs s; reads := reads s;
     fetches := fetches s; drawn := drawn s; sdk_calls := sdk_calls s;
     allocated := allocated s; events := events s |}.
Definition with_connections f (s : State) : State :=
  {| pendingAuthorizations := pendingAuthorizations s;
     tokens := tokens s; serverMetadata := serverMetadata s;
     clientRegistrations := clientRegistrations s; heap := heap s;
     connections := f (connections s); configs := configs s;
     reads := reads s; fetches := fetches s; drawn := drawn s;
     sdk_calls := sdk_calls s; allocated := allocated s;
     events := events s |}.
Definition with_configs f (s : State) : State :=
  {| pendingAuthorizations := pendingAuthorizations s;
     tokens := tokens s; serverMetadata := serverMetadata s;
     clientRegistrations := clientRegistrations s; heap := heap s;
     connections := connections s; configs := f (configs s);
     reads := reads s; fetches := fetches s; drawn := drawn s;
     sdk_calls := sdk_calls s; allocated := allocated s;
     events := events s |}.
(** One more clock read, fetch, run of random bytes or SDK call. *)
Definition consumed (r f d k : nat) (evs : list Event) (s : State) : State :=
  {| pendingAuthorizations := pendingAuthorizations s;
     tokens := tokens s; serverMetadata := serverMetadata s;
     clientRegistrations := clientRegistrations s; heap := heap s;
     connections := connections s; configs := configs s;
     reads := r + reads s; fetches := f + fetches s; drawn := d + drawn s;
     sdk_calls := k + sdk_calls s; allocated := allocated s;
     events := evs ++ events s |}.
(** A fresh reference (an object identity). *)
Definition allocate (s : State) : State :=
  {| pendingAuthorizations := pendingAuthorizations s;
     tokens := tokens s; serverMetadata := serverMetadata s;
     clientRegistrations := clientRegistrations s; heap := heap s;
     connections := connections s; configs := configs s; reads := reads s;
     fetches := fetches s; drawn := drawn s; sdk_calls := sdk_calls s;
     allocated := S (allocated s); events := events s |}.

(** ** Computations: state, and [throw] *)

Inductive Outcome (A : Type) :=
| Return (a : A)
| Throw (e : Error.t).
Arguments Return {A} a.
Arguments Throw {A} e.

Definition M (A : Type) : Type := State -> Outcome A * State.

Definition ret {A} (a : A) : M A := fun s => (Return a, s).
Definition throw {A} (e : Error.t) : M A := fun s => (Throw e, s).
Definition bind {A B} (m : M A) (k : A -> M B) : M B :=
  fun s =>
    match m s with
    | (Return a, s') => k a s'
    | (Throw e, s') => (Throw e, s')
    end.
(** [try { m } catch (e) { handler e }] *)
Definition try_catch {A} (m : M A) (handler : Error.t -> M A) : M A :=
  fun s =>
    match m s with
    | (Return a, s') => (Return a, s')
    | (Throw e, s') => handler e s'
    end.
Definition get {A} (f : State -> A) : M A := fun s => (Return (f s), s).
Definition modify (f : State -> State) : M unit := fun s => (Return tt, f s).

Declare Scope js_scope.
Delimit Scope js_scope with js.
Notation "'let*' x := m 'in' k" := (bind m (fun x => k))
  (at level 10, x name, m at level 100, k at level 200) : js_scope.
Local Open Scope js_scope.

(** [post m s Q]: running [m] from [s] ends, by [return] or by [throw], in
    an outcome and a state that satisfy [Q]. *)
Definition post {A} (m : M A) (s : State) (Q : Outcome A -> State -> Prop)
    : Prop :=
  Q (m s).1 (m s).2.

(** ** OAuthManager *)

(** What [initiateAuthorizationFlow] returns. *)
Module AuthInfo.
Record t := mk {
  authorizationUrl : string;
  state : string;
  expiresIn : Z
}.
End AuthInfo.

Section OAuthManager.

Context (P : Platform).

(** [Date.now()] *)
Definition Date_now : M Z :=
  fun s => (Return (clock P (reads s)), consumed 1 0 0 0 [] s).

(** [crypto.randomBytes(length)] *)
Definition randomBytes (length : nat) : M (list byte) :=
  fun s => (Return (map (entropy P) (seq (drawn s) length)),
            consumed 0 0 length 0 [] s).

(** [await fetch(url, init)] *)
Definition fetch (req : Request) : M Response :=
  fun s =>
    let s' := consumed 0 1 0 0 [EvFetch req] s in
    match network P (fetches s) req with
    | Resolved r => (Return r, s')
    | Rejected msg => (Throw (Error.TypeError msg), s')
    end.

(** [await response.json()]; [None] is the value [null]. *)
Definition response_json (r : Response) : M (option Json) :=
  match json r with
  | JsonValue j => ret (Some j)
  | JsonNull => ret None
  | Unparseable => throw (Error.SyntaxError "Unexpected token in JSON")
  end.

(** The first read of a property, [j.name], of a value that may be
    [null]. *)
Definition read_of (name : string) (j : option Json) : M Json :=
  match j with
  | Some object => ret object
  | None =>
      throw (Error.TypeError
               ("Cannot read properties of null (reading '" +:+ name +:+ "')"))
  end.

(** [new URL(s)] *)
Definition URL_new (s : string) : M URL.t :=
  match new_URL P s with
  | Some u => ret u
  | None => throw (Error.TypeError "Invalid URL")
  end.

Definition generateRandomString (length : nat) : M string :=
  let* bytes := randomBytes length in
  ret (Base64Url.encode bytes).

Definition generateCodeVerifier : M string := generateRandomString 32.

Definition generateState : M string := generateRandomString 16.

Definition parseWWWAuthenticateHeader (header baseUrl : string)
    : option Json :=
  let params :=
    exec_all (S (String.length header)) (list_ascii_of_string header) in
  if truthy (param "authorization_uri" params)
     || truthy (param "realm" params)
  then
    Some
      {| issuer := or_else (param "realm" params) (Some baseUrl);
         authorization_endpoint :=
           or_else (param "authorization_uri" params)
                   (Some (baseUrl +:+ "/authorize"));
         token_endpoint :=
           or_else (param "token_uri" params) (Some (baseUrl +:+ "/token"));
         registration_endpoint := param "registration_uri" params;
         revocation_endpoint := None;
         response_types_supported := Some ["code"];
         grant_types_supported :=
           Some ["authorization_code"; "refresh_token"];
         code_challenge_methods_supported := Some ["S256"];
         token_endpoint_auth_methods_supported := None;
         client_id := None; access_token := None; refresh_token := None;
         token_type := None; scope := None; expires_in := None;
         serverUrl := None; clientId := None; clientSecret := None;
         grantType := None; nulls := [] |}
  else None.

Definition defaultMetadata (baseUrl : string)
    (auth_methods : option (list string)) : Json :=
  {| issuer := Some baseUrl;
     authorization_endpoint := Some (baseUrl +:+ "/authorize");
     token_endpoint := Some (baseUrl +:+ "/token");
     registration_endpoint := Some (baseUrl +:+ "/register");
     revocation_endpoint := None;
     response_types_supported := Some ["code"];
     grant_types_supported :=
       Some ["authorization_code"; "client_credentials"; "refresh_token"];
     code_challenge_methods_supported := Some ["S256"];
     token_endpoint_auth_methods_supported := auth_methods;
     client_id := None; access_token := None; refresh_token := None;
     token_type := None; scope := None; expires_in := None;
     serverUrl := None; clientId := None; clientSecret := None;
     grantType := None; nulls := [] |}.

Definition discoveryUrls (url : URL.t) (baseUrl : string)
    (customMetadataUrl : option string) : list string :=
  (match customMetadataUrl with
   | Some u => if truthy u then [u] else []
   | None => []
   end
   ++ (if truthy (URL.pathname url)
          && negb (String.eqb (URL.pathname url) "/")
       then
         (baseUrl +:+ "/.well-known/oauth-authorization-server")
           :: (let pathPrefix := path_prefix (URL.pathname url) in
               if truthy pathPrefix
               then [baseUrl +:+ pathPrefix
                       +:+ "/.well-known/oauth-authorization-server"]
               else [])
       else [baseUrl +:+ "/.well-known/oauth-authorization-server"])
   ++ [baseUrl +:+ "/.well-known/openid-configuration"])%list.

(** The [for (const metadataUrl of discoveryUrls)] loop; [Some metadata]
    is its [return metadata], [None] is falling out of the loop. *)
Fixpoint tryDiscoveryUrls (serverUrl : string) (urls : list string)
    : M (option Json) :=
  match urls with
  | [] => ret None
  | metadataUrl :: rest =>
      let* found :=
        try_catch
          (let* response :=
             fetch {| req_url := metadataUrl; req_method := "GET";
                      req_headers :=
                        [("Accept", "application/json");
                         ("MCP-Protocol-Version", "2025-03-26")];
                      req_body := NoBody |} in
           if ok response then
             let* metadata := response_json response in
             let* _ := modify (with_serverMetadata
                                 (insert serverUrl metadata)) in
             (* logger.info(..., { issuer: metadata.issuer }) *)
             let* metadata := read_of "issuer" metadata in
             ret (Some metadata)
           else ret None)
          (fun discoveryError => ret None) in
      match found with
      | Some metadata => ret (Some metadata)
      | None => tryDiscoveryUrls serverUrl rest
      end
  end.

(** The probe of the MCP endpoint for a [WWW-Authenticate] challenge. *)
Definition probeChallenge (serverUrl baseUrl : string) : M (option Json) :=
  try_catch
    (let* mcpResponse :=
       fetch {| req_url := serverUrl; req_method := "GET";
                req_headers :=
                  [("Accept", "text/event-stream");
                   ("MCP-Protocol-Version", "2025-03-26")];
                req_body := NoBody |} in
     match www_authenticate mcpResponse with
     | Some wwwAuth =>
         if truthy wwwAuth then
           match parseWWWAuthenticateHeader wwwAuth baseUrl with
           | Some metadata =>
               let* _ := modify (with_serverMetadata
                                   (insert serverUrl (Some metadata))) in
               ret (Some metadata)
           | None => ret None
           end
         else ret None
     | None => ret None
     end)
    (fun mcpError => ret None).

Definition baseUrl_of (url : URL.t) : string :=
  URL.protocol url +:+ "//" +:+ URL.host url.

Definition discoverServerMetadata (serverUrl : string)
    (customMetadataUrl : option string) : M Json :=
  try_catch
    (let* url := URL_new serverUrl in
     let baseUrl := baseUrl_of url in
     let* found :=
       tryDiscoveryUrls serverUrl
         (discoveryUrls url baseUrl customMetadataUrl) in
     match found with
     | Some metadata => ret metadata
     | None =>
         let* challenged := probeChallenge serverUrl baseUrl in
         match challenged with
         | Some metadata => ret metadata
         | None =>
             let defaultMetadata :=
               defaultMetadata baseUrl
                 (Some ["none"; "client_secret_basic";
                        "client_secret_post"]) in
             let* _ := modify (with_serverMetadata
                                 (insert serverUrl (Some defaultMetadata))) in
             ret defaultMetadata
         end
     end)
    (fun error =>
       let* url := URL_new serverUrl in
       ret (defaultMetadata (baseUrl_of url) None)).

Definition getCallbackUrl (customCallbackUrl : option string) : string :=
  if truthy customCallbackUrl then js_string customCallbackUrl
  else
    (* Priority: explicit APP_URL > HEROKU_APP_URL > HEROKU_APP_NAME > localhost *)
    let baseUrl := APP_URL (env P) in
    let baseUrl :=
      if negb (truthy baseUrl) && truthy (HEROKU_APP_URL (env P))
      then HEROKU_APP_URL (env P) else baseUrl in
    let baseUrl :=
      if negb (truthy baseUrl) && truthy (HEROKU_APP_NAME (env P))
      then Some ("https://" +:+ js_string (HEROKU_APP_NAME (env P))
                   +:+ ".herokuapp.com")
      else baseUrl in
    let baseUrl :=
      if negb (truthy baseUrl)
      then
        let port := or_else (PORT (env P)) (Some "3000") in
        Some ("http://localhost:" +:+ js_string port)
      else baseUrl in
    (* Ensure no trailing slash *)
    let baseUrl := strip_trailing_slash (js_string baseUrl) in
    baseUrl +:+ "/oauth/callback".

Definition registerClient (serverUrl : string)
    (clientMetadata : option ClientMetadata) : M (option Json) :=
  try_catch
    (let* metadata := discoverServerMetadata serverUrl None in
     let registrationEndpoint := registration_endpoint metadata in
     if negb (truthy registrationEndpoint) then ret None
     else
       let defaultClientMetadata :=
         spread_client
           {| client_name := Some "Heroku MCP Host";
              redirect_uris := Some [getCallbackUrl None];
              grant_types := Some ["authorization_code"; "refresh_token"];
              response_types := Some ["code"];
              token_endpoint_auth_method := Some "none";
              null_properties := [] |}
           (default (Build_ClientMetadata None None None None None [])
                    clientMetadata) in
       let* response :=
         fetch {| req_url := js_string registrationEndpoint;
                  req_method := "POST";
                  req_headers := [("Content-Type", "application/json");
                                  ("Accept", "application/json")];
                  req_body := JsonBody defaultClientMetadata |} in
       if ok response then
         let* registration := response_json response in
         let* _ := modify (with_clientRegistrations
                             (insert serverUrl registration)) in
         (* logger.info(..., { clientId: registration.client_id }) *)
         let* registration := read_of "client_id" registration in
         ret (Some registration)
       else ret None)
    (fun error => ret None).

Definition storeTokens (serverName : string) (tokenData : TokenRecord.t)
    : M unit :=
  modify (with_tokens (insert serverName tokenData)).

(** [tokens.expires_in ? Date.now() + (tokens.expires_in * 1000) : null] *)
Definition expiry_of (tokens : Json) : M (option Z) :=
  if truthy (expires_in tokens) then
    let* now := Date_now in
    ret (Some (now + default 0 (expires_in tokens) * 1000)%Z)
  else ret None.

(** The request of [fetch(metadata.token_endpoint, { method: 'POST', ...,
    body: new URLSearchParams(tokenRequest) })]. *)
Definition post_form (metadata : Json)
    (tokenRequest : list (string * string)) : Request :=
  {| req_url := js_prop "token_endpoint" token_endpoint metadata;
     req_method := "POST";
     req_headers :=
       [("Content-Type", "application/x-www-form-urlencoded");
        ("Accept", "application/json")];
     req_body := Form tokenRequest |}.

(** [if (secret) tokenRequest.client_secret = secret] *)
Definition with_secret (clientSecret : option string)
    : list (string * string) :=
  if truthy clientSecret then [("client_secret", js_string clientSecret)]
  else [].

Definition initiateAuthorizationFlow (serverName serverUrl : string)
    (options : Options.t) : M AuthInfo.t :=
  let* metadata :=
    discoverServerMetadata serverUrl (Options.metadataUrl options) in
  let* clientId :=
    if negb (truthy (Options.clientId options)) then
      let* cached := get (fun s => clientRegistrations s !! serverUrl) in
      let* registration :=
        match cached with
        | Some (Some registration) => ret (Some registration)
        | _ => registerClient serverUrl (Options.clientMetadata options)
        end in
      ret (registration ≫= client_id)
    else ret (Options.clientId options) in
  if negb (truthy clientId) then
    throw (Error.new
      "No client ID available. Provide clientId or enable dynamic registration.")
  else
    let clientId := js_string clientId in
    let* codeVerifier := generateCodeVerifier in
    let codeChallenge := generateCodeChallenge codeVerifier in
    let* state := generateState in
    let redirectUri := getCallbackUrl (Options.callbackUrl options) in
    let* createdAt := Date_now in
    let* now := Date_now in
    let* _ :=
      modify (with_pendingAuthorizations (insert state
        {| PendingAuthorization.serverName := serverName;
           PendingAuthorization.serverUrl := serverUrl;
           PendingAuthorization.codeVerifier := codeVerifier;
           PendingAuthorization.clientId := clientId;
           PendingAuthorization.clientSecret := Options.clientSecret options;
           PendingAuthorization.scopes := default [] (Options.scopes options);
           PendingAuthorization.redirectUri := redirectUri;
           PendingAuthorization.createdAt := createdAt;
           PendingAuthorization.expiresAt := (now + 10 * 60 * 1000)%Z |})) in
    let* authUrl :=
      URL_new (js_prop "authorization_endpoint" authorization_endpoint
                 metadata) in
    let authUrl := URL.set "response_type" "code" authUrl in
    let authUrl := URL.set "client_id" clientId authUrl in
    let authUrl := URL.set "redirect_uri" redirectUri authUrl in
    let authUrl := URL.set "state" state authUrl in
    let authUrl := URL.set "code_challenge" codeChallenge authUrl in
    let authUrl := URL.set "code_challenge_method" "S256" authUrl in
    let authUrl :=
      match Options.scopes options with
      | Some (_ :: _ as scopes) =>
          URL.set "scope" (String.concat " " scopes) authUrl
      | _ => authUrl
      end in
    ret {| AuthInfo.authorizationUrl := URL_toString P authUrl;
           AuthInfo.state := state;
           AuthInfo.expiresIn := 600 |}.

Definition handleCallback (code state : string) : M (string * bool) :=
  let* pending := get (fun s => pendingAuthorizations s !! state) in
  match pending with
  | None => throw (Error.new "Invalid or expired state parameter")
  | Some pending =>
      let* now := Date_now in
      if (now >? PendingAuthorization.expiresAt pending)%Z then
        let* _ := modify (with_pendingAuthorizations (delete state)) in
        throw (Error.new "Authorization request has expired")
      else
        try_catch
          (let* metadata :=
             discoverServerMetadata
               (PendingAuthorization.serverUrl pending) None in
           let tokenRequest :=
             ([("grant_type", "authorization_code");
              ("code", code);
              ("redirect_uri",
               if truthy (PendingAuthorization.redirectUri pending)
               then PendingAuthorization.redirectUri pending
               else getCallbackUrl None);
              ("client_id", PendingAuthorization.clientId pending);
              ("code_verifier", PendingAuthorization.codeVerifier pending)]
             ++ with_secret (PendingAuthorization.clientSecret pending))%list in
           let* response := fetch (post_form metadata tokenRequest) in
           if negb (ok response) then
             throw (Error.new ("Token exchange failed: " +:+ text response))
           else
             let* tokens := response_json response in
             let* obtainedAt := Date_now in
             let* tokens := read_of "expires_in" tokens in
             let* expiresAt := expiry_of tokens in
             let* _ :=
               storeTokens (PendingAuthorization.serverName pending)
                 {| TokenRecord.response :=
                      set_record_fields
                        (PendingAuthorization.serverUrl pending)
                        (PendingAuthorization.clientId pending)
                        (PendingAuthorization.clientSecret pending) tokens;
                    TokenRecord.obtainedAt := obtainedAt;
                    TokenRecord.expiresAt := expiresAt |} in
             (* Clean up pending authorization *)
             let* _ := modify (with_pendingAuthorizations (delete state)) in
             ret (PendingAuthorization.serverName pending, true))
          (fun error =>
             let* _ := modify (with_pendingAuthorizations (delete state)) in
             throw error)
  end.

Definition clientCredentialsGrant (serverName serverUrl : string)
    (clientId clientSecret : string) (scopes : list string) : M Json :=
  let* metadata := discoverServerMetadata serverUrl None in
  let tokenRequest :=
    ([("grant_type", "client_credentials");
     ("client_id", clientId);
     ("client_secret", clientSecret)]
    ++ match scopes with
       | _ :: _ => [("scope", String.concat " " scopes)]
       | [] => []
       end)%list in
  let* response := fetch (post_form metadata tokenRequest) in
  if negb (ok response) then
    throw (Error.new ("Client credentials grant failed: " +:+ text response))
  else
    let* tokens := response_json response in
    let* obtainedAt := Date_now in
    let* tokens := read_of "expires_in" tokens in
    let* expiresAt := expiry_of tokens in
    let* _ :=
      storeTokens serverName
        {| TokenRecord.response :=
             set_grantType "client_credentials"
               (set_record_fields serverUrl clientId (Some clientSecret)
                  tokens);
           TokenRecord.obtainedAt := obtainedAt;
           TokenRecord.expiresAt := expiresAt |} in
    ret tokens.

(** The [tokenRequest] object of [refreshAccessToken]. *)
Definition refresh_tokenRequest (tokenData : TokenRecord.t)
    : list (string * string) :=
  ([("grant_type", "refresh_token");
    ("refresh_token",
     js_prop "refresh_token" refresh_token (TokenRecord.response tokenData));
    ("client_id", js_prop "clientId" clientId (TokenRecord.response tokenData))]
   ++ with_secret (TokenRecord.clientSecret tokenData))%list.

(** [discoverServerMetadata(x)] for an [x] that may be [undefined] or
    [null]: [new URL(x)] throws in the try block and again in the catch
    block. *)
Definition discoverServerMetadata_of (serverUrl : option string) : M Json :=
  match serverUrl with
  | Some serverUrl => discoverServerMetadata serverUrl None
  | None => throw (Error.TypeError "Invalid URL")
  end.

Definition refreshAccessToken (serverName : string) : M Json :=
  let* tokenData := get (fun s => tokens s !! serverName) in
  match tokenData with
  | None => throw (Error.new ("No refresh token available for " +:+ serverName))
  | Some tokenData =>
      if negb (truthy (refresh_token (TokenRecord.response tokenData))) then
        throw (Error.new ("No refresh token available for " +:+ serverName))
      else
        let* metadata :=
          discoverServerMetadata_of (TokenRecord.serverUrl tokenData) in
        let tokenRequest := refresh_tokenRequest tokenData in
        let* response := fetch (post_form metadata tokenRequest) in
        if negb (ok response) then
          (* Clear stored tokens on refresh failure *)
          let* _ := modify (with_tokens (delete serverName)) in
          throw (Error.new ("Token refresh failed: " +:+ text response))
        else
          let* newTokens := response_json response in
          let* obtainedAt := Date_now in
          let* newTokens := read_of "expires_in" newTokens in
          let* expiresAt := expiry_of newTokens in
          let* _ :=
            storeTokens serverName
              {| TokenRecord.response :=
                   spread (TokenRecord.response tokenData) newTokens;
                 TokenRecord.obtainedAt := obtainedAt;
                 TokenRecord.expiresAt := expiresAt |} in
          ret newTokens
  end.

(** [tokenData.expiresAt && Date.now() > tokenData.expiresAt - margin]:
    the clock is read only when [expiresAt] is truthy. *)
Definition past (expiresAt : option Z) (margin : Z) : M bool :=
  if truthy expiresAt then
    let* now := Date_now in
    ret (now >? default 0 expiresAt - margin)%Z
  else ret false.

Definition getAccessToken (serverName : string) : M (option string) :=
  let* tokenData := get (fun s => tokens s !! serverName) in
  match tokenData with
  | None => ret None
  | Some tokenData =>
      (* Check if token is expired or about to expire (5 minute buffer) *)
      let* due := past (TokenRecord.expiresAt tokenData) (5 * 60 * 1000) in
      if due then
        if truthy (refresh_token (TokenRecord.response tokenData)) then
          try_catch
            (let* _ := refreshAccessToken serverName in
             let* stored := get (fun s => tokens s !! serverName) in
             ret (stored ≫= fun t => access_token (TokenRecord.response t)))
            (fun error => ret None)
        else
          (* Token expired and no refresh token *)
          let* _ := modify (with_tokens (delete serverName)) in
          ret None
      else ret (access_token (TokenRecord.response tokenData))
  end.

Definition hasValidTokens (serverName : string) : M bool :=
  let* tokenData := get (fun s => tokens s !! serverName) in
  match tokenData with
  | None => ret false
  | Some tokenData =>
      let* expired := past (TokenRecord.expiresAt tokenData) 0 in
      if expired then
        ret (bool_decide
               (refresh_token (TokenRecord.response tokenData) ≠ None))
      else ret true
  end.

(** [this.serverMetadata.get(serverUrl)], for a key that may be
    [undefined] or [null] (under which nothing is ever cached) and a cached
    value that may be [null]: what [metadata?.name] then reads from. *)
Definition cached_metadata (s : State) (serverUrl : option string)
    : option Json :=
  serverUrl ≫= fun url => mjoin (serverMetadata s !! url).

Definition revokeTokens (serverName : string) : M unit :=
  let* tokenData := get (fun s => tokens s !! serverName) in
  let* _ :=
    match tokenData with
    | Some tokenData =>
        (* Attempt to revoke at the OAuth server if endpoint is available *)
        try_catch
          (let* metadata :=
             get (fun s => cached_metadata s
                             (TokenRecord.serverUrl tokenData)) in
           if truthy (metadata ≫= revocation_endpoint) then
             let* _ :=
               fetch
                 {| req_url := js_string (metadata ≫= revocation_endpoint);
                    req_method := "POST";
                    req_headers :=
                      [("Content-Type",
                        "application/x-www-form-urlencoded")];
                    req_body :=
                      Form [("token",
                             js_prop "access_token" access_token
                               (TokenRecord.response tokenData));
                            ("client_id",
                             js_prop "clientId" clientId
                               (TokenRecord.response tokenData))]
                 |} in
             ret tt
           else ret tt)
          (fun error => ret tt)
    | None => ret tt
    end in
  modify (with_tokens (delete serverName)).

Definition cleanupExpiredAuthorizations : M unit :=
  let* now := Date_now in
  modify (with_pendingAuthorizations
            (filter (fun kv => (now <= PendingAuthorization.expiresAt kv.2)%Z))).

Definition getPendingAuthorization (state : string)
    : M (option PendingAuthorization.t) :=
  get (fun s => pendingAuthorizations s !! state).

End OAuthManager.

(** ** MCPClientEnhanced *)

Definition MCP_PROTOCOL_VERSION : string := "2025-03-26".

Module ProbeResult.
Record t := mk {
  requiresAuth : bool;
  wwwAuthenticate : option string;
  error : option string
}.
End ProbeResult.

Section MCPClientEnhanced.

Context (P : Platform).
Import MCPClientEnhanced.

(** Reading and writing the fields of [this]. *)
Definition deref (this : nat) : M t :=
  fun s =>
    match heap s !! this with
    | Some me => (Return me, s)
    | None => (Throw (Error.TypeError "Cannot read properties of undefined"), s)
    end.
Definition assign (this : nat) (f : t -> t) : M unit :=
  modify (with_heap (alter f this)).
Definition fresh_ref : M nat :=
  fun s => (Return (allocated s), allocate s).

Definition normalizeConfig (config : RawConfig.t) : Config.t :=
  {| Config.url := RawConfig.url config;
     Config.transport := default SSE (RawConfig.transport config);
     Config.authType := default NONE (RawConfig.authType config);
     Config.apiKey := RawConfig.apiKey config;
     Config.bearerToken := RawConfig.bearerToken config;
     Config.oauth := default Options.empty (RawConfig.oauth config);
     Config.headers := default ∅ (RawConfig.headers config);
     Config.timeout :=
       default 30000%Z
         (or_else (or_else (RawConfig.timeout config) (MCP_TIMEOUT (env P)))
                  (Some 30000%Z));
     Config.maxRetries :=
       or_else (RawConfig.maxRetries config) (Some 3%Z);
     Config.retryDelay :=
       or_else (RawConfig.retryDelay config) (Some 1000%Z) |}.

(** A normalized configuration read back as a constructor argument. *)
Definition as_raw (c : Config.t) : RawConfig.t :=
  {| RawConfig.url := Config.url c;
     RawConfig.transport := Some (Config.transport c);
     RawConfig.authType := Some (Config.authType c);
     RawConfig.apiKey := Config.apiKey c;
     RawConfig.bearerToken := Config.bearerToken c;
     RawConfig.oauth := Some (Config.oauth c);
     RawConfig.clientId := None;
     RawConfig.clientSecret := None;
     RawConfig.scopes := None;
     RawConfig.headers := Some (Config.headers c);
     RawConfig.timeout := Some (Config.timeout c);
     RawConfig.maxRetries := Config.maxRetries c;
     RawConfig.retryDelay := Config.retryDelay c;
     RawConfig.nulls := [] |}.

(** [new MCPClientEnhanced(name, config)] *)
Definition new_MCPClientEnhanced (name : string) (config : RawConfig.t)
    : M nat :=
  let* this := fresh_ref in
  let* _ :=
    modify (with_heap (insert this
      {| name := name; config := normalizeConfig config; client := None;
         transport := None; connected := false; capabilities := None;
         serverInfo := None; sessionId := None |})) in
  ret this.

Definition set_config (c : Config.t) (me : t) : t :=
  mk (name me) c (client me) (transport me) (connected me)
     (capabilities me) (serverInfo me) (sessionId me).
Definition set_client (c : option nat) (me : t) : t :=
  mk (name me) (config me) c (transport me) (connected me)
     (capabilities me) (serverInfo me) (sessionId me).
Definition set_transport (tr : option Transport) (me : t) : t :=
  mk (name me) (config me) (client me) tr (connected me)
     (capabilities me) (serverInfo me) (sessionId me).
Definition set_connected (b : bool) (me : t) : t :=
  mk (name me) (config me) (client me) (transport me) b
     (capabilities me) (serverInfo me) (sessionId me).
Definition set_serverInfo (i : option string) (me : t) : t :=
  mk (name me) (config me) (client me) (transport me) (connected me)
     (capabilities me) i (sessionId me).
Definition set_capabilities (c : option string) (me : t) : t :=
  mk (name me) (config me) (client me) (transport me) (connected me)
     c (serverInfo me) (sessionId me).
Definition set_sessionId (i : option string) (me : t) : t :=
  mk (name me) (config me) (client me) (transport me) (connected me)
     (capabilities me) (serverInfo me) i.

(** A call into the SDK client [c]: the platform says how it ends. *)
Definition sdk_call (ev : Event) : M ServerSide :=
  fun s =>
    let s' := consumed 0 0 0 1 [ev] s in
    match sdk P (sdk_calls s) with
    | SdkOk r => (Return r, s')
    | SdkThrows e => (Throw e, s')
    end.

Definition buildAuthHeaders (this : nat) : M (gmap string string) :=
  let* me := deref this in
  let headers :=
    <["MCP-Protocol-Version" := MCP_PROTOCOL_VERSION]>
      (Config.headers (config me)) in
  match Config.authType (config me) with
  | API_KEY =>
      if truthy (Config.apiKey (config me))
      then ret (<["X-API-Key" := js_string (Config.apiKey (config me))]>
                  headers)
      else ret headers
  | BEARER_TOKEN =>
      if truthy (Config.bearerToken (config me))
      then ret (<["Authorization" :=
                    "Bearer " +:+ js_string (Config.bearerToken (config me))]>
                  headers)
      else ret headers
  | OAUTH2 | OAUTH2_CLIENT_CREDENTIALS =>
      let* accessToken := getAccessToken P (name me) in
      if truthy accessToken
      then ret (<["Authorization" := "Bearer " +:+ js_string accessToken]>
                  headers)
      else throw (Error.new ("No valid OAuth token available for "
                               +:+ name me +:+ ". Authorization required."))
  | NONE => ret headers
  end.

Definition requiresOAuthAuthorization (this : nat) : M bool :=
  let* me := deref this in
  if bool_decide (Config.authType (config me) ≠ OAUTH2) then ret false
  else
    let* valid := hasValidTokens P (name me) in
    ret (negb valid).

Definition initiateOAuthFlow (this : nat) : M AuthInfo.t :=
  let* me := deref this in
  let oauth := Config.oauth (config me) in
  initiateAuthorizationFlow P (name me) (js_string (Config.url (config me)))
    {| Options.clientId := Options.clientId oauth;
       Options.clientSecret := Options.clientSecret oauth;
       Options.scopes := Options.scopes oauth;
       Options.clientMetadata := Options.clientMetadata oauth;
       Options.metadataUrl := Options.metadataUrl oauth;
       Options.callbackUrl := Options.callbackUrl oauth;
       Options.nulls := [] |}.

Definition performClientCredentialsGrant (this : nat) : M Json :=
  let* me := deref this in
  if bool_decide (Config.authType (config me) ≠ OAUTH2_CLIENT_CREDENTIALS)
  then throw (Error.new
    "Client credentials grant requires oauth2-client-credentials auth type")
  else
    let oauth := Config.oauth (config me) in
    if negb (truthy (Options.clientId oauth))
       || negb (truthy (Options.clientSecret oauth))
    then throw (Error.new
      "Client ID and secret are required for client credentials grant")
    else
      clientCredentialsGrant P (name me) (js_string (Config.url (config me)))
        (js_string (Options.clientId oauth))
        (js_string (Options.clientSecret oauth))
        (default [] (Options.scopes oauth)).

Definition probeForOAuthRequirements (this : nat) : M ProbeResult.t :=
  let* me := deref this in
  try_catch
    (let* response :=
       fetch P {| req_url := js_string (Config.url (config me));
                  req_method := "GET";
                  req_headers :=
                    [("Accept", "text/event-stream");
                     ("MCP-Protocol-Version", MCP_PROTOCOL_VERSION)];
                  req_body := NoBody |} in
     (* Check for 401/403 which indicates auth required *)
     if ((status response =? 401) || (status response =? 403))%Z then
       if truthy (www_authenticate response)
       then ret (ProbeResult.mk true (www_authenticate response) None)
       else ret (ProbeResult.mk true None None)
     else ret (ProbeResult.mk false None None))
    (fun error =>
       ret (ProbeResult.mk false None (Some (Error.message error)))).

Definition createTransport (this : nat) (headers : gmap string string)
    : M unit :=
  let* me := deref this in
  let* url := URL_new P (js_string (Config.url (config me))) in
  match Config.transport (config me) with
  | STREAMABLE_HTTP =>
      assign this (set_transport (Some
        {| transport_url := url;
           transport_headers :=
             <["Accept" := "application/json, text/event-stream"]> headers |}))
  | HTTP_SSE | SSE =>
      assign this (set_transport (Some
        {| transport_url := url; transport_headers := headers |}))
  end.

Definition AuthorizationRequired (message : string) (authInfo : AuthInfo.t)
    (expiresIn : option Z) : Error.t :=
  {| Error.name := "OAuthAuthorizationRequired";
     Error.message := message;
     Error.code := None;
     Error.authorizationUrl := Some (AuthInfo.authorizationUrl authInfo);
     Error.state := Some (AuthInfo.state authInfo);
     Error.expiresIn := expiresIn |}.

(** [error.message?.includes('401') || error.code === 401] *)
Definition is_401 (error : Error.t) : bool :=
  includes "401" (Error.message error)
  || bool_decide (Error.code error = Some 401%Z).

Definition connect (this : nat) : M unit :=
  try_catch
    (let* me := deref this in
     (* Handle OAuth client credentials grant before connecting *)
     let* _ :=
       if bool_decide (Config.authType (config me)
                       = OAUTH2_CLIENT_CREDENTIALS)
       then
         let* valid := hasValidTokens P (name me) in
         if negb valid
         then let* _ := performClientCredentialsGrant this in ret tt
         else ret tt
       else ret tt in
     (* Check if OAuth authorization is required *)
     let* required := requiresOAuthAuthorization this in
     if required then
       let* authInfo := initiateOAuthFlow this in
       throw (AuthorizationRequired
                ("OAuth authorization required for " +:+ name me)
                authInfo (Some (AuthInfo.expiresIn authInfo)))
     else
       (* probe first if no auth configured *)
       let* _ :=
         if bool_decide (Config.authType (config me) = NONE) then
           let* probeResult := probeForOAuthRequirements this in
           if ProbeResult.requiresAuth probeResult then
             (* Upgrade to OAuth2 auth type *)
             let* _ :=
               assign this (fun me =>
                 set_config (Config.set_authType OAUTH2 (config me)) me) in
             let* authInfo := initiateOAuthFlow this in
             throw (AuthorizationRequired
                      ("OAuth authorization required for " +:+ name me)
                      authInfo (Some (AuthInfo.expiresIn authInfo)))
           else ret tt
         else ret tt in
       (* Build authentication headers *)
       let* headers := buildAuthHeaders this in
       (* Create the MCP client *)
       let* client := fresh_ref in
       let* _ := assign this (set_client (Some client)) in
       (* Create transport based on type *)
       let* _ := createTransport this headers in
       (* Connect *)
       let* me := deref this in
       let* transport :=
         match transport me with
         | Some tr => ret tr
         | None => throw (Error.TypeError "transport is null")
         end in
       let* server := sdk_call (EvClientConnect client transport) in
       let* _ := assign this (set_connected true) in
       let* _ := assign this (set_serverInfo (server_version server)) in
       assign this (set_capabilities (server_capabilities server)))
    (fun error =>
       let* me := deref this in
       let authType := Config.authType (config me) in
       (* Handle 401 Unauthorized - trigger OAuth flow if applicable *)
       let* _ :=
         if is_401 error then
           if bool_decide (authType = OAUTH2)
              || bool_decide (authType = OAUTH2_CLIENT_CREDENTIALS)
           then
             (* Clear existing tokens and retry with fresh auth *)
             let* _ := revokeTokens P (name me) in
             if bool_decide (authType = OAUTH2) then
               let* authInfo := initiateOAuthFlow this in
               throw (AuthorizationRequired
                        ("OAuth re-authorization required for " +:+ name me)
                        authInfo None)
             else ret tt
           else ret tt
         else ret tt in
       let* _ := assign this (set_connected false) in
       throw error).

Definition disconnect (this : nat) : M unit :=
  try_catch
    (let* me := deref this in
     let* _ :=
       match client me with
       | Some c => let* _ := sdk_call (EvClientClose c) in ret tt
       | None => ret tt
       end in
     let* _ := assign this (set_connected false) in
     let* _ := assign this (set_client None) in
     let* _ := assign this (set_transport None) in
     assign this (set_sessionId None))
    (fun error => throw error).

Definition isConnected (this : nat) : M bool :=
  let* me := deref this in
  ret (connected me && bool_decide (client me ≠ None)).

Definition ensureConnected (this : nat) : M unit :=
  let* live := isConnected this in
  if negb live then connect this else ret tt.

Definition handleError (this : nat) (error : Error.t) : M unit :=
  (* Handle 401 Unauthorized *)
  if is_401 error then
    let* _ := assign this (set_connected false) in
    let* me := deref this in
    let authType := Config.authType (config me) in
    if bool_decide (authType = OAUTH2)
       || bool_decide (authType = OAUTH2_CLIENT_CREDENTIALS)
    then
      (* Try to refresh token, then reconnect with new token *)
      try_catch
        (let* _ := refreshAccessToken P (name me) in
         connect this)
        (fun refreshError => ret tt)
    else ret tt
  else ret tt.

Definition wrapError (error : Error.t) : Error.t :=
  if String.eqb (Error.name error) "ConnectionError"
     || String.eqb (Error.name error) "MCPError"
     || String.eqb (Error.name error) "OAuthAuthorizationRequired"
  then error
  else {| Error.name := "MCPError";
          Error.message := Error.message error;
          Error.code := Error.code error;
          Error.authorizationUrl := None;
          Error.state := None;
          Error.expiresIn := None |}.

Definition listTools (this : nat) : M (list string) :=
  let* _ := ensureConnected this in
  try_catch
    (let* me := deref this in
     match client me with
     | Some c =>
         let* result := sdk_call (EvClientCall c "listTools") in
         ret (tools result)
     | None => throw (Error.TypeError "Cannot read properties of null")
     end)
    (fun error =>
       let* _ := handleError this error in
       throw (wrapError error)).

End MCPClientEnhanced.

(** ** MCPConnectionManagerEnhanced *)

Module MCPConnectionManagerEnhanced.
Section Manager.

Context (P : Platform).

Definition normalizeConfig (config : RawConfig.t) : Config.t :=
  let oauth := RawConfig.oauth config in
  {| Config.url := RawConfig.url config;
     Config.transport := default SSE (RawConfig.transport config);
     Config.authType := default NONE (RawConfig.authType config);
     Config.apiKey := RawConfig.apiKey config;
     Config.bearerToken := RawConfig.bearerToken config;
     Config.oauth :=
       {| Options.clientId :=
            or_else (oauth ≫= Options.clientId) (RawConfig.clientId config);
          Options.clientSecret :=
            or_else (oauth ≫= Options.clientSecret)
                    (RawConfig.clientSecret config);
          Options.scopes :=
            match oauth ≫= Options.scopes with
            | Some scopes => Some scopes
            | None => Some (default [] (RawConfig.scopes config))
            end;
          Options.clientMetadata := oauth ≫= Options.clientMetadata;
          Options.metadataUrl := oauth ≫= Options.metadataUrl;
          Options.callbackUrl := oauth ≫= Options.callbackUrl;
          Options.nulls := [] |};
     Config.headers := default ∅ (RawConfig.headers config);
     Config.timeout :=
       default 30000%Z
         (or_else (or_else (RawConfig.timeout config) (MCP_TIMEOUT (env P)))
                  (Some 30000%Z));
     Config.maxRetries := None;
     Config.retryDelay := None |}.

Definition registerServer (name : string) (config : RawConfig.t) : M unit :=
  if negb (truthy (RawConfig.url config)) then
    throw (Error.new "Server configuration must include a URL")
  else modify (with_configs (insert name (normalizeConfig config))).

Definition not_registered (serverName : string) : Error.t :=
  Error.new ("MCP server '" +:+ serverName +:+ "' is not registered").

Definition getConnection (serverName : string) : M nat :=
  (* Check if we have an active connection *)
  let* held := get (fun s => connections s !! serverName) in
  let* live :=
    match held with
    | Some client =>
        let* up := isConnected client in
        if up then ret (Some client)
        else
          (* Connection is stale, remove it *)
          let* _ := modify (with_connections (delete serverName)) in
          ret None
    | None => ret None
    end in
  match live with
  | Some client => ret client
  | None =>
      (* Get the server configuration *)
      let* config := get (fun s => configs s !! serverName) in
      match config with
      | None => throw (not_registered serverName)
      | Some config =>
          (* Create new connection with enhanced client *)
          let* client :=
            new_MCPClientEnhanced P serverName (as_raw config) in
          try_catch
            (let* _ := connect P client in
             let* _ := modify (with_connections
                                 (insert serverName client)) in
             ret client)
            (fun error => throw error)
      end
  end.

Definition completeOAuthFlow (code state : string) : M (string * bool) :=
  handleCallback P code state.

Definition disconnect (serverName : string) : M unit :=
  let* client := get (fun s => connections s !! serverName) in
  match client with
  | Some client =>
      let* _ := disconnect P client in
      modify (with_connections (delete serverName))
  | None => ret tt
  end.

Definition removeServer (name : string) : M unit :=
  let* _ := disconnect name in
  (* Revoke any OAuth tokens *)
  let* _ := revokeTokens P name in
  modify (with_configs (delete name)).

Definition requiresOAuthAuthorization (serverName : string) : M bool :=
  let* config := get (fun s => configs s !! serverName) in
  match config with
  | None => ret false
  | Some config =>
      if bool_decide (Config.authType config ≠ OAUTH2) then ret false
      else
        let* valid := hasValidTokens P serverName in
        ret (negb valid)
  end.

Definition revokeOAuthTokens (serverName : string) : M unit :=
  let* _ := revokeTokens P serverName in
  (* Disconnect if connected *)
  disconnect serverName.

End Manager.
End MCPConnectionManagerEnhanced.

(** ** A concrete platform for the worked examples *)

Module Demo.

(** Reads [scheme://host/path]; enough for the URLs of the examples. *)
Fixpoint until_slash (s : string) : string * string :=
  match s with
  | EmptyString => (EmptyString, EmptyString)
  | String c rest =>
      if Ascii.eqb c "/" then (EmptyString, s)
      else let (a, b) := until_slash rest in (String c a, b)
  end.

Definition parse_URL (s : string) : option URL.t :=
  match index 0 "://" s with
  | Some i =>
      if (0 <? i)%nat then
        let (host, path) :=
          until_slash (substring (i + 3) (String.length s) s) in
        if truthy host then
          Some (URL.mk (substring 0 (i + 1) s) host
                       (if truthy path then path else "/") [])
        else None
      else None
  | None => None
  end.

Definition print_URL (u : URL.t) : string :=
  URL.protocol u +:+ "//" +:+ URL.host u +:+ URL.pathname u
    +:+ match URL.searchParams u with
        | [] => ""
        | ps => "?" +:+ String.concat "&"
                  (map (fun kv => fst kv +:+ "=" +:+ snd kv) ps)
        end.

Definition no_env : ProcessEnv :=
  {| APP_URL := None; HEROKU_APP_URL := None; HEROKU_APP_NAME := None;
     PORT := None; MCP_TIMEOUT := None |}.

Definition respond (st : Z) (body : option Json) : FetchOutcome :=
  Resolved {| status := st; www_authenticate := None;
              json := match body with
                      | Some j => JsonValue j
                      | None => Unparseable
                      end;
              text := "" |}.

Definition server_side : ServerSide :=
  {| server_version := Some "demo/1.0"; server_capabilities := Some "tools";
     tools := ["echo"] |}.

(** A platform whose clock advances one millisecond per read from [t0],
    with the given network and SDK behaviour. *)
Definition platform (t0 : Z) (net : nat -> Request -> FetchOutcome)
    (sdk : nat -> SdkOutcome) : Platform :=
  {| new_URL := parse_URL; URL_toString := print_URL;
     env := no_env; clock := fun n => (t0 + Z.of_nat n)%Z; network := net;
     entropy := fun n => Sha256.byte_of_Z (Z.of_nat (7 * n + 1));
     sdk := sdk |}.

Definition token_json (access : string) (refresh : option string)
    (lifetime : option Z) : Json :=
  {| issuer := None; authorization_endpoint := None; token_endpoint := None;
     registration_endpoint := None; revocation_endpoint := None;
     response_types_supported := None; grant_types_supported := None;
     code_challenge_methods_supported := None;
     token_endpoint_auth_methods_supported := None; client_id := None;
     access_token := Some access; refresh_token := refresh;
     token_type := Some "Bearer"; scope := None; expires_in := lifetime;
     serverUrl := None; clientId := None; clientSecret := None;
     grantType := None; nulls := [] |}.

Definition token_record (access : string) (refresh : option string)
    (expiry : option Z) : TokenRecord.t :=
  {| TokenRecord.response :=
       set_record_fields "https://mcp.example.com/v1/sse" "client-1" None
         (token_json access refresh None);
     TokenRecord.obtainedAt := 0;
     TokenRecord.expiresAt := expiry |}.

End Demo.


(** ** Worked runs *)

Module Scenario.

Import MCPConnectionManagerEnhanced.

Definition server : string := "https://mcp.example.com/v1/sse".

(** Every request is answered 404. *)
Definition not_found (n : nat) (r : Request) : FetchOutcome :=
  Demo.respond 404 None.

(** Every request is answered 200 with the empty JSON object. *)
Definition empty_objects (n : nat) (r : Request) : FetchOutcome :=
  Demo.respond 200 (Some empty_object).

(** Only the token endpoint answers: a bearer token valid for an hour. *)
Definition token_endpoint_only (n : nat) (r : Request) : FetchOutcome :=
  if String.eqb (req_url r) "https://mcp.example.com/token"
  then Demo.respond 200 (Some (Demo.token_json "at-2" None (Some 3600%Z)))
  else Demo.respond 404 None.

Definition sdk_fine (n : nat) : SdkOutcome := SdkOk Demo.server_side.

Definition offline : Platform := Demo.platform 1000 not_found sdk_fine.
Definition lenient : Platform := Demo.platform 1000 empty_objects sdk_fine.
Definition issuing : Platform :=
  Demo.platform 1000 token_endpoint_only sdk_fine.

(** A record that expires at 2000 ms, with a refresh token. *)
Definition refreshable : TokenRecord.t :=
  Demo.token_record "at-1" (Some "rt-1") (Some 2000%Z).
Definition holding_refreshable : State :=
  with_tokens (insert "crm" refreshable) initial.

(** A record that expires at 2000 ms, without refresh token. *)
Definition short_lived : TokenRecord.t :=
  Demo.token_record "at-1" None (Some 2000%Z).
Definition holding_short_lived : State :=
  with_tokens (insert "crm" short_lived) initial.

Definition with_client_id : Options.t :=
  Options.mk (Some "client-1") None None None None None [].

Definition flow : Outcome AuthInfo.t * State :=
  initiateAuthorizationFlow offline "crm" server with_client_id initial.

Definition flow_info : AuthInfo.t :=
  {| AuthInfo.authorizationUrl :=
       "https://mcp.example.com/authorize?response_type=code&client_id=client-1&redirect_uri=http://localhost:3000/oauth/callback&state=4ejv9v0ECxIZICcuNTxDSg&code_challenge=VyPBtyVuugUHgdQvfU_ZYgHEt112c7GoL_vLptwuHCM&code_challenge_method=S256";
     AuthInfo.state := "4ejv9v0ECxIZICcuNTxDSg";
     AuthInfo.expiresIn := 600 |}.

(** An authorization is pending under the state [st-1]. *)
Definition awaiting_callback : State :=
  with_pendingAuthorizations (insert "st-1"
    {| PendingAuthorization.serverName := "crm";
       PendingAuthorization.serverUrl := server;
       PendingAuthorization.codeVerifier := "verifier";
       PendingAuthorization.clientId := "client-1";
       PendingAuthorization.clientSecret := None;
       PendingAuthorization.scopes := [];
       PendingAuthorization.redirectUri :=
         "http://localhost:3000/oauth/callback";
       PendingAuthorization.createdAt := 900;
       PendingAuthorization.expiresAt := 600900 |}) initial.

Definition raw (url : string) (authType : option AuthType)
    (oauth : option Options.t) : RawConfig.t :=
  {| RawConfig.url := Some url; RawConfig.transport := None;
     RawConfig.authType := authType; RawConfig.apiKey := None;
     RawConfig.bearerToken := None; RawConfig.oauth := oauth;
     RawConfig.clientId := None; RawConfig.clientSecret := None;
     RawConfig.scopes := None; RawConfig.headers := None;
     RawConfig.timeout := None; RawConfig.maxRetries := None;
     RawConfig.retryDelay := None; RawConfig.nulls := [] |}.

(** The server rejects the transport with a 401. *)
Definition unauthorized : Error.t :=
  Error.new "SSE error: Non-200 status code (401)".
Definition rejecting : Platform :=
  Demo.platform 1000 not_found (fun _ => SdkThrows unauthorized).

(** A stored token that does not expire. *)
Definition holding_token : State :=
  with_tokens (insert "crm" (Demo.token_record "at-1" None None)) initial.

(** [new MCPClientEnhanced(name, config).connect()] *)
Definition connect_new (P : Platform) (name : string) (config : RawConfig.t)
    : M unit :=
  let* client := new_MCPClientEnhanced P name config in
  connect P client.

(** The second SDK call (the first [listTools]) fails with a 401; the
    connection attempts succeed. The probe of the server is answered 200. *)
Definition flaky : Platform :=
  Demo.platform 1000 (fun _ _ => Demo.respond 200 None)
    (fun n => match n with
              | 1%nat => SdkThrows (Error.new "Unauthorized (401)")
              | _ => SdkOk Demo.server_side
              end).

(** Register a server without authentication, connect, have a call fail
    with a 401, and ask for the connection again. *)
Definition reconnect_after_401 : M (nat * nat) :=
  let* _ :=
    registerServer flaky "files"
      (raw "https://files.example.com/sse" None None) in
  let* first := getConnection flaky "files" in
  let* _ :=
    try_catch (let* _ := listTools flaky first in ret tt)
              (fun error => ret tt) in
  let* second := getConnection flaky "files" in
  ret (first, second).

(** The SDK clients that were connected and those that were closed,
    oldest first. *)
Definition connected_clients (s : State) : list nat :=
  rev (omap (fun ev => match ev with
                       | EvClientConnect c _ => Some c
                       | _ => None
                       end) (events s)).
Definition closed_clients (s : State) : list nat :=
  rev (omap (fun ev => match ev with
                       | EvClientClose c => Some c
                       | _ => None
                       end) (events s)).

End Scenario.

(** ** The statements of the specification

    What the properties below speak about, and the sentences of the
    specification that the code does not satisfy as they are worded. *)

Section Statements.

Context (P : Platform).

(** A finite expiry that is at most five minutes away, or past. *)
Definition due (now : Z) (tokenData : TokenRecord.t) : Prop :=
  exists e, TokenRecord.expiresAt tokenData = Some e /\ e <> 0%Z
            /\ (now > e - 5 * 60 * 1000)%Z.

(** Whether the token endpoint answers the refresh request of
    [tokenData], sent from state [s], with a status outside 200-299. *)
Definition refresh_refused (tokenData : TokenRecord.t) (s : State) : bool :=
  match discoverServerMetadata_of P (TokenRecord.serverUrl tokenData) s with
  | (Return metadata, s') =>
      match network P (fetches s')
              (post_form metadata (refresh_tokenRequest tokenData)) with
      | Resolved r => negb (ok r)
      | Rejected _ => false
      end
  | (Throw _, _) => false
  end.

(** C1, as the specification words it: a failed refresh leaves the stored
    record as it was. *)
Definition refresh_failure_keeps_record (serverName : string) (s : State)
    : Prop :=
  forall tokenData err s',
    tokens s !! serverName = Some tokenData ->
    due (clock P (reads s)) tokenData ->
    truthy (refresh_token (TokenRecord.response tokenData)) = true ->
    refreshAccessToken P serverName (consumed 1 0 0 0 [] s)
    = (Throw err, s') ->
    getAccessToken P serverName s = (Return None, s')
    /\ tokens s' !! serverName = Some tokenData.

(** The record is the body of a successful response of the network. *)
Definition from_response (metadata : Json) : Prop :=
  exists n req r,
    network P n req = Resolved r /\ ok r = true
    /\ json r = JsonValue metadata.

(** Both endpoints are present and not empty. *)
Definition has_endpoints (metadata : Json) : Prop :=
  truthy (authorization_endpoint metadata) = true
  /\ truthy (token_endpoint metadata) = true.

(** C3, as the specification words it. *)
Definition discovery_always_usable (serverUrl : string)
    (customMetadataUrl : option string) (s : State) : Prop :=
  exists metadata s',
    discoverServerMetadata P serverUrl customMetadataUrl s
    = (Return metadata, s')
    /\ is_Some (authorization_endpoint metadata)
    /\ is_Some (token_endpoint metadata)
    /\ serverMetadata s' !! serverUrl = Some (Some metadata).

(** C6, as the specification words it. *)
Definition expiry_is_creation_plus_600s (serverName serverUrl : string)
    (options : Options.t) (s : State) : Prop :=
  forall info s',
    initiateAuthorizationFlow P serverName serverUrl options s
    = (Return info, s') ->
    exists pending,
      pendingAuthorizations s' !! AuthInfo.state info = Some pending
      /\ PendingAuthorization.expiresAt pending
         = (PendingAuthorization.createdAt pending + 600 * 1000)%Z
      /\ AuthInfo.expiresIn info = 600%Z.

(** The record a successful exchange leaves: either without expiry, or
    expiring one declared lifetime after the last reading of the clock. *)
Definition freshly_stored (serverName : string) (s : State) : Prop :=
  exists tokenData,
    tokens s !! serverName = Some tokenData
    /\ (TokenRecord.expiresAt tokenData = None
        \/ exists n lifetime,
             reads s = S n
             /\ expires_in (TokenRecord.response tokenData) = Some lifetime
             /\ TokenRecord.expiresAt tokenData
                = Some (clock P n + lifetime * 1000)%Z).

(** The lifetime declared for the stored token has not run out between
    the last reading of the clock and the next one. *)
Definition lifetime_not_elapsed (serverName : string) (s : State) : Prop :=
  forall tokenData lifetime,
    tokens s !! serverName = Some tokenData ->
    expires_in (TokenRecord.response tokenData) = Some lifetime ->
    (clock P (reads s) <= clock P (pred (reads s)) + lifetime * 1000)%Z.

(** C8, as the specification words it: [hasValidTokens] answers true
    right after a successful code exchange, and right after a successful
    client-credentials grant. *)
Definition valid_right_after_exchange (serverName : string) : Prop :=
  forall code state s success s',
    handleCallback P code state s = (Return (serverName, success), s') ->
    (hasValidTokens P serverName s').1 = Return true.

Definition valid_right_after_grant (serverName : string) : Prop :=
  forall serverUrl clientId clientSecret scopes s granted s',
    clientCredentialsGrant P serverName serverUrl clientId clientSecret
      scopes s = (Return granted, s') ->
    (hasValidTokens P serverName s').1 = Return true.

(** The first candidate that is present and not empty. *)
Fixpoint first_nonempty (candidates : list (option string))
    (otherwise : string) : string :=
  match candidates with
  | [] => otherwise
  | Some c :: rest =>
      if String.eqb c "" then first_nonempty rest otherwise else c
  | None :: rest => first_nonempty rest otherwise
  end.

(** The platform domain for an application name. *)
Definition herokuapp (appName : option string) : option string :=
  match appName with
  | Some n =>
      if String.eqb n "" then None
      else Some ("https://" +:+ n +:+ ".herokuapp.com")
  | None => None
  end.

Definition localhost (port : option string) : string :=
  "http://localhost:" +:+ first_nonempty [port] "3000".

(** The base chosen among the settings of the environment. *)
Definition environment_base (e : ProcessEnv) : string :=
  first_nonempty [APP_URL e; HEROKU_APP_URL e; herokuapp (HEROKU_APP_NAME e)]
                 (localhost (PORT e)).

(** C5, as the specification words it: the caller's URL is the first of
    the candidate bases, and every base is stripped and suffixed. *)
Definition callback_from_any_base (customCallbackUrl : option string)
    : Prop :=
  getCallbackUrl P customCallbackUrl
  = strip_trailing_slash
      (first_nonempty [customCallbackUrl] (environment_base (env P)))
    +:+ "/oauth/callback".

End Statements.

(** ** More of the code: token status, server updates, middleware *)

Module TokenStatus.
(** [isExpired] is the value of [expiresAt && Date.now() > expiresAt]: the
    falsy [expiresAt] itself, or the comparison. *)
Inductive expired :=
| NoExpiry (expiresAt : option Z)
| Compared (late : bool).
#[global] Instance truthy_expired : Truthy expired :=
  fun v => match v with NoExpiry _ => false | Compared late => late end.
Record details := mkDetails {
  hasAccessToken : bool;
  hasRefreshToken : bool;
  isExpired : expired;
  expiresAt : option string;
  grantType : string
}.
(** [more = None] is the object with the single property
    [authenticated: false]. *)
Record t := mk {
  authenticated : bool;
  more : option details
}.
End TokenStatus.

(** What a route or middleware does with the request. *)
Module Reply.
Record json := mkJson {
  error : string;
  message : string;
  details : option string;
  code : option Z;
  authorizationUrl : option string;
  state : option string;
  expiresIn : option Z
}.
Inductive t :=
| Next
| Status (status : Z) (body : json).
End Reply.

Section MoreCode.

Context (P : Platform).

(** [new Date(ms).toISOString()], which throws a RangeError outside the
    range of dates. *)
Variable toISOString : Z -> option string.

Definition getTokenStatus (serverName : string) : M TokenStatus.t :=
  let* tokenData := get (fun s => tokens s !! serverName) in
  match tokenData with
  | None => ret (TokenStatus.mk false None)
  | Some tokenData =>
      let* isExpired :=
        if truthy (TokenRecord.expiresAt tokenData) then
          let* now := Date_now P in
          ret (TokenStatus.Compared
                 (now >? default 0%Z (TokenRecord.expiresAt tokenData))%Z)
        else ret (TokenStatus.NoExpiry (TokenRecord.expiresAt tokenData)) in
      let canRefresh :=
        truthy (refresh_token (TokenRecord.response tokenData)) in
      let* expiresAt :=
        if truthy (TokenRecord.expiresAt tokenData) then
          match toISOString (default 0%Z (TokenRecord.expiresAt tokenData))
          with
          | Some iso => ret (Some iso)
          | None => throw (Error.mk "RangeError" "Invalid time value"
                             None None None None)
          end
        else ret None in
      ret {| TokenStatus.authenticated := negb (truthy isExpired) || canRefresh;
             TokenStatus.more :=
               Some {| TokenStatus.hasAccessToken :=
                         truthy (access_token (TokenRecord.response tokenData));
                       TokenStatus.hasRefreshToken := canRefresh;
                       TokenStatus.isExpired := isExpired;
                       TokenStatus.expiresAt := expiresAt;
                       TokenStatus.grantType :=
                         js_string (or_else (TokenRecord.grantType tokenData)
                                            (Some "authorization_code")) |} |}
  end.




(** The manager's [performClientCredentialsGrant(serverName)]. *)
Definition manager_performClientCredentialsGrant (serverName : string)
    : M Json :=
  let* config := get (fun s => configs s !! serverName) in
  match config with
  | None => throw (MCPConnectionManagerEnhanced.not_registered serverName)
  | Some config =>
      let oauth := Config.oauth config in
      if negb (truthy (Options.clientId oauth))
         || negb (truthy (Options.clientSecret oauth))
      then throw (Error.new
        "Client ID and secret are required for client credentials grant")
      else
        clientCredentialsGrant P serverName (js_string (Config.url config))
          (js_string (Options.clientId oauth))
          (js_string (Options.clientSecret oauth))
          (default [] (Options.scopes oauth))
  end.

(** [authMiddleware]: [apiKey] is [process.env.API_KEY]; the two arguments
    after it are the [x-api-key] and [authorization] request headers. *)
Definition authMiddleware (apiKey providedApiKey authHeader : option string)
    : Reply.t :=
  (* If no API key is configured, skip authentication (development mode) *)
  if negb (truthy apiKey) then Reply.Next
  else
    let bearerToken :=
      match authHeader with
      | Some h =>
          if String.prefix "Bearer " h
          then Some (substring 7 (String.length h - 7) h)
          else None
      | None => None
      end in
    if bool_decide (providedApiKey = apiKey)
       || bool_decide (bearerToken = apiKey)
    then Reply.Next
    else
      Reply.Status 401
        (Reply.mkJson "Unauthorized"
           "Invalid or missing API key. Provide X-API-Key header or Authorization Bearer token."
           None None None None None).




End MoreCode.

(** [url.searchParams.get(k)]: the value of the first pair named [k]. *)
Definition searchParam (k : string) (u : URL.t) : option string :=
  snd <$> List.find (fun p => String.eqb k (fst p)) (URL.searchParams u).

(** [post m s Q] for a property of the state alone, kept by [m]. *)
Definition keeps {A B} (f : State -> B) (m : M A) : Prop :=
  forall s, f (m s).2 = f s.

(** What no method of [OAuthManager] changes: [f] does not depend on the
    four maps of the manager nor on how far the platform was consumed. *)
Record beside_oauth {B} (f : State -> B) : Prop := {
  beside_consumed : forall r n d k evs s, f (consumed r n d k evs s) = f s;
  beside_pending : forall g s, f (with_pendingAuthorizations g s) = f s;
  beside_tokens : forall g s, f (with_tokens g s) = f s;
  beside_metadata : forall g s, f (with_serverMetadata g s) = f s;
  beside_registrations : forall g s, f (with_clientRegistrations g s) = f s
}.

(** What no method of a client changes either: [f] does not depend on the
    objects. *)
Record beside_clients {B} (f : State -> B) : Prop := {
  beside_oauth_part : beside_oauth f;
  beside_heap : forall g s, f (with_heap g s) = f s;
  beside_allocate : forall s, f (allocate s) = f s
}.


(** The request for a discovery document. *)
Definition discovery_request (metadataUrl : string) : Request :=
  {| req_url := metadataUrl; req_method := "GET";
     req_headers := [("Accept", "application/json");
                     ("MCP-Protocol-Version", "2025-03-26")];
     req_body := NoBody |}.

(** Some request is answered with a success status and this body. *)
Definition answered (P : Platform) (body : Parsed) : Prop :=
  exists n req r,
    network P n req = Resolved r /\ ok r = true /\ json r = body.

(** The maps of the OAuth manager other than the metadata cache. *)
Definition oauth_maps (s : State) :=
  (pendingAuthorizations s, tokens s, clientRegistrations s).

(** The revocation request for a record, to an endpoint. *)
Definition revocation_request (endpoint : string) (tokenData : TokenRecord.t)
    : Request :=
  {| req_url := endpoint; req_method := "POST";
     req_headers := [("Content-Type", "application/x-www-form-urlencoded")];
     req_body :=
       Form [("token",
              js_prop "access_token" access_token
                (TokenRecord.response tokenData));
             ("client_id",
              js_prop "clientId" clientId (TokenRecord.response tokenData))]
  |}.

(** The revocation endpoint the metadata cache holds for the server of a
    stored record, if any. *)
Definition cached_revocation_endpoint (serverName : string) (s : State)
    : option (string * TokenRecord.t) :=
  match tokens s !! serverName with
  | Some tokenData =>
      match cached_metadata s (TokenRecord.serverUrl tokenData)
            ≫= revocation_endpoint with
      | Some endpoint =>
          if String.eqb endpoint "" then None else Some (endpoint, tokenData)
      | None => None
      end
  | None => None
  end.

(** The objects and the next free reference. *)
Definition objects (s : State) := (heap s, allocated s).

(** The names under which [wrapError] lets an error through. *)
Definition known_error_names : list string :=
  ["ConnectionError"; "MCPError"; "OAuthAuthorizationRequired"].


(** [this.connected] of the object at a reference, if there is one. *)
Definition connected_flag (this : nat) (s : State) : option bool :=
  MCPClientEnhanced.connected <$> heap s !! this.

(** The object after a [disconnect] that went through. *)
Definition cleared (me : MCPClientEnhanced.t) : MCPClientEnhanced.t :=
  set_sessionId None
    (set_transport None (set_client None (set_connected false me))).

(** The request by which a client probes its server. *)
Definition probe_request (me : MCPClientEnhanced.t) : Request :=
  {| req_url := js_string (Config.url (MCPClientEnhanced.config me));
     req_method := "GET";
     req_headers := [("Accept", "text/event-stream");
                     ("MCP-Protocol-Version", MCP_PROTOCOL_VERSION)];
     req_body := NoBody |}.

(** What the client objects and the connection manager hold. *)
Definition registry (s : State) :=
  (heap s, allocated s, connections s, configs s).

(** What the connection manager and the OAuth manager hold. *)
Definition manager_maps (s : State) :=
  (connections s, configs s, tokens s).

(** The configuration a client works with, for a registered one. *)
Definition client_config (P : Platform) (registered : Config.t) : Config.t :=
  normalizeConfig P (as_raw registered).

(** What the connection manager alone holds. *)
Definition manager_side (s : State) := (connections s, configs s).

(** ** More worked runs *)

Module Runs.

Import Scenario.

(** A record whose expiry is far away. *)
Definition holding_fresh : State :=
  with_tokens (insert "crm" (Demo.token_record "at-1" None (Some 1000000%Z)))
    initial.

(** The clock is past the expiry of the pending authorization. *)
Definition late : Platform := Demo.platform 700000 not_found sdk_fine.

Definition pending_crm : PendingAuthorization.t :=
  {| PendingAuthorization.serverName := "crm";
     PendingAuthorization.serverUrl := server;
     PendingAuthorization.codeVerifier := "verifier";
     PendingAuthorization.clientId := "client-1";
     PendingAuthorization.clientSecret := None;
     PendingAuthorization.scopes := [];
     PendingAuthorization.redirectUri :=
       "http://localhost:3000/oauth/callback";
     PendingAuthorization.createdAt := 900;
     PendingAuthorization.expiresAt := 600900 |}.

Definition server_url : URL.t :=
  URL.mk "https:" "mcp.example.com" "/v1/sse" [].

(** The server answers every request with 401. *)
Definition guarded : Platform :=
  Demo.platform 1000 (fun _ _ => Demo.respond 401 None) sdk_fine.

Definition files_config : Config.t :=
  normalizeConfig offline (raw "https://files.example.com/sse" None None).

(** A client of the server [files], connected through the SDK client 1,
    and the same client before it connects. *)
Definition files_client : MCPClientEnhanced.t :=
  {| MCPClientEnhanced.name := "files";
     MCPClientEnhanced.config := files_config;
     MCPClientEnhanced.client := Some 1%nat;
     MCPClientEnhanced.transport := None;
     MCPClientEnhanced.connected := true;
     MCPClientEnhanced.capabilities := None;
     MCPClientEnhanced.serverInfo := None;
     MCPClientEnhanced.sessionId := None |}.
Definition idle_client : MCPClientEnhanced.t :=
  {| MCPClientEnhanced.name := "files";
     MCPClientEnhanced.config := files_config;
     MCPClientEnhanced.client := None;
     MCPClientEnhanced.transport := None;
     MCPClientEnhanced.connected := false;
     MCPClientEnhanced.capabilities := None;
     MCPClientEnhanced.serverInfo := None;
     MCPClientEnhanced.sessionId := None |}.

(** The object 0 is that client; two references are in use. *)
Definition one_connected : State :=
  with_heap (insert 0%nat files_client) (allocate (allocate initial)).
Definition one_idle : State :=
  with_heap (insert 0%nat idle_client) (allocate initial).

(** The manager holds the connected client under its name. *)
Definition held : State :=
  with_connections (insert "files" 0%nat)
    (with_configs (insert "files" files_config) one_connected).

(** A client with the OAuth strategy, and a stored token that does not
    expire. *)
Definition oauth_client : MCPClientEnhanced.t :=
  {| MCPClientEnhanced.name := "crm";
     MCPClientEnhanced.config :=
       normalizeConfig offline
         (raw server (Some OAUTH2) (Some with_client_id));
     MCPClientEnhanced.client := None;
     MCPClientEnhanced.transport := None;
     MCPClientEnhanced.connected := false;
     MCPClientEnhanced.capabilities := None;
     MCPClientEnhanced.serverInfo := None;
     MCPClientEnhanced.sessionId := None |}.
Definition authorized : State :=
  with_heap (insert 0%nat oauth_client) (allocate holding_token).


(** The token endpoint answers a refresh with [access_token: null]. *)
Definition null_access_json : Json :=
  {| issuer := None; authorization_endpoint := None; token_endpoint := None;
     registration_endpoint := None; revocation_endpoint := None;
     response_types_supported := None; grant_types_supported := None;
     code_challenge_methods_supported := None;
     token_endpoint_auth_methods_supported := None; client_id := None;
     access_token := None; refresh_token := None;
     token_type := Some "Bearer"; scope := None; expires_in := Some 3600%Z;
     serverUrl := None; clientId := None; clientSecret := None;
     grantType := None; nulls := ["access_token"] |}.

Definition token_endpoint_answers (body : Json) (n : nat) (r : Request)
    : FetchOutcome :=
  if String.eqb (req_url r) "https://mcp.example.com/token"
  then Demo.respond 200 (Some body)
  else Demo.respond 404 None.

(** The token endpoint issues a token whose declared lifetime is -1 s,
    without refresh token. *)
Definition stale : Platform :=
  Demo.platform 1000
    (token_endpoint_answers (Demo.token_json "at-2" None (Some (-1)%Z)))
    sdk_fine.

(** Every request is answered 200 with the body [null]. *)
Definition null_bodies : Platform :=
  Demo.platform 1000
    (fun _ _ => Resolved {| status := 200; www_authenticate := None;
                            json := JsonNull; text := "null" |})
    sdk_fine.

Definition null_access : Platform :=
  Demo.platform 1000 (token_endpoint_answers null_access_json) sdk_fine.

End Runs.

(** * Properties *)

(** ** Checks of the embedding against known values *)

Example sha256_abc :
  hex (Sha256.sha256 (list_byte_of_string "abc")) =
  [0xba; 0x78; 0x16; 0xbf; 0x8f; 0x01; 0xcf; 0xea; 0x41; 0x41; 0x40; 0xde;
   0x5d; 0xae; 0x22; 0x23; 0xb0; 0x03; 0x61; 0xa3; 0x96; 0x17; 0x7a; 0x9c;
   0xb4; 0x10; 0xff; 0x61; 0xf2; 0x00; 0x15; 0xad]%N.
Proof. vm_compute. reflexivity. Qed.

(** The empty message. *)
Example sha256_empty :
  hex (Sha256.sha256 []) =
  [0xe3; 0xb0; 0xc4; 0x42; 0x98; 0xfc; 0x1c; 0x14; 0x9a; 0xfb; 0xf4; 0xc8;
   0x99; 0x6f; 0xb9; 0x24; 0x27; 0xae; 0x41; 0xe4; 0x64; 0x9b; 0x93; 0x4c;
   0xa4; 0x95; 0x99; 0x1b; 0x78; 0x52; 0xb8; 0x55]%N.
Proof. vm_compute. reflexivity. Qed.

(** A message that needs two blocks (FIPS 180-4 test vector). *)
Example sha256_two_blocks :
  hex (Sha256.sha256 (list_byte_of_string
         "abcdbcdecdefdefgefghfghighijhijkijkljklmklmnlmnomnopnopq")) =
  [0x24; 0x8d; 0x6a; 0x61; 0xd2; 0x06; 0x38; 0xb8; 0xe5; 0xc0; 0x26; 0x93;
   0x0c; 0x3e; 0x60; 0x39; 0xa3; 0x3c; 0xe4; 0x59; 0x64; 0xff; 0x21; 0x67;
   0xf6; 0xec; 0xed; 0xd4; 0x19; 0xdb; 0x06; 0xc1]%N.
Proof. vm_compute. reflexivity. Qed.

(** The worked example of RFC 7636, appendix B. *)
Example rfc7636_appendix_B :
  generateCodeChallenge "dBjftJeZ4CVP-mB92K27uhbUJU1p1r_wW1gFWFOEjXk"
  = "E9Melhoa2OwvFrEMTJguCHaoeK1t8URWbuGJSstw-cM".
Proof. vm_compute. reflexivity. Qed.

Example exec_all_bearer :
  exec_all 80 (list_ascii_of_string
     (String.concat (String dquote "")
        ["Bearer realm="; "https://as.example"; ", authorization_uri=";
         "https://as.example/auth"; ""]))
  = [("realm", "https://as.example");
     ("authorization_uri", "https://as.example/auth")].
Proof. reflexivity. Qed.

Example path_prefix_sse : path_prefix "/v1/sse" = "/v1".
Proof. reflexivity. Qed.
Example path_prefix_top : path_prefix "/sse" = "".
Proof. reflexivity. Qed.
Example strip_once : strip_trailing_slash "https://a.example//" = "https://a.example/".
Proof. reflexivity. Qed.
Example includes_401 : includes "401" "SSE error: Non-200 status code (401)" = true.
Proof. reflexivity. Qed.
Example demo_url :
  Demo.parse_URL "https://mcp.example.com/v1/sse"
  = Some (URL.mk "https:" "mcp.example.com" "/v1/sse" []).
Proof. reflexivity. Qed.


(** ** Reasoning about computations *)

Lemma post_ret {A} (a : A) s Q : Q (Return a) s -> post (ret a) s Q.
Proof. exact id. Qed.

Lemma post_throw {A} e s (Q : Outcome A -> State -> Prop) :
  Q (Throw e) s -> post (throw e) s Q.
Proof. exact id. Qed.

Lemma post_get {A} (f : State -> A) s Q : Q (Return (f s)) s -> post (get f) s Q.
Proof. exact id. Qed.

Lemma post_modify f s Q : Q (Return tt) (f s) -> post (modify f) s Q.
Proof. exact id. Qed.

Lemma post_bind {A B} (m : M A) (k : A -> M B) s Q :
  post m s (fun o s' =>
              match o with
              | Return a => post (k a) s' Q
              | Throw e => Q (Throw e) s'
              end) ->
  post (bind m k) s Q.
Proof. unfold post, bind. destruct (m s) as [[a|e] s']; exact id. Qed.

Lemma post_try_catch {A} (m : M A) h s Q :
  post m s (fun o s' =>
              match o with
              | Return a => Q (Return a) s'
              | Throw e => post (h e) s' Q
              end) ->
  post (try_catch m h) s Q.
Proof. unfold post, try_catch. destruct (m s) as [[a|e] s']; exact id. Qed.

Lemma post_weaken {A} (m : M A) s (Q Q' : Outcome A -> State -> Prop) :
  post m s Q -> (forall o s', Q o s' -> Q' o s') -> post m s Q'.
Proof. unfold post. auto. Qed.

Lemma post_any {A} (m : M A) s (Q : Outcome A -> State -> Prop) :
  (forall o s', Q o s') -> post m s Q.
Proof. unfold post. auto. Qed.

Lemma post_frame {A B} (f : State -> B) (m : M A) s
    (Q : Outcome A -> State -> Prop) :
  f (m s).2 = f s -> (forall o s', f s' = f s -> Q o s') -> post m s Q.
Proof. unfold post. auto. Qed.

Lemma post_cases {A} (m : M A) s (Q : Outcome A -> State -> Prop) :
  (forall o s', m s = (o, s') -> Q o s') -> post m s Q.
Proof. unfold post. intros H. apply H. now destruct (m s). Qed.

Lemma post_run {A} (m : M A) s o s' Q : post m s Q -> m s = (o, s') -> Q o s'.
Proof. unfold post. intros H E. rewrite E in H. exact H. Qed.

(** One step of symbolic execution of the goal [post m s Q]. *)
Ltac step :=
  cbv beta iota;
  lazymatch goal with
  | |- post (bind _ _) _ _ => apply post_bind
  | |- post (try_catch _ _) _ _ => apply post_try_catch
  | |- post (ret _) _ _ => apply post_ret
  | |- post (throw _) _ _ => apply post_throw
  | |- post (get _) _ _ => apply post_get
  | |- post (modify _) _ _ => apply post_modify
  | |- post (storeTokens _ _) _ _ => apply post_modify
  | |- post (if ?b then _ else _) _ _ => destruct b eqn:?
  | |- post (match ?x with _ => _ end) _ _ => destruct x eqn:?
  end.

(** Run [m] to an arbitrary outcome and go on from there. *)
Ltac skip_over :=
  lazymatch goal with
  | |- post (bind ?m _) ?s _ =>
      apply post_bind; apply post_any; intros [?|?] ?
  end.

(** ** Buffers *)

Ltac Zify.zify_post_hook ::= Z.to_euclidean_division_equations.

Lemma value_digit v : (v < 64)%N -> Base64Url.value (Base64Url.digit v) = Some v.
Proof.
  intros Hv. rewrite <- (N2Nat.id v).
  assert (N.to_nat v < 64)%nat as Hn by lia. clear Hv.
  generalize dependent (N.to_nat v). intros n Hn.
  do 64 (destruct n as [|n]; [reflexivity|]). lia.
Qed.

Lemma byte_below b : (Byte.to_N b < 256)%N.
Proof. pose proof (Byte.to_N_bounded b). lia. Qed.

(** Induction on buffers three bytes at a time. *)
Lemma buffer_ind (Q : list byte -> Prop) :
  Q [] -> (forall a, Q [a]) -> (forall a b, Q [a; b]) ->
  (forall a b c rest, Q rest -> Q (a :: b :: c :: rest)) ->
  forall buf, Q buf.
Proof.
  intros H0 H1 H2 H3.
  assert (forall buf, Q buf /\ (forall a, Q (a :: buf))
                      /\ (forall a b, Q (a :: b :: buf))) as H.
  { induction buf as [|c rest (IH0 & IH1 & IH2)]; [auto|].
    repeat split; auto. }
  intros buf. apply H.
Qed.

Lemma encode_digits_length buf :
  length (Base64Url.encode_digits buf) = ((4 * length buf + 2) / 3)%nat.
Proof.
  induction buf as [| | |a b c rest IH] using buffer_ind; try reflexivity.
  cbn [Base64Url.encode_digits length]. rewrite IH.
  replace (4 * S (S (S (length rest))) + 2)%nat
    with ((4 * length rest + 2) + 4 * 3)%nat by lia.
  rewrite Nat.div_add by lia. lia.
Qed.

Lemma string_of_list_ascii_length l :
  String.length (string_of_list_ascii l) = length l.
Proof. induction l; simpl; congruence. Qed.

Lemma encode_length buf :
  String.length (Base64Url.encode buf) = ((4 * length buf + 2) / 3)%nat.
Proof.
  unfold Base64Url.encode.
  now rewrite string_of_list_ascii_length, encode_digits_length.
Qed.

Lemma encode_digits_alphabet buf :
  Forall (fun c => Base64Url.is_digit c = true) (Base64Url.encode_digits buf).
Proof.
  assert (forall v, (v < 64)%N ->
                    Base64Url.is_digit (Base64Url.digit v) = true) as Hd.
  { intros v Hv. unfold Base64Url.is_digit. now rewrite value_digit. }
  induction buf as [|a|a b|a b c rest IH] using buffer_ind;
    cbn [Base64Url.encode_digits];
    try pose proof (byte_below a); try pose proof (byte_below b);
    try pose proof (byte_below c);
    repeat (constructor; [apply Hd; lia|]); auto.
Qed.

Lemma decode_encode_digits buf :
  Base64Url.decode_digits (Base64Url.encode_digits buf) = Some buf.
Proof.
  induction buf as [|a|a b|a b c rest IH] using buffer_ind;
    [reflexivity| | |];
    cbn [Base64Url.encode_digits Base64Url.decode_digits];
    try pose proof (byte_below a); try pose proof (byte_below b);
    try pose proof (byte_below c);
    rewrite ?value_digit by lia; try rewrite IH;
    unfold Base64Url.octets; cbn [mapM].
  - replace (_ / 4 * 4 + _ / 16)%N with (Byte.to_N a) by lia.
    now rewrite Byte.of_to_N.
  - replace (_ / 4 * 4 + _ / 16)%N with (Byte.to_N a) by lia.
    replace (_ mod 16 * 16 + _ / 4)%N with (Byte.to_N b) by lia.
    now rewrite !Byte.of_to_N.
  - replace (_ / 4 * 4 + _ / 16)%N with (Byte.to_N a) by lia.
    replace (_ mod 16 * 16 + _ / 4)%N with (Byte.to_N b) by lia.
    replace (_ mod 4 * 64 + _)%N with (Byte.to_N c) by lia.
    now rewrite !Byte.of_to_N.
Qed.

Lemma decode_encode buf : Base64Url.decode (Base64Url.encode buf) = Some buf.
Proof.
  unfold Base64Url.decode, Base64Url.encode.
  rewrite list_ascii_of_string_of_list_ascii. apply decode_encode_digits.
Qed.

Lemma be_bytes_length n x : length (Sha256.be_bytes n x) = n.
Proof. induction n; simpl; congruence. Qed.

Lemma sha256_length msg : length (Sha256.sha256 msg) = 32%nat.
Proof.
  unfold Sha256.sha256, Sha256.digest_of.
  now rewrite length_map, !length_app, !be_bytes_length.
Qed.

Section Properties.

Context (P : Platform).

Lemma post_Date_now s Q :
  Q (Return (clock P (reads s))) (consumed 1 0 0 0 [] s) ->
  post (Date_now P) s Q.
Proof. exact id. Qed.

Lemma post_randomBytes n s Q :
  Q (Return (map (entropy P) (seq (drawn s) n))) (consumed 0 0 n 0 [] s) ->
  post (randomBytes P n) s Q.
Proof. exact id. Qed.

Lemma post_fetch req s (Q : Outcome Response -> State -> Prop) :
  (forall r, network P (fetches s) req = Resolved r ->
             Q (Return r) (consumed 0 1 0 0 [EvFetch req] s)) ->
  (forall msg, network P (fetches s) req = Rejected msg ->
               Q (Throw (Error.TypeError msg))
                 (consumed 0 1 0 0 [EvFetch req] s)) ->
  post (fetch P req) s Q.
Proof.
  intros Hr Hj. unfold post, fetch.
  destruct (network P (fetches s) req) eqn:E; simpl; auto.
Qed.

Lemma post_response_json r s Q :
  (forall j, json r = JsonValue j -> Q (Return (Some j)) s) ->
  (json r = JsonNull -> Q (Return None) s) ->
  (json r = Unparseable ->
   Q (Throw (Error.SyntaxError "Unexpected token in JSON")) s) ->
  post (response_json r) s Q.
Proof.
  intros Hj H0 Hn. unfold post, response_json.
  destruct (json r); simpl; auto.
Qed.

Lemma post_read_of name j s Q :
  (forall object, j = Some object -> Q (Return object) s) ->
  (j = None ->
   Q (Throw (Error.TypeError
               ("Cannot read properties of null (reading '" +:+ name
                  +:+ "')"))) s) ->
  post (read_of name j) s Q.
Proof. intros Hj Hn. unfold post, read_of. destruct j; simpl; auto. Qed.

Lemma post_URL_new u s Q :
  (forall url, new_URL P u = Some url -> Q (Return url) s) ->
  (new_URL P u = None -> Q (Throw (Error.TypeError "Invalid URL")) s) ->
  post (URL_new P u) s Q.
Proof.
  intros Hj Hn. unfold post, URL_new. destruct (new_URL P u); simpl; auto.
Qed.

(** One step over a platform primitive. *)
Ltac prim :=
  cbv beta iota;
  lazymatch goal with
  | |- post (Date_now _) _ _ => apply post_Date_now
  | |- post (randomBytes _ _) _ _ => apply post_randomBytes
  | |- post (fetch _ _) _ _ => apply post_fetch; [intros ? ? | intros ? ?]
  | |- post (response_json _) _ _ =>
      apply post_response_json; [intros ? ? | intros ? | intros ?]
  | |- post (read_of _ (Some _)) _ _ => unfold read_of
  | |- post (read_of _ None) _ _ => unfold read_of
  | |- post (read_of _ _) _ _ =>
      apply post_read_of; [intros ? ? | intros ?]
  | |- post (URL_new _ _) _ _ =>
      apply post_URL_new; [intros ? ? | intros ?]
  | |- post (expiry_of _ _) _ _ => unfold expiry_of
  | |- post (past _ _ _) _ _ => unfold past
  | |- _ => step
  end.

(** *** Single use of a pending authorization *)

Lemma handleCallback_unknown_state code state s :
  pendingAuthorizations s !! state = None ->
  handleCallback P code state s
  = (Throw (Error.new "Invalid or expired state parameter"), s).
Proof.
  intros E. unfold handleCallback, bind, get. rewrite E. reflexivity.
Qed.

Lemma handleCallback_consumes code state s :
  pendingAuthorizations (handleCallback P code state s).2 !! state = None.
Proof.
  change (post (handleCallback P code state) s
            (fun _ s' => pendingAuthorizations s' !! state = None)).
  unfold handleCallback.
  prim. prim. prim; [| prim; assumption].
  prim. prim. prim.
  { repeat prim. apply lookup_delete_eq. }
  prim. skip_over; repeat prim; apply lookup_delete_eq.
Qed.

(** C2. Whatever a call of [handleCallback] with a state does (success,
    failed token exchange, expired request, unknown state), the pending
    authorization stored under that state is gone afterwards, so that the
    next call with the same state fails with the invalid-or-expired-state
    error. *)
Theorem handleCallback_single_use code state s code' :
  let s1 := (handleCallback P code state s).2 in
  pendingAuthorizations s1 !! state = None
  /\ handleCallback P code' state s1
     = (Throw (Error.new "Invalid or expired state parameter"), s1).
Proof.
  pose proof (handleCallback_consumes code state s) as H.
  split; [exact H | apply handleCallback_unknown_state, H].
Qed.

(** *** What discovery leaves alone *)

Section DiscoveryFrame.

Context {B : Type} (f : State -> B).
Hypothesis f_consumed :
  forall r n d k evs s, f (consumed r n d k evs s) = f s.
Hypothesis f_metadata : forall g s, f (with_serverMetadata g s) = f s.

Lemma tryDiscoveryUrls_keeps serverUrl urls s :
  f (tryDiscoveryUrls P serverUrl urls s).2 = f s.
Proof.
  revert s. induction urls as [|u urls IH]; intros s; [reflexivity|].
  change (post (tryDiscoveryUrls P serverUrl (u :: urls)) s
            (fun _ s' => f s' = f s)).
  cbn [tryDiscoveryUrls].
  assert (Hrest : forall s', f s' = f s ->
            post (tryDiscoveryUrls P serverUrl urls) s'
              (fun _ s'' => f s'' = f s)).
  { intros s' E. unfold post. rewrite IH. exact E. }
  repeat prim;
    try (apply Hrest); rewrite ?f_metadata, ?f_consumed; reflexivity.
Qed.

Lemma probeChallenge_keeps serverUrl baseUrl s :
  f (probeChallenge P serverUrl baseUrl s).2 = f s.
Proof.
  change (post (probeChallenge P serverUrl baseUrl) s
            (fun _ s' => f s' = f s)).
  unfold probeChallenge.
  repeat prim; rewrite ?f_metadata, ?f_consumed; reflexivity.
Qed.

Lemma discoverServerMetadata_keeps serverUrl custom s :
  f (discoverServerMetadata P serverUrl custom s).2 = f s.
Proof.
  change (post (discoverServerMetadata P serverUrl custom) s
            (fun _ s' => f s' = f s)).
  unfold discoverServerMetadata.
  prim. prim. prim; [| repeat prim; reflexivity].
  prim.
  apply (post_frame f); [apply tryDiscoveryUrls_keeps|].
  intros [[md|]|e] s1 E1; repeat prim; try exact E1.
  apply (post_frame f); [apply probeChallenge_keeps|].
  intros [[md|]|e'] s2 E2; repeat prim;
    rewrite ?f_metadata, ?f_consumed; congruence.
Qed.

End DiscoveryFrame.

Lemma discover_keeps_tokens serverUrl custom s :
  tokens (discoverServerMetadata P serverUrl custom s).2 = tokens s.
Proof. apply discoverServerMetadata_keeps; reflexivity. Qed.

Lemma discover_keeps_pending serverUrl custom s :
  pendingAuthorizations (discoverServerMetadata P serverUrl custom s).2
  = pendingAuthorizations s.
Proof. apply discoverServerMetadata_keeps; reflexivity. Qed.

Lemma discover_of_keeps_tokens serverUrl s :
  tokens (discoverServerMetadata_of P serverUrl s).2 = tokens s.
Proof.
  destruct serverUrl; [apply discover_keeps_tokens | reflexivity].
Qed.

(** *** Token access and refresh *)

Lemma past_due now tokenData margin s :
  TokenRecord.expiresAt tokenData = Some now ->
  past P (Some now) margin s
  = (Return (negb (now =? 0)%Z
             && (clock P (reads s) >? now - margin)%Z),
     if (now =? 0)%Z then s else consumed 1 0 0 0 [] s).
Proof.
  intros _. unfold past, truthy, truthy_option, truthy, truthy_Z.
  destruct (now =? 0)%Z; reflexivity.
Qed.

Lemma getAccessToken_refreshes serverName s tokenData :
  tokens s !! serverName = Some tokenData ->
  due (clock P (reads s)) tokenData ->
  truthy (refresh_token (TokenRecord.response tokenData)) = true ->
  getAccessToken P serverName s
  = match refreshAccessToken P serverName (consumed 1 0 0 0 [] s) with
    | (Return _, s') =>
        (Return (tokens s' !! serverName
                   ≫= fun t => access_token (TokenRecord.response t)), s')
    | (Throw _, s') => (Return None, s')
    end.
Proof.
  intros Hs (e & He & Hz & Hn) Hr.
  unfold getAccessToken, bind at 1, get. rewrite Hs.
  unfold bind at 1. rewrite He, (past_due e tokenData) by exact He.
  apply Z.eqb_neq in Hz. rewrite Hz. apply Z.gtb_gt in Hn.
  cbn [negb andb]. simpl in Hn. rewrite Hn, Hr.
  unfold try_catch, bind at 1.
  destruct (refreshAccessToken P serverName _) as [[j|err] s']; reflexivity.
Qed.

Lemma refreshAccessToken_failure serverName s tokenData err s' :
  tokens s !! serverName = Some tokenData ->
  truthy (refresh_token (TokenRecord.response tokenData)) = true ->
  refreshAccessToken P serverName s = (Throw err, s') ->
  tokens s' = if refresh_refused P tokenData s
              then delete serverName (tokens s) else tokens s.
Proof.
  intros Hs Hr Hrun.
  refine (post_run _ _ _ _
            (fun o s' => match o with
                         | Throw _ => tokens s' = _
                         | Return _ => True
                         end) _ Hrun).
  unfold refreshAccessToken, refresh_refused.
  prim. prim. rewrite Hs, Hr. cbn [negb]. prim.
  pose proof (discover_of_keeps_tokens (TokenRecord.serverUrl tokenData) s)
    as Hk.
  apply post_cases. intros [metadata|e0] sm E; rewrite E in Hk |- *;
    simpl in Hk; [|exact Hk].
  prim. apply post_cases. unfold fetch.
  intros o s1 E1.
  destruct (network P (fetches sm) _) as [r|msg];
    injection E1 as <- <-; [|exact Hk].
  destruct (ok r); cbn [negb]; repeat prim; try exact I; try exact Hk.
  simpl. now rewrite Hk.
Qed.

(** C1 (amended). With a record that is due and has a refresh token,
    [getAccessToken] attempts the refresh, and when the refresh fails it
    returns null. The stored record is untouched unless the token endpoint
    refused the refresh request (a status outside 200-299), in which case
    [refreshAccessToken] has deleted it. *)
Theorem getAccessToken_refresh_failure serverName s tokenData err s' :
  tokens s !! serverName = Some tokenData ->
  due (clock P (reads s)) tokenData ->
  truthy (refresh_token (TokenRecord.response tokenData)) = true ->
  refreshAccessToken P serverName (consumed 1 0 0 0 [] s)
  = (Throw err, s') ->
  getAccessToken P serverName s = (Return None, s')
  /\ tokens s' !! serverName
     = if refresh_refused P tokenData (consumed 1 0 0 0 [] s)
       then None else Some tokenData.
Proof.
  intros Hs Hd Hr Hf. split.
  - rewrite (getAccessToken_refreshes _ _ _ Hs Hd Hr), Hf. reflexivity.
  - rewrite (refreshAccessToken_failure serverName (consumed 1 0 0 0 [] s)
               tokenData err s' Hs Hr Hf).
    destruct (refresh_refused _ _); simpl.
    + apply lookup_delete_eq.
    + exact Hs.
Qed.

(** *** Metadata discovery *)

Lemma truthy_append_nonempty (a : string) c b :
  truthy (a +:+ String c b) = true.
Proof. destruct a; reflexivity. Qed.

Lemma truthy_or_else_nonempty (o : option string) a c b :
  truthy (or_else o (Some (a +:+ String c b))) = true.
Proof.
  unfold or_else. destruct (truthy o) eqn:E; [exact E|].
  apply truthy_append_nonempty.
Qed.

Lemma parseWWWAuthenticateHeader_endpoints header baseUrl metadata :
  parseWWWAuthenticateHeader header baseUrl = Some metadata ->
  has_endpoints metadata.
Proof.
  unfold parseWWWAuthenticateHeader.
  destruct (_ || _); [|discriminate]. intros [= <-].
  split; apply truthy_or_else_nonempty.
Qed.

Lemma defaultMetadata_endpoints baseUrl methods :
  has_endpoints (defaultMetadata baseUrl methods).
Proof. split; apply truthy_append_nonempty. Qed.

Lemma tryDiscoveryUrls_found serverUrl urls s :
  post (tryDiscoveryUrls P serverUrl urls) s
    (fun o s' =>
       match o with
       | Return (Some metadata) =>
           serverMetadata s' !! serverUrl = Some (Some metadata)
           /\ from_response P metadata
       | Return None => True
       | Throw _ => False
       end).
Proof.
  revert s. induction urls as [|u urls IH]; intros s; [exact I|].
  cbn [tryDiscoveryUrls].
  repeat prim; try apply IH.
  split; [apply lookup_insert_eq|].
  eexists _, _, _; eauto.
Qed.

Lemma probeChallenge_found serverUrl baseUrl s :
  post (probeChallenge P serverUrl baseUrl) s
    (fun o s' =>
       match o with
       | Return (Some metadata) =>
           serverMetadata s' !! serverUrl = Some (Some metadata)
           /\ has_endpoints metadata
       | Return None => True
       | Throw _ => False
       end).
Proof.
  unfold probeChallenge. repeat prim; try exact I.
  split; [apply lookup_insert_eq|].
  eapply parseWWWAuthenticateHeader_endpoints; eassumption.
Qed.

(** C3 (amended). For a server URL that the URL parser accepts, discovery
    does not throw: it returns a record and has cached that record under
    the server URL. A record synthesized from a challenge header or from
    the defaults has both endpoints; a record taken from a discovery
    response is that response's body as it came. *)
Theorem discoverServerMetadata_returns serverUrl customMetadataUrl s url :
  new_URL P serverUrl = Some url ->
  exists metadata s',
    discoverServerMetadata P serverUrl customMetadataUrl s
    = (Return metadata, s')
    /\ serverMetadata s' !! serverUrl = Some (Some metadata)
    /\ (from_response P metadata \/ has_endpoints metadata).
Proof.
  intros Hurl.
  enough (post (discoverServerMetadata P serverUrl customMetadataUrl) s
            (fun o s' =>
               match o with
               | Return metadata =>
                   serverMetadata s' !! serverUrl = Some (Some metadata)
                   /\ (from_response P metadata \/ has_endpoints metadata)
               | Throw _ => False
               end)) as H.
  { unfold post in H.
    destruct (discoverServerMetadata P serverUrl customMetadataUrl s)
      as [[metadata|e] s']; [eauto | contradiction]. }
  unfold discoverServerMetadata, URL_new. rewrite Hurl.
  prim. prim. prim. prim.
  eapply post_weaken; [apply tryDiscoveryUrls_found|].
  intros [[metadata|]|e] s1; cbv beta iota; [| |contradiction].
  { intros [Hc Hf]. prim. auto. }
  intros _. prim.
  eapply post_weaken; [apply probeChallenge_found|].
  intros [[metadata|]|e] s2; cbv beta iota; [| |contradiction].
  { intros [Hc Hf]. prim. auto. }
  intros _. repeat prim.
  split; [apply lookup_insert_eq|right; apply defaultMetadata_endpoints].
Qed.

(** *** Initiating an authorization *)

(** C6 (amended). After a successful [initiateAuthorizationFlow] the
    pending authorization is stored under the returned state; its creation
    timestamp is one reading of the clock and its expiry is the next
    reading plus exactly 600 seconds (600000 ms), so the two differ by
    exactly 600 seconds when both readings are the same millisecond. The
    result reports 600 seconds of validity. *)
Theorem initiateAuthorizationFlow_expiry serverName serverUrl options s
    info s' :
  initiateAuthorizationFlow P serverName serverUrl options s
  = (Return info, s') ->
  exists pending n,
    pendingAuthorizations s' !! AuthInfo.state info = Some pending
    /\ PendingAuthorization.createdAt pending = clock P n
    /\ PendingAuthorization.expiresAt pending
       = (clock P (S n) + 600 * 1000)%Z
    /\ (clock P (S n) = clock P n ->
        PendingAuthorization.expiresAt pending
        = (PendingAuthorization.createdAt pending + 600 * 1000)%Z)
    /\ AuthInfo.expiresIn info = 600%Z.
Proof.
  intros Hrun.
  refine (post_run _ _ _ _
            (fun o s' =>
               match o with
               | Return info =>
                   exists pending n,
                     pendingAuthorizations s' !! AuthInfo.state info
                     = Some pending /\ _
               | Throw _ => True
               end) _ Hrun).
  unfold initiateAuthorizationFlow.
  skip_over; [|exact I]. skip_over; [|exact I].
  prim; [exact I|].
  unfold generateCodeVerifier, generateState, generateRandomString.
  repeat prim; try exact I.
  eexists _, _. split; [apply lookup_insert_eq|].
  cbn. repeat split; try reflexivity.
  intros ->. reflexivity.
Qed.

(** *** Valid tokens *)

Lemma hasValidTokens_absent serverName s :
  tokens s !! serverName = None ->
  (hasValidTokens P serverName s).1 = Return false.
Proof. intros E. unfold hasValidTokens, bind, get. now rewrite E. Qed.

Lemma hasValidTokens_present serverName s tokenData :
  tokens s !! serverName = Some tokenData ->
  (hasValidTokens P serverName s).1
  = Return
      (negb (truthy (TokenRecord.expiresAt tokenData)
             && (clock P (reads s)
                 >? default 0%Z (TokenRecord.expiresAt tokenData))%Z)
       || bool_decide
            (refresh_token (TokenRecord.response tokenData) <> None)).
Proof.
  intros E. unfold hasValidTokens, bind at 1, get. rewrite E.
  unfold bind, past.
  destruct (truthy (TokenRecord.expiresAt tokenData)); [|reflexivity].
  cbn. rewrite Z.sub_0_r. now destruct (_ >? _)%Z.
Qed.

Lemma expiry_of_spec tokens0 s (Q : Outcome (option Z) -> State -> Prop) :
  (truthy (expires_in tokens0) = false -> Q (Return None) s) ->
  (forall lifetime,
      expires_in tokens0 = Some lifetime ->
      Q (Return (Some (clock P (reads s) + lifetime * 1000)%Z))
        (consumed 1 0 0 0 [] s)) ->
  post (expiry_of P tokens0) s Q.
Proof.
  intros Hn Hs. unfold expiry_of.
  destruct (truthy (expires_in tokens0)) eqn:E; [|now apply Hn].
  destruct (expires_in tokens0) as [l|]; [|discriminate].
  apply (Hs l eq_refl).
Qed.

Lemma handleCallback_stores code state s :
  post (handleCallback P code state) s
    (fun o s' =>
       match o with
       | Return (serverName, _) => freshly_stored P serverName s'
       | Throw _ => True
       end).
Proof.
  unfold handleCallback.
  prim. prim. prim; [|exact I].
  prim. prim. prim; [repeat prim; exact I|].
  prim. skip_over; [|repeat prim; exact I].
  repeat first [ apply expiry_of_spec; intros | prim ]; try exact I.
  - eexists. split; [apply lookup_insert_eq|]. now left.
  - eexists. split; [apply lookup_insert_eq|]. right.
    eexists _, _. cbn. eauto.
Qed.

Lemma clientCredentialsGrant_stores serverName serverUrl clientId
    clientSecret scopes s :
  post (clientCredentialsGrant P serverName serverUrl clientId clientSecret
          scopes) s
    (fun o s' =>
       match o with
       | Return _ => freshly_stored P serverName s'
       | Throw _ => True
       end).
Proof.
  unfold clientCredentialsGrant.
  skip_over; [|exact I].
  repeat first [ apply expiry_of_spec; intros | prim ]; try exact I.
  - eexists. split; [apply lookup_insert_eq|]. now left.
  - eexists. split; [apply lookup_insert_eq|]. right.
    eexists _, _. cbn. eauto.
Qed.

Lemma hasValidTokens_fresh serverName s :
  freshly_stored P serverName s ->
  lifetime_not_elapsed P serverName s ->
  (hasValidTokens P serverName s).1 = Return true.
Proof.
  intros (tokenData & Hs & Hexp) Hfresh.
  rewrite (hasValidTokens_present _ _ _ Hs).
  destruct Hexp as [-> | (n & lifetime & Hn & Hl & ->)]; [reflexivity|].
  specialize (Hfresh _ _ Hs Hl). rewrite Hn in Hfresh |- *.
  cbn in Hfresh. cbn [default from_option]. unfold id.
  rewrite Z.gtb_ltb. apply Z.ltb_ge in Hfresh. rewrite Hfresh.
  now rewrite andb_false_r.
Qed.

Lemma revokeTokens_deletes serverName s :
  post (revokeTokens P serverName) s
    (fun o s' => o = Return tt /\ tokens s' !! serverName = None).
Proof.
  unfold revokeTokens.
  repeat prim; (split; [reflexivity | apply lookup_delete_eq]).
Qed.

(** C8 (amended). [hasValidTokens] answers true exactly when a record is
    stored for the server and either its expiry is null (or the falsy
    timestamp 0) or has not been passed at the reading of the clock, or a
    refresh token is present. It is true right after a successful code
    exchange and right after a successful client-credentials grant
    provided the lifetime declared for the token has not run out at that
    reading of the clock, and false right after [revokeTokens], which
    always returns and always deletes the record. *)
Theorem hasValidTokens_spec serverName :
  (forall s,
      (hasValidTokens P serverName s).1 = Return true
      <-> exists tokenData,
            tokens s !! serverName = Some tokenData
            /\ (TokenRecord.expiresAt tokenData = None
                \/ TokenRecord.expiresAt tokenData = Some 0%Z
                \/ (exists e, TokenRecord.expiresAt tokenData = Some e
                              /\ (clock P (reads s) <= e)%Z)
                \/ refresh_token (TokenRecord.response tokenData) <> None))
  /\ (forall code state s success s',
         handleCallback P code state s
         = (Return (serverName, success), s') ->
         lifetime_not_elapsed P serverName s' ->
         (hasValidTokens P serverName s').1 = Return true)
  /\ (forall serverUrl clientId clientSecret scopes s granted s',
         clientCredentialsGrant P serverName serverUrl clientId
           clientSecret scopes s = (Return granted, s') ->
         lifetime_not_elapsed P serverName s' ->
         (hasValidTokens P serverName s').1 = Return true)
  /\ (forall s,
         (revokeTokens P serverName s).1 = Return tt
         /\ (hasValidTokens P serverName
               (revokeTokens P serverName s).2).1 = Return false).
Proof.
  repeat split.
  - destruct (tokens s !! serverName) as [tokenData|] eqn:Hs.
    2:{ rewrite (hasValidTokens_absent _ _ Hs). discriminate. }
    rewrite (hasValidTokens_present _ _ _ Hs). intros [= H].
    exists tokenData. split; [reflexivity|].
    apply orb_true_iff in H as [H|H].
    + destruct (TokenRecord.expiresAt tokenData) as [e|]; [|now left].
      right. apply negb_true_iff, andb_false_iff in H as [H|H].
      * left. apply negb_false_iff, Z.eqb_eq in H. now subst.
      * right. left. exists e. split; [reflexivity|].
        cbn in H. rewrite Z.gtb_ltb in H. apply Z.ltb_ge in H. exact H.
    + apply bool_decide_eq_true in H. tauto.
  - intros (tokenData & Hs & H).
    rewrite (hasValidTokens_present _ _ _ Hs). f_equal.
    apply orb_true_iff.
    destruct H as [-> | [-> | [(e & -> & Hle) | H]]].
    + now left.
    + now left.
    + left. apply negb_true_iff, andb_false_iff. right.
      cbn. rewrite Z.gtb_ltb. apply Z.ltb_ge. exact Hle.
    + right. now apply bool_decide_eq_true.
  - intros code state s success s' Hrun Hfresh.
    apply hasValidTokens_fresh; [|exact Hfresh].
    exact (post_run _ _ _ _ _ (handleCallback_stores code state s) Hrun).
  - intros serverUrl clientId clientSecret scopes s granted s' Hrun Hfresh.
    apply hasValidTokens_fresh; [|exact Hfresh].
    exact (post_run _ _ _ _ _
             (clientCredentialsGrant_stores _ _ _ _ _ s) Hrun).
  - apply (revokeTokens_deletes serverName s).
  - apply hasValidTokens_absent, (revokeTokens_deletes serverName s).
Qed.

(** C10. A record with a finite expiry [e] and no refresh token, looked at
    inside the five minutes before [e]: [hasValidTokens] answers true, and
    [getAccessToken] called next answers null and deletes the record. *)
Theorem hasValidTokens_does_not_imply_access_token serverName s tokenData e :
  tokens s !! serverName = Some tokenData ->
  TokenRecord.expiresAt tokenData = Some e ->
  e <> 0%Z ->
  truthy (refresh_token (TokenRecord.response tokenData)) = false ->
  (e - 5 * 60 * 1000 < clock P (reads s) <= e)%Z ->
  (e - 5 * 60 * 1000 < clock P (S (reads s)) <= e)%Z ->
  let s1 := consumed 1 0 0 0 [] s in
  let s2 := with_tokens (delete serverName) (consumed 1 0 0 0 [] s1) in
  hasValidTokens P serverName s = (Return true, s1)
  /\ getAccessToken P serverName s1 = (Return None, s2)
  /\ tokens s2 !! serverName = None.
Proof.
  intros Hs He Hz Hr [_ Hnow] [Hnext _] s1 s2.
  apply Z.eqb_neq in Hz.
  repeat split.
  - unfold hasValidTokens, bind at 1, get. rewrite Hs.
    unfold bind at 1. rewrite He, (past_due e tokenData) by exact He.
    rewrite Hz, Z.sub_0_r, Z.gtb_ltb. apply Z.ltb_ge in Hnow.
    rewrite Hnow. reflexivity.
  - unfold getAccessToken, bind at 1, get.
    change (tokens s1) with (tokens s). rewrite Hs.
    unfold bind at 1. rewrite He, (past_due e tokenData) by exact He.
    rewrite Hz. change (reads s1) with (S (reads s)).
    replace (clock P (S (reads s)) >? e - 5 * 60 * 1000)%Z with true
      by (symmetry; apply Z.gtb_gt; lia).
    cbn [negb andb]. rewrite Hr. reflexivity.
  - apply lookup_delete_eq.
Qed.

(** *** PKCE *)

(** C9. The challenge is a function of the verifier alone, the base64url
    text of its SHA-256 digest. The hash is SHA-256: it gives the digests
    that FIPS 180-4 lists for the empty message, for [abc] and for the
    56-byte message that takes two blocks, and the challenge of the
    verifier of RFC 7636, appendix B, is the one printed there. For every
    verifier the challenge is 43 characters of the URL-safe alphabet and
    reads back as the digest, 32 bytes long; two verifiers have the same
    challenge only if they have the same digest. A verifier is the
    base64url text of the next 32 random bytes: 43 characters of the
    URL-safe alphabet, which read back as those bytes. *)
Theorem pkce_generation :
  hex (Sha256.sha256 (list_byte_of_string "")) =
  [0xe3; 0xb0; 0xc4; 0x42; 0x98; 0xfc; 0x1c; 0x14; 0x9a; 0xfb; 0xf4; 0xc8;
   0x99; 0x6f; 0xb9; 0x24; 0x27; 0xae; 0x41; 0xe4; 0x64; 0x9b; 0x93; 0x4c;
   0xa4; 0x95; 0x99; 0x1b; 0x78; 0x52; 0xb8; 0x55]%N
  /\ hex (Sha256.sha256 (list_byte_of_string "abc")) =
     [0xba; 0x78; 0x16; 0xbf; 0x8f; 0x01; 0xcf; 0xea; 0x41; 0x41; 0x40; 0xde;
      0x5d; 0xae; 0x22; 0x23; 0xb0; 0x03; 0x61; 0xa3; 0x96; 0x17; 0x7a; 0x9c;
      0xb4; 0x10; 0xff; 0x61; 0xf2; 0x00; 0x15; 0xad]%N
  /\ hex (Sha256.sha256 (list_byte_of_string
            "abcdbcdecdefdefgefghfghighijhijkijkljklmklmnlmnomnopnopq")) =
     [0x24; 0x8d; 0x6a; 0x61; 0xd2; 0x06; 0x38; 0xb8; 0xe5; 0xc0; 0x26; 0x93;
      0x0c; 0x3e; 0x60; 0x39; 0xa3; 0x3c; 0xe4; 0x59; 0x64; 0xff; 0x21; 0x67;
      0xf6; 0xec; 0xed; 0xd4; 0x19; 0xdb; 0x06; 0xc1]%N
  /\ generateCodeChallenge "dBjftJeZ4CVP-mB92K27uhbUJU1p1r_wW1gFWFOEjXk"
     = "E9Melhoa2OwvFrEMTJguCHaoeK1t8URWbuGJSstw-cM"
  /\ generateCodeChallenge ""
     = "47DEQpj8HBSa-_TImW-5JCeuQeRkm5NMpJWZG3hSuFU"
  /\ (forall codeVerifier,
        let digest := Sha256.sha256 (list_byte_of_string codeVerifier) in
        let challenge := generateCodeChallenge codeVerifier in
        challenge = Base64Url.encode digest
        /\ Base64Url.decode challenge = Some digest
        /\ length digest = 32%nat
        /\ String.length challenge = 43%nat
        /\ Forall (fun c => Base64Url.is_digit c = true)
                  (list_ascii_of_string challenge))
  /\ (forall codeVerifier codeVerifier',
        generateCodeChallenge codeVerifier
        = generateCodeChallenge codeVerifier' ->
        Sha256.sha256 (list_byte_of_string codeVerifier)
        = Sha256.sha256 (list_byte_of_string codeVerifier'))
  /\ (forall s,
        exists random codeVerifier,
          generateCodeVerifier P s
          = (Return codeVerifier, consumed 0 0 32 0 [] s)
          /\ random = map (entropy P) (seq (drawn s) 32)
          /\ codeVerifier = Base64Url.encode random
          /\ Base64Url.decode codeVerifier = Some random
          /\ String.length codeVerifier = 43%nat
          /\ (43 <= String.length codeVerifier)%nat
          /\ Forall (fun c => Base64Url.is_digit c = true)
                    (list_ascii_of_string codeVerifier)).
Proof.
  split; [exact sha256_empty|].
  split; [exact sha256_abc|].
  split; [exact sha256_two_blocks|].
  split; [exact rfc7636_appendix_B|].
  split; [vm_compute; reflexivity|].
  split; [|split].
  - intros codeVerifier digest challenge.
    split; [reflexivity|].
    split; [apply decode_encode|].
    split; [apply sha256_length|].
    split.
    + unfold challenge, generateCodeChallenge.
      rewrite encode_length, sha256_length. reflexivity.
    + unfold challenge, generateCodeChallenge, Base64Url.encode.
      rewrite list_ascii_of_string_of_list_ascii.
      apply encode_digits_alphabet.
  - intros v v' Heq.
    pose proof (decode_encode (Sha256.sha256 (list_byte_of_string v))) as Hv.
    fold (generateCodeChallenge v) in Hv. rewrite Heq in Hv.
    unfold generateCodeChallenge in Hv. rewrite decode_encode in Hv.
    congruence.
  - intros s. eexists _, _. split; [reflexivity|].
    split; [reflexivity|]. split; [reflexivity|].
    split; [apply decode_encode|].
    assert (String.length
              (Base64Url.encode (map (entropy P) (seq (drawn s) 32)))
            = 43%nat) as Hlen.
    { rewrite encode_length, length_map, length_seq. reflexivity. }
    rewrite Hlen. repeat split; [lia|].
    unfold Base64Url.encode.
    rewrite list_ascii_of_string_of_list_ascii.
    apply encode_digits_alphabet.
Qed.

(** *** The callback URL *)

(** C5 (amended). A caller-supplied URL that is not empty is returned as
    it is. Otherwise the base is the first non-empty of [APP_URL],
    [HEROKU_APP_URL], the herokuapp.com domain of [HEROKU_APP_NAME] and
    [http://localhost:PORT] (port 3000 by default); one trailing slash is
    removed from it and [/oauth/callback] is appended. *)
Theorem getCallbackUrl_precedence customCallbackUrl :
  getCallbackUrl P customCallbackUrl
  = match customCallbackUrl with
    | Some url =>
        if String.eqb url "" then
          strip_trailing_slash (environment_base (env P))
            +:+ "/oauth/callback"
        else url
    | None =>
        strip_trailing_slash (environment_base (env P)) +:+ "/oauth/callback"
    end.
Proof.
  assert (getCallbackUrl P None
          = strip_trailing_slash (environment_base (env P))
              +:+ "/oauth/callback") as Henv.
  { unfold getCallbackUrl, environment_base, localhost, herokuapp.
    cbn [truthy truthy_option first_nonempty].
    unfold or_else, truthy, truthy_option, truthy, truthy_string.
    destruct (APP_URL (env P)) as [app|];
      [destruct (String.eqb app "") eqn:Eapp|];
      (destruct (HEROKU_APP_URL (env P)) as [heroku|];
       [destruct (String.eqb heroku "") eqn:Eheroku|]);
      (destruct (HEROKU_APP_NAME (env P)) as [appName|];
       [destruct (String.eqb appName "") eqn:Ename|]);
      (destruct (PORT (env P)) as [port|];
       [destruct (String.eqb port "") eqn:Eport|]);
      repeat (cbn [negb andb js_string default from_option id
                   first_nonempty];
              rewrite ?Eapp, ?Eheroku, ?Ename, ?Eport);
      reflexivity. }
  destruct customCallbackUrl as [url|]; [|exact Henv].
  destruct (String.eqb_spec url "") as [->|Hne]; [exact Henv|].
  unfold getCallbackUrl, truthy, truthy_option, truthy, truthy_string.
  apply String.eqb_neq in Hne. now rewrite Hne.
Qed.

End Properties.


Import Scenario.

(** C1, counterexample: the token endpoint answers the refresh request with
    404; [getAccessToken] returns null and the record is gone. *)
Lemma refresh_failure_deletes_record :
  ~ refresh_failure_keeps_record offline "crm" holding_refreshable.
Proof.
  intros H.
  destruct (H refreshable (Error.new "Token refresh failed: ")
              (refreshAccessToken offline "crm"
                 (consumed 1 0 0 0 [] holding_refreshable)).2)
    as [_ Habs].
  - reflexivity.
  - exists 2000%Z.
    split; [reflexivity | split; [discriminate | vm_compute; reflexivity]].
  - reflexivity.
  - vm_compute. reflexivity.
  - vm_compute in Habs. discriminate.
Qed.

Lemma getAccessToken_refresh_failure_witness :
  let s' := (refreshAccessToken offline "crm"
               (consumed 1 0 0 0 [] holding_refreshable)).2 in
  getAccessToken offline "crm" holding_refreshable = (Return None, s')
  /\ tokens s' !! "crm"
     = if refresh_refused offline refreshable
            (consumed 1 0 0 0 [] holding_refreshable)
       then None else Some refreshable.
Proof.
  apply (getAccessToken_refresh_failure offline "crm" holding_refreshable
           refreshable (Error.new "Token refresh failed: ")).
  - reflexivity.
  - exists 2000%Z.
    split; [reflexivity | split; [discriminate | vm_compute; reflexivity]].
  - reflexivity.
  - vm_compute. reflexivity.
Defined.

(** A code exchange that succeeds, and the same callback once more. *)
Example callback_then_replay :
  let first := handleCallback issuing "code-1" "st-1" awaiting_callback in
  first.1 = Return ("crm", true)
  /\ (handleCallback issuing "code-1" "st-1" first.2).1
     = Throw (Error.new "Invalid or expired state parameter").
Proof. vm_compute. split; reflexivity. Qed.

(** C3, counterexample: the first discovery URL answers 200 with the empty
    JSON object, which is returned as the metadata. *)
Lemma discovery_returns_unusable_record :
  ~ discovery_always_usable lenient server None initial.
Proof.
  intros (metadata & s' & Hrun & [endpoint Hendpoint] & _).
  vm_compute in Hrun. injection Hrun as <- _. discriminate.
Qed.

Lemma discoverServerMetadata_returns_witness :
  exists metadata s',
    discoverServerMetadata offline server None initial = (Return metadata, s')
    /\ serverMetadata s' !! server = Some (Some metadata)
    /\ (from_response offline metadata \/ has_endpoints metadata).
Proof.
  apply (discoverServerMetadata_returns offline server None initial
           (URL.mk "https:" "mcp.example.com" "/v1/sse" [])).
  reflexivity.
Defined.

(** C5, counterexample: a caller-supplied callback URL comes back as given,
    without the callback path. *)
Lemma custom_callback_is_verbatim :
  ~ callback_from_any_base offline (Some "https://app.example.com/auth/done").
Proof. unfold callback_from_any_base. vm_compute. discriminate. Qed.

Example callback_default :
  getCallbackUrl offline None = "http://localhost:3000/oauth/callback".
Proof. reflexivity. Qed.

(** C6, counterexample: the clock moves by a millisecond between the two
    readings; the expiry is 600001 ms after the creation timestamp. *)
Lemma expiry_after_a_clock_tick :
  ~ expiry_is_creation_plus_600s offline "crm" server with_client_id initial.
Proof.
  intros H.
  destruct (H flow_info flow.2) as (pending & Hstored & Hexpiry & _).
  - vm_compute. reflexivity.
  - vm_compute in Hstored. injection Hstored as <-.
    vm_compute in Hexpiry. discriminate.
Qed.

Lemma initiateAuthorizationFlow_expiry_witness :
  exists pending n,
    pendingAuthorizations flow.2 !! AuthInfo.state flow_info = Some pending
    /\ PendingAuthorization.createdAt pending = clock offline n
    /\ PendingAuthorization.expiresAt pending
       = (clock offline (S n) + 600 * 1000)%Z
    /\ (clock offline (S n) = clock offline n ->
        PendingAuthorization.expiresAt pending
        = (PendingAuthorization.createdAt pending + 600 * 1000)%Z)
    /\ AuthInfo.expiresIn flow_info = 600%Z.
Proof.
  apply (initiateAuthorizationFlow_expiry offline "crm" server with_client_id
           initial flow_info flow.2).
  vm_compute. reflexivity.
Defined.

(** C8, counterexample: the token endpoint answers the code exchange, and
    the client-credentials grant, with status 200 and a token whose
    [expires_in] is -1 and that has no refresh token. Both calls return,
    the record is stored with an expiry one second before the reading of
    the clock, and [hasValidTokens] called next answers false. *)
Lemma issued_token_already_expired :
  ~ valid_right_after_exchange Runs.stale "crm"
  /\ ~ valid_right_after_grant Runs.stale "crm".
Proof.
  split.
  - intros H.
    specialize (H "code-1" "st-1" awaiting_callback true
                  (handleCallback Runs.stale "code-1" "st-1"
                     awaiting_callback).2).
    assert ((hasValidTokens Runs.stale "crm"
               (handleCallback Runs.stale "code-1" "st-1"
                  awaiting_callback).2).1 = Return false) as Hfalse
      by (vm_compute; reflexivity).
    rewrite H in Hfalse; [discriminate | vm_compute; reflexivity].
  - intros H.
    specialize (H server "client-1" "secret" [] initial
                  (Demo.token_json "at-2" None (Some (-1)%Z))
                  (clientCredentialsGrant Runs.stale "crm" server "client-1"
                     "secret" [] initial).2).
    assert ((hasValidTokens Runs.stale "crm"
               (clientCredentialsGrant Runs.stale "crm" server "client-1"
                  "secret" [] initial).2).1 = Return false) as Hfalse
      by (vm_compute; reflexivity).
    rewrite H in Hfalse; [discriminate | vm_compute; reflexivity].
Qed.

Lemma hasValidTokens_spec_witness :
  (hasValidTokens issuing "crm"
     (handleCallback issuing "code-1" "st-1" awaiting_callback).2).1
  = Return true
  /\ (hasValidTokens issuing "crm"
        (clientCredentialsGrant issuing "crm" server "client-1" "secret" []
           initial).2).1
     = Return true.
Proof.
  split.
  - apply (proj1 (proj2 (hasValidTokens_spec issuing "crm"))
             "code-1" "st-1" awaiting_callback true).
    + vm_compute. reflexivity.
    + intros tokenData lifetime Hstored Hlifetime.
      vm_compute in Hstored. injection Hstored as <-.
      vm_compute in Hlifetime. injection Hlifetime as <-.
      vm_compute. discriminate.
  - apply (proj1 (proj2 (proj2 (hasValidTokens_spec issuing "crm")))
             server "client-1" "secret" [] initial
             (Demo.token_json "at-2" None (Some 3600%Z))).
    + vm_compute. reflexivity.
    + intros tokenData lifetime Hstored Hlifetime.
      vm_compute in Hstored. injection Hstored as <-.
      vm_compute in Hlifetime. injection Hlifetime as <-.
      vm_compute. discriminate.
Defined.

Example revoked_is_invalid :
  (hasValidTokens offline "crm"
     (revokeTokens offline "crm" holding_refreshable).2).1 = Return false.
Proof. reflexivity. Qed.

Lemma hasValidTokens_does_not_imply_access_token_witness :
  let s1 := consumed 1 0 0 0 [] holding_short_lived in
  let s2 := with_tokens (delete "crm") (consumed 1 0 0 0 [] s1) in
  hasValidTokens offline "crm" holding_short_lived = (Return true, s1)
  /\ getAccessToken offline "crm" s1 = (Return None, s2)
  /\ tokens s2 !! "crm" = None.
Proof.
  apply (hasValidTokens_does_not_imply_access_token offline "crm"
           holding_short_lived short_lived 2000).
  - reflexivity.
  - reflexivity.
  - discriminate.
  - reflexivity.
  - vm_compute. split; [reflexivity | discriminate].
  - vm_compute. split; [reflexivity | discriminate].
Defined.

(** C4. A server with the oauth2 strategy and a stored token rejects the
    transport with a 401: [connect] revokes the token, initiates a new flow
    and throws the authorization-required error with the authorization URL
    and the state, but without [expiresIn]. *)
Theorem connect_reauthorization_lacks_expiresIn :
  (connect_new rejecting "crm" (raw server (Some OAUTH2) (Some with_client_id))
     holding_token).1
  = Throw
      {| Error.name := "OAuthAuthorizationRequired";
         Error.message := "OAuth re-authorization required for crm";
         Error.code := None;
         Error.authorizationUrl := Some (AuthInfo.authorizationUrl flow_info);
         Error.state := Some (AuthInfo.state flow_info);
         Error.expiresIn := None |}.
Proof. vm_compute. reflexivity. Qed.

(** The sibling path: without a stored token the same error carries the
    validity of the pending authorization. *)
Example connect_authorization_has_expiresIn :
  (connect_new rejecting "crm" (raw server (Some OAUTH2) (Some with_client_id))
     initial).1
  = Throw
      {| Error.name := "OAuthAuthorizationRequired";
         Error.message := "OAuth authorization required for crm";
         Error.code := None;
         Error.authorizationUrl := Some (AuthInfo.authorizationUrl flow_info);
         Error.state := Some (AuthInfo.state flow_info);
         Error.expiresIn := Some 600%Z |}.
Proof. vm_compute. reflexivity. Qed.

(** The same catch block also takes over the error of the first path when
    the name of the server contains 401, since the message quotes the name. *)
Example connect_first_path_with_401_in_name :
  Error.expiresIn
    <$> match (connect_new offline "srv401"
                 (raw server (Some OAUTH2) (Some with_client_id)) initial).1
        with
        | Throw e => Some e
        | Return _ => None
        end
  = Some None.
Proof. vm_compute. reflexivity. Qed.

(** C7. After a call has failed with a 401 the held connection is stale;
    [getConnection] drops it from the map and stores a new one. Two SDK
    clients were connected and none was closed: the first one is still
    attached to the dropped object. *)
Theorem stale_connection_is_not_closed :
  let s' := (reconnect_after_401 initial).2 in
  (reconnect_after_401 initial).1 = Return (0, 2)%nat
  /\ connections s' !! "files" = Some 2%nat
  /\ connected_clients s' = [1; 3]%nat
  /\ closed_clients s' = []
  /\ (MCPClientEnhanced.client <$> heap s' !! 0%nat) = Some (Some 1%nat)
  /\ (MCPClientEnhanced.connected <$> heap s' !! 0%nat) = Some false.
Proof. vm_compute. repeat split. Qed.

(** * Further properties of the code *)

(** ** What a computation leaves alone *)

Lemma keeps_ret {A B} (f : State -> B) (a : A) : keeps f (ret a).
Proof. intros s. reflexivity. Qed.

Lemma keeps_throw {A B} (f : State -> B) e : keeps f (@throw A e).
Proof. intros s. reflexivity. Qed.

Lemma keeps_get {A B} (f : State -> B) (g : State -> A) : keeps f (get g).
Proof. intros s. reflexivity. Qed.

Lemma keeps_modify {B} (f : State -> B) g :
  (forall s, f (g s) = f s) -> keeps f (modify g).
Proof. intros H s. apply H. Qed.

Lemma keeps_bind {A C B} (f : State -> B) (m : M A) (k : A -> M C) :
  keeps f m -> (forall a, keeps f (k a)) -> keeps f (bind m k).
Proof.
  intros Hm Hk s. unfold bind. specialize (Hm s).
  destruct (m s) as [[a|e] s']; simpl in *; [|exact Hm].
  now rewrite Hk.
Qed.

Lemma keeps_try_catch {A B} (f : State -> B) (m : M A) h :
  keeps f m -> (forall e, keeps f (h e)) -> keeps f (try_catch m h).
Proof.
  intros Hm Hh s. unfold try_catch. specialize (Hm s).
  destruct (m s) as [[a|e] s']; simpl in *; [exact Hm|].
  now rewrite Hh.
Qed.

Lemma keeps_post {A B} (f : State -> B) (m : M A) s
    (Q : Outcome A -> State -> Prop) :
  keeps f m -> (forall o s', f s' = f s -> Q o s') -> post m s Q.
Proof. intros H HQ. apply HQ, H. Qed.

(** The structural steps of a proof of [keeps f m]. *)
Ltac keeps_step :=
  cbv beta zeta;
  lazymatch goal with
  | |- keeps _ (bind _ _) => apply keeps_bind; [|intros ?]
  | |- keeps _ (try_catch _ _) => apply keeps_try_catch; [|intros ?]
  | |- keeps _ (ret _) => apply keeps_ret
  | |- keeps _ (throw _) => apply keeps_throw
  | |- keeps _ (get _) => apply keeps_get
  | |- keeps _ (if ?b then _ else _) => destruct b
  | |- keeps _ (match ?x with _ => _ end) => destruct x
  end.

Section OAuthFrame.

Context (P : Platform) {B : Type} (f : State -> B).
Hypothesis beside : beside_oauth f.

Lemma keeps_Date_now : keeps f (Date_now P).
Proof. intros s. apply beside. Qed.

Lemma keeps_randomBytes n : keeps f (randomBytes P n).
Proof. intros s. apply beside. Qed.

Lemma keeps_fetch req : keeps f (fetch P req).
Proof.
  intros s. unfold fetch. destruct (network P (fetches s) req); apply beside.
Qed.

Lemma keeps_response_json r : keeps f (response_json r).
Proof. unfold response_json. destruct (json r); intros s; reflexivity. Qed.

Lemma keeps_read_of name j : keeps f (read_of name j).
Proof. unfold read_of. destruct j; intros s; reflexivity. Qed.

Lemma keeps_URL_new u : keeps f (URL_new P u).
Proof. unfold URL_new. destruct (new_URL P u); intros s; reflexivity. Qed.

Lemma keeps_discoverServerMetadata serverUrl custom :
  keeps f (discoverServerMetadata P serverUrl custom).
Proof. intros s. apply discoverServerMetadata_keeps; apply beside. Qed.

Lemma keeps_discoverServerMetadata_of serverUrl :
  keeps f (discoverServerMetadata_of P serverUrl).
Proof.
  destruct serverUrl; [apply keeps_discoverServerMetadata|].
  intros s. reflexivity.
Qed.

(** One step, structural or over a method already dealt with. *)
Ltac oauth_step :=
  first
    [ apply keeps_Date_now | apply keeps_randomBytes | apply keeps_fetch
    | apply keeps_response_json | apply keeps_read_of | apply keeps_URL_new
    | apply keeps_discoverServerMetadata
    | apply keeps_discoverServerMetadata_of
    | apply keeps_modify; intros; apply beside
    | keeps_step ].

Lemma keeps_expiry_of tokens0 : keeps f (expiry_of P tokens0).
Proof. unfold expiry_of. repeat oauth_step. Qed.

Lemma keeps_past expiresAt margin : keeps f (past P expiresAt margin).
Proof. unfold past. repeat oauth_step. Qed.

Lemma keeps_storeTokens serverName tokenData :
  keeps f (storeTokens serverName tokenData).
Proof. unfold storeTokens. repeat oauth_step. Qed.

Lemma keeps_registerClient serverUrl clientMetadata :
  keeps f (registerClient P serverUrl clientMetadata).
Proof. unfold registerClient. repeat oauth_step. Qed.

Lemma keeps_initiateAuthorizationFlow serverName serverUrl options :
  keeps f (initiateAuthorizationFlow P serverName serverUrl options).
Proof.
  unfold initiateAuthorizationFlow, generateCodeVerifier, generateState,
    generateRandomString.
  repeat first [ apply keeps_registerClient | oauth_step ].
Qed.

Lemma keeps_handleCallback code state :
  keeps f (handleCallback P code state).
Proof.
  unfold handleCallback.
  repeat first [ apply keeps_expiry_of | apply keeps_storeTokens | oauth_step ].
Qed.

Lemma keeps_clientCredentialsGrant serverName serverUrl clientId clientSecret
    scopes :
  keeps f (clientCredentialsGrant P serverName serverUrl clientId clientSecret
             scopes).
Proof.
  unfold clientCredentialsGrant.
  repeat first [ apply keeps_expiry_of | apply keeps_storeTokens | oauth_step ].
Qed.

Lemma keeps_refreshAccessToken serverName :
  keeps f (refreshAccessToken P serverName).
Proof.
  unfold refreshAccessToken.
  repeat first [ apply keeps_expiry_of | apply keeps_storeTokens | oauth_step ].
Qed.

Lemma keeps_getAccessToken serverName : keeps f (getAccessToken P serverName).
Proof.
  unfold getAccessToken.
  repeat first [ apply keeps_past | apply keeps_refreshAccessToken
               | oauth_step ].
Qed.

Lemma keeps_hasValidTokens serverName : keeps f (hasValidTokens P serverName).
Proof. unfold hasValidTokens. repeat first [ apply keeps_past | oauth_step ]. Qed.

Lemma keeps_revokeTokens serverName : keeps f (revokeTokens P serverName).
Proof. unfold revokeTokens. repeat oauth_step. Qed.

Lemma keeps_cleanupExpiredAuthorizations :
  keeps f (cleanupExpiredAuthorizations P).
Proof. unfold cleanupExpiredAuthorizations. repeat oauth_step. Qed.

End OAuthFrame.

Section ClientFrame.

Context (P : Platform) {B : Type} (f : State -> B).
Hypothesis beside : beside_clients f.

Let beside_o : beside_oauth f := beside_oauth_part f beside.

Lemma keeps_deref this : keeps f (deref this).
Proof. intros s. unfold deref. destruct (heap s !! this); reflexivity. Qed.

Lemma keeps_assign this g : keeps f (assign this g).
Proof. intros s. apply beside. Qed.

Lemma keeps_fresh_ref : keeps f fresh_ref.
Proof. intros s. apply beside. Qed.

Lemma keeps_sdk_call ev : keeps f (sdk_call P ev).
Proof.
  intros s. unfold sdk_call. destruct (sdk P (sdk_calls s)); apply beside_o.
Qed.

(** One step over the client's own primitives or a method of the OAuth
    manager. *)
Ltac client_step :=
  first
    [ apply keeps_deref | apply keeps_assign | apply keeps_fresh_ref
    | apply keeps_sdk_call
    | solve [eapply keeps_fetch; exact beside_o]
    | solve [eapply keeps_URL_new]
    | solve [eapply keeps_getAccessToken; exact beside_o]
    | solve [eapply keeps_hasValidTokens; exact beside_o]
    | solve [eapply keeps_revokeTokens; exact beside_o]
    | solve [eapply keeps_refreshAccessToken; exact beside_o]
    | solve [eapply keeps_initiateAuthorizationFlow; exact beside_o]
    | solve [eapply keeps_clientCredentialsGrant; exact beside_o]
    | apply keeps_modify; intros; apply beside
    | keeps_step ].

Lemma keeps_new_MCPClientEnhanced name config :
  keeps f (new_MCPClientEnhanced P name config).
Proof. unfold new_MCPClientEnhanced. repeat client_step. Qed.

Lemma keeps_buildAuthHeaders this : keeps f (buildAuthHeaders P this).
Proof. unfold buildAuthHeaders. repeat client_step. Qed.

Lemma keeps_requiresOAuthAuthorization this :
  keeps f (requiresOAuthAuthorization P this).
Proof. unfold requiresOAuthAuthorization. repeat client_step. Qed.

Lemma keeps_initiateOAuthFlow this : keeps f (initiateOAuthFlow P this).
Proof. unfold initiateOAuthFlow. repeat client_step. Qed.

Lemma keeps_performClientCredentialsGrant this :
  keeps f (performClientCredentialsGrant P this).
Proof. unfold performClientCredentialsGrant. repeat client_step. Qed.

Lemma keeps_probeForOAuthRequirements this :
  keeps f (probeForOAuthRequirements P this).
Proof. unfold probeForOAuthRequirements. repeat client_step. Qed.

Lemma keeps_createTransport this headers :
  keeps f (createTransport P this headers).
Proof. unfold createTransport. repeat client_step. Qed.

Lemma keeps_connect this : keeps f (connect P this).
Proof.
  unfold connect.
  repeat first
    [ apply keeps_buildAuthHeaders | apply keeps_requiresOAuthAuthorization
    | apply keeps_initiateOAuthFlow | apply keeps_performClientCredentialsGrant
    | apply keeps_probeForOAuthRequirements | apply keeps_createTransport
    | client_step ].
Qed.

Lemma keeps_client_disconnect this : keeps f (disconnect P this).
Proof. unfold disconnect. repeat client_step. Qed.

Lemma keeps_isConnected this : keeps f (isConnected this).
Proof. unfold isConnected. repeat client_step. Qed.

Lemma keeps_ensureConnected this : keeps f (ensureConnected P this).
Proof.
  unfold ensureConnected.
  repeat first [ apply keeps_isConnected | apply keeps_connect | client_step ].
Qed.

Lemma keeps_handleError this error : keeps f (handleError P this error).
Proof.
  unfold handleError. repeat first [ apply keeps_connect | client_step ].
Qed.

Lemma keeps_listTools this : keeps f (listTools P this).
Proof.
  unfold listTools.
  repeat first [ apply keeps_ensureConnected | apply keeps_handleError
               | client_step ].
Qed.

End ClientFrame.

Lemma connections_beside_clients : beside_clients connections.
Proof. repeat split. Qed.

Lemma configs_beside_clients : beside_clients configs.
Proof. repeat split. Qed.

Lemma heap_beside_oauth : beside_oauth heap.
Proof. repeat split. Qed.

Lemma tokens_beside_registry :
  (forall g s, tokens (with_connections g s) = tokens s)
  /\ (forall g s, tokens (with_configs g s) = tokens s).
Proof. split; reflexivity. Qed.

(** ** Symbolic execution, for any platform *)

Lemma post_deref this s (Q : Outcome MCPClientEnhanced.t -> State -> Prop) :
  (forall me, heap s !! this = Some me -> Q (Return me) s) ->
  (heap s !! this = None ->
   Q (Throw (Error.TypeError "Cannot read properties of undefined")) s) ->
  post (deref this) s Q.
Proof.
  intros Hs Hn. unfold post, deref. destruct (heap s !! this); simpl; auto.
Qed.

Lemma post_sdk_call P ev s (Q : Outcome ServerSide -> State -> Prop) :
  (forall r, sdk P (sdk_calls s) = SdkOk r ->
             Q (Return r) (consumed 0 0 0 1 [ev] s)) ->
  (forall e, sdk P (sdk_calls s) = SdkThrows e ->
             Q (Throw e) (consumed 0 0 0 1 [ev] s)) ->
  post (sdk_call P ev) s Q.
Proof.
  intros Hr He. unfold post, sdk_call.
  destruct (sdk P (sdk_calls s)); simpl; auto.
Qed.

Lemma post_fresh_ref s (Q : Outcome nat -> State -> Prop) :
  Q (Return (allocated s)) (allocate s) -> post fresh_ref s Q.
Proof. exact id. Qed.

Lemma post_deref_known this s me
    (Q : Outcome MCPClientEnhanced.t -> State -> Prop) :
  heap s !! this = Some me -> Q (Return me) s -> post (deref this) s Q.
Proof. intros E H. unfold post, deref. now rewrite E. Qed.

Ltac exec :=
  cbv beta iota;
  lazymatch goal with
  | |- post (Date_now _) _ _ => apply post_Date_now
  | |- post (randomBytes _ _) _ _ => apply post_randomBytes
  | |- post (fetch _ _) _ _ => apply post_fetch; [intros ? ? | intros ? ?]
  | |- post (response_json _) _ _ =>
      apply post_response_json; [intros ? ? | intros ? | intros ?]
  | |- post (read_of _ (Some _)) _ _ => unfold read_of
  | |- post (read_of _ None) _ _ => unfold read_of
  | |- post (read_of _ _) _ _ =>
      apply post_read_of; [intros ? ? | intros ?]
  | |- post (URL_new _ _) _ _ => apply post_URL_new; [intros ? ? | intros ?]
  | |- post (deref _) _ _ => apply post_deref; [intros ? ? | intros ?]
  | |- post (sdk_call _ _) _ _ => apply post_sdk_call; [intros ? ? | intros ? ?]
  | |- post (assign _ _) _ _ => apply post_modify
  | |- post fresh_ref _ _ => apply post_fresh_ref
  | |- post (expiry_of _ _) _ _ => unfold expiry_of
  | |- post (past _ _ _) _ _ => unfold past
  | |- _ => step
  end.

(** Go over [m] knowing only that it keeps [f]. *)
Ltac over f lemma :=
  lazymatch goal with
  | |- post (bind _ _) _ _ =>
      apply post_bind; apply (keeps_post f); [solve [lemma] |]
  | |- post (try_catch _ _) _ _ =>
      apply post_try_catch; apply (keeps_post f); [solve [lemma] |]
  | |- post _ _ _ => apply (keeps_post f); [solve [lemma] |]
  end.

Section Further.

Context (P : Platform).

(** *** Tokens *)

(** X1. Without a stored record [getAccessToken] answers null and changes
    nothing. With a record that has no expiry, or whose expiry is more than
    five minutes away, it answers the stored access token; the only effect
    is the reading of the clock: no request is sent and no map changes. *)
Theorem getAccessToken_without_refresh serverName s :
  (tokens s !! serverName = None ->
   getAccessToken P serverName s = (Return None, s))
  /\ (forall tokenData,
        tokens s !! serverName = Some tokenData ->
        truthy (TokenRecord.expiresAt tokenData) = false ->
        getAccessToken P serverName s
        = (Return (access_token (TokenRecord.response tokenData)), s))
  /\ (forall tokenData e,
        tokens s !! serverName = Some tokenData ->
        TokenRecord.expiresAt tokenData = Some e ->
        e <> 0%Z ->
        (clock P (reads s) <= e - 5 * 60 * 1000)%Z ->
        getAccessToken P serverName s
        = (Return (access_token (TokenRecord.response tokenData)),
           consumed 1 0 0 0 [] s)).
Proof.
  repeat split.
  - intros E. unfold getAccessToken, bind, get. now rewrite E.
  - intros tokenData E Hf. unfold getAccessToken, bind at 1, get. rewrite E.
    unfold bind, past. now rewrite Hf.
  - intros tokenData e E He Hz Hle.
    unfold getAccessToken, bind at 1, get. rewrite E.
    unfold bind at 1. rewrite He, (past_due P e tokenData) by exact He.
    apply Z.eqb_neq in Hz. rewrite Hz, Z.gtb_ltb.
    apply Z.ltb_ge in Hle. rewrite Hle. reflexivity.
Qed.

Lemma discover_keeps_oauth_maps serverUrl custom :
  keeps oauth_maps (discoverServerMetadata P serverUrl custom).
Proof. intros s. apply discoverServerMetadata_keeps; reflexivity. Qed.

Lemma discover_of_keeps_oauth_maps serverUrl :
  keeps oauth_maps (discoverServerMetadata_of P serverUrl).
Proof.
  destruct serverUrl; [apply discover_keeps_oauth_maps|].
  intros s. reflexivity.
Qed.

Lemma refresh_success_record serverName s newTokens s' :
  refreshAccessToken P serverName s = (Return newTokens, s') ->
  exists old new,
    tokens s !! serverName = Some old
    /\ tokens s' = <[serverName := new]> (tokens s)
    /\ TokenRecord.response new = spread (TokenRecord.response old) newTokens.
Proof.
  intros Hrun.
  refine (post_run _ _ _ _
            (fun o s' =>
               match o with
               | Return newTokens =>
                   exists old new, tokens s !! serverName = Some old /\ _
               | Throw _ => True
               end) _ Hrun).
  unfold refreshAccessToken.
  exec. exec. exec; [|exact I]. exec; [exact I|].
  over oauth_maps ltac:(apply discover_of_keeps_oauth_maps).
  intros [metadata|e] sm Hsm; [|exact I].
  assert (tokens sm = tokens s) as Htok by (unfold oauth_maps in *; congruence).
  repeat exec; try exact I;
    (eexists _, _; split; [reflexivity|]; cbn -[spread]; rewrite Htok;
     split; reflexivity).
Qed.


(** X3. When the record is due and the refresh succeeds, [getAccessToken]
    answers the access token of the stored record as the refresh left it:
    the one of the response when it carries one, null when the response
    carries [access_token: null], and the old one when the response does
    not carry the property. *)
Theorem getAccessToken_after_refresh serverName s tokenData newTokens s' :
  tokens s !! serverName = Some tokenData ->
  due (clock P (reads s)) tokenData ->
  truthy (refresh_token (TokenRecord.response tokenData)) = true ->
  refreshAccessToken P serverName (consumed 1 0 0 0 [] s)
  = (Return newTokens, s') ->
  getAccessToken P serverName s
  = (Return (match carries "access_token" access_token newTokens with
             | Value a => Some a
             | Null => None
             | Absent => access_token (TokenRecord.response tokenData)
             end), s').
Proof.
  intros Hs Hd Hr Hrun.
  rewrite (getAccessToken_refreshes P _ _ _ Hs Hd Hr), Hrun.
  destruct (refresh_success_record _ _ _ _ Hrun)
    as (old & new & Hold & -> & Hresp).
  change (tokens (consumed 1 0 0 0 [] s)) with (tokens s) in Hold.
  rewrite Hs in Hold. injection Hold as <-.
  rewrite lookup_insert_eq. cbn. rewrite Hresp. reflexivity.
Qed.

(** *** The callback *)

(** Discovery throws nothing but the error of the URL parser. *)
Lemma discoverServerMetadata_throws serverUrl custom s :
  post (discoverServerMetadata P serverUrl custom) s
    (fun o s' =>
       match o with
       | Throw e => e = Error.TypeError "Invalid URL" /\ s' = s
                    /\ new_URL P serverUrl = None
       | Return _ => new_URL P serverUrl <> None
       end).
Proof.
  unfold discoverServerMetadata, URL_new.
  destruct (new_URL P serverUrl) as [url|] eqn:Hurl.
  2:{ repeat exec; auto. }
  exec. exec. exec. exec.
  eapply post_weaken; [apply tryDiscoveryUrls_found|].
  intros [[metadata|]|e] s1; cbv beta iota; [| |contradiction].
  { intros _. exec. discriminate. }
  intros _. exec.
  eapply post_weaken; [apply probeChallenge_found|].
  intros [[metadata|]|e] s2; cbv beta iota; [| |contradiction].
  { intros _. exec. discriminate. }
  intros _. repeat exec. discriminate.
Qed.

(** X4. A callback that arrives after the expiry of the pending
    authorization (strictly after: the millisecond of the expiry is still
    in time) fails with the expiry error, removes the pending authorization
    and does nothing else: no request is sent and no token is stored. A
    callback in time never fails with that error. *)
Theorem handleCallback_expiry code state s pending :
  pendingAuthorizations s !! state = Some pending ->
  ((clock P (reads s) > PendingAuthorization.expiresAt pending)%Z ->
   handleCallback P code state s
   = (Throw (Error.new "Authorization request has expired"),
      with_pendingAuthorizations (delete state) (consumed 1 0 0 0 [] s)))
  /\ ((clock P (reads s) <= PendingAuthorization.expiresAt pending)%Z ->
      (handleCallback P code state s).1
      <> Throw (Error.new "Authorization request has expired")).
Proof.
  intros Hp. split.
  - intros Hlate. unfold handleCallback, bind at 1, get. rewrite Hp.
    unfold bind at 1, Date_now. apply Z.gtb_gt in Hlate. cbn. rewrite Hlate.
    reflexivity.
  - intros Hin.
    change (post (handleCallback P code state) s
              (fun o _ =>
                 o <> Throw (Error.new "Authorization request has expired"))).
    unfold handleCallback. exec. exec. rewrite Hp. exec. exec.
    rewrite Z.gtb_ltb. apply Z.ltb_ge in Hin. rewrite Hin.
    exec. exec.
    eapply post_weaken; [apply discoverServerMetadata_throws|].
    intros [metadata|e] s1; cbv beta iota.
    2:{ intros (-> & _). repeat exec. discriminate. }
    intros _. repeat exec; discriminate.
Qed.

(** X5. [handleCallback] changes the pending authorizations only by removing
    the entry of its state, and the tokens only by storing the record of
    the server on success: a failed callback stores nothing, and the
    records of other servers are never touched. *)
Theorem handleCallback_footprint code state s :
  let run := handleCallback P code state s in
  pendingAuthorizations run.2 = delete state (pendingAuthorizations s)
  /\ match run.1 with
     | Throw _ => tokens run.2 = tokens s
     | Return (serverName, _) =>
         exists record, tokens run.2 = <[serverName := record]> (tokens s)
     end.
Proof.
  change (post (handleCallback P code state) s
            (fun o s' =>
               pendingAuthorizations s'
               = delete state (pendingAuthorizations s)
               /\ match o with
                  | Throw _ => tokens s' = tokens s
                  | Return (serverName, _) =>
                      exists record,
                        tokens s' = <[serverName := record]> (tokens s)
                  end)).
  unfold handleCallback.
  exec. exec. exec.
  2:{ exec. split; [|reflexivity]. symmetry. now apply delete_id. }
  exec. exec. exec; [repeat exec; split; reflexivity|].
  exec.
  over oauth_maps ltac:(apply discover_keeps_oauth_maps).
  intros [metadata|e] sm Hsm;
    assert (pendingAuthorizations sm = pendingAuthorizations s
            /\ tokens sm = tokens s) as [Hpen Htok]
      by (unfold oauth_maps in Hsm; cbn in Hsm; split; congruence);
    repeat exec; cbn; rewrite ?Hpen, ?Htok; split; eauto.
Qed.

(** *** Discovery *)

Lemma discoveryUrls_length url baseUrl custom :
  2 <= length (discoveryUrls url baseUrl custom) <= 4.
Proof.
  unfold discoveryUrls. rewrite !length_app.
  destruct custom as [u|]; [destruct (truthy u)|];
    destruct (_ && _); [destruct (truthy (path_prefix _))| | destruct (truthy (path_prefix _))| | destruct (truthy (path_prefix _))|];
    cbn; lia.
Qed.

Lemma tryDiscoveryUrls_requests serverUrl urls s :
  post (tryDiscoveryUrls P serverUrl urls) s
    (fun o s' =>
       match o with
       | Return (Some _) => fetches s < fetches s' <= fetches s + length urls
       | Return None => fetches s' = fetches s + length urls
       | Throw _ => False
       end).
Proof.
  revert s. induction urls as [|u urls IH]; intros s; [cbn; lia|].
  cbn [tryDiscoveryUrls].
  assert (Hrest : forall s', fetches s' = S (fetches s) ->
            post (tryDiscoveryUrls P serverUrl urls) s'
              (fun o s'' =>
                 match o with
                 | Return (Some _) =>
                     fetches s < fetches s'' <= fetches s + length (u :: urls)
                 | Return None =>
                     fetches s'' = fetches s + length (u :: urls)
                 | Throw _ => False
                 end)).
  { intros s' E. eapply post_weaken; [apply IH|].
    intros [[md|]|e] s''; cbn [length]; lia. }
  repeat exec; try (apply Hrest; reflexivity).
  cbn. lia.
Qed.

Lemma probeChallenge_requests serverUrl baseUrl s :
  post (probeChallenge P serverUrl baseUrl) s
    (fun o s' =>
       match o with
       | Return _ => fetches s' = S (fetches s)
       | Throw _ => False
       end).
Proof. unfold probeChallenge. repeat exec; reflexivity. Qed.

(** X6. Every discovery for a server URL that parses sends at least one
    request and at most five (at most four discovery documents, then the
    probe of the server), whatever the metadata map already holds for that
    URL: the cache is written, never consulted. *)
Theorem discoverServerMetadata_requests serverUrl custom s url :
  new_URL P serverUrl = Some url ->
  let s' := (discoverServerMetadata P serverUrl custom s).2 in
  fetches s < fetches s' <= fetches s + 5.
Proof.
  intros Hurl.
  change (post (discoverServerMetadata P serverUrl custom) s
            (fun _ s' => fetches s < fetches s' <= fetches s + 5)).
  unfold discoverServerMetadata, URL_new. rewrite Hurl.
  pose proof (discoveryUrls_length url (baseUrl_of url) custom) as Hlen.
  exec. exec. exec. exec.
  eapply post_weaken; [apply tryDiscoveryUrls_requests|].
  intros [[metadata|]|e] s1; cbv beta iota; [| |contradiction].
  { intros H. exec. lia. }
  intros H1. exec.
  eapply post_weaken; [apply probeChallenge_requests|].
  intros [[metadata|]|e] s2; cbv beta iota; [| |contradiction].
  { intros H2. exec. lia. }
  intros H2. repeat exec. cbn. lia.
Qed.

Lemma tryDiscoveryUrls_first serverUrl metadataUrl rest s r :
  let request := discovery_request metadataUrl in
  let asked := consumed 0 1 0 0 [EvFetch request] s in
  network P (fetches s) request = Resolved r ->
  ok r = true ->
  tryDiscoveryUrls P serverUrl (metadataUrl :: rest) s
  = match json r with
    | JsonValue metadata =>
        (Return (Some metadata),
         with_serverMetadata (insert serverUrl (Some metadata)) asked)
    | JsonNull =>
        tryDiscoveryUrls P serverUrl rest
          (with_serverMetadata (insert serverUrl None) asked)
    | Unparseable => tryDiscoveryUrls P serverUrl rest asked
    end.
Proof.
  intros request asked Hnet Hok. cbn [tryDiscoveryUrls].
  unfold bind at 1, try_catch, bind at 1, fetch.
  fold (discovery_request metadataUrl). fold request.
  rewrite Hnet, Hok. unfold bind at 1, response_json.
  destruct (json r); reflexivity.
Qed.

(** X7. A custom metadata URL is asked first. When it answers with a
    success status and a body that is a JSON value other than [null], that
    body is the result: it is cached under the server URL after that single
    request. When the body is [null], [null] is cached and discovery goes
    on as without a custom URL; when the body does not parse, discovery
    goes on likewise, with nothing cached. *)
Theorem discoverServerMetadata_custom_first serverUrl metadataUrl s url r :
  new_URL P serverUrl = Some url ->
  metadataUrl <> "" ->
  let request := discovery_request metadataUrl in
  let asked := consumed 0 1 0 0 [EvFetch request] s in
  network P (fetches s) request = Resolved r ->
  ok r = true ->
  discoverServerMetadata P serverUrl (Some metadataUrl) s
  = match json r with
    | JsonValue metadata =>
        (Return metadata,
         with_serverMetadata (insert serverUrl (Some metadata)) asked)
    | JsonNull =>
        discoverServerMetadata P serverUrl None
          (with_serverMetadata (insert serverUrl None) asked)
    | Unparseable => discoverServerMetadata P serverUrl None asked
    end.
Proof.
  intros Hurl Hne request asked Hnet Hok.
  assert (discoveryUrls url (baseUrl_of url) (Some metadataUrl)
          = metadataUrl :: discoveryUrls url (baseUrl_of url) None) as Hurls.
  { unfold discoveryUrls. apply String.eqb_neq in Hne.
    unfold truthy at 1, truthy_string. now rewrite Hne. }
  unfold discoverServerMetadata, try_catch, bind at 1 3 5, URL_new.
  rewrite Hurl. cbn [ret]. unfold bind at 1 3 5.
  rewrite Hurls, (tryDiscoveryUrls_first _ _ _ _ r Hnet Hok).
  fold request. fold asked.
  destruct (json r); reflexivity.
Qed.

(** X8. Discovery throws exactly when the server URL does not parse; it then
    throws the error of the URL parser out of its own catch block, having
    sent nothing and cached nothing. *)
Theorem discoverServerMetadata_throws_iff serverUrl custom s :
  ((exists e s', discoverServerMetadata P serverUrl custom s = (Throw e, s'))
   <-> new_URL P serverUrl = None)
  /\ (new_URL P serverUrl = None ->
      discoverServerMetadata P serverUrl custom s
      = (Throw (Error.TypeError "Invalid URL"), s)).
Proof.
  pose proof (discoverServerMetadata_throws serverUrl custom s) as H.
  unfold post in H.
  destruct (discoverServerMetadata P serverUrl custom s) as [[md|e] s'];
    cbn in H.
  - split; [split|]; [intros (e & s'' & [=]) | intros E; contradiction ..].
  - destruct H as (-> & -> & Hn).
    split; [split|]; eauto.
Qed.

(** *** Client registration and the start of a flow *)

Lemma registerClient_post serverUrl clientMetadata s :
  post (registerClient P serverUrl clientMetadata) s
    (fun o s' =>
       pendingAuthorizations s' = pendingAuthorizations s
       /\ tokens s' = tokens s
       /\ match o with
          | Throw _ => False
          | Return (Some registration) =>
              clientRegistrations s'
              = <[serverUrl := Some registration]> (clientRegistrations s)
              /\ answered P (JsonValue registration)
          | Return None =>
              clientRegistrations s' = clientRegistrations s
              \/ (clientRegistrations s'
                  = <[serverUrl := None]> (clientRegistrations s)
                  /\ answered P JsonNull)
          end).
Proof.
  unfold registerClient. exec.
  over oauth_maps ltac:(apply discover_keeps_oauth_maps).
  intros [metadata|e] sm Hsm;
    assert (pendingAuthorizations sm = pendingAuthorizations s
            /\ tokens sm = tokens s
            /\ clientRegistrations sm = clientRegistrations s)
      as (Hpen & Htok & Hreg)
      by (unfold oauth_maps in Hsm; cbn in Hsm; repeat split; congruence);
    repeat exec; cbn; rewrite ?Hpen, ?Htok, ?Hreg;
    repeat split; auto;
    [ eexists _, _, _; eauto
    | right; split; [reflexivity | eexists _, _, _; eauto] ].
Qed.

(** X9. Dynamic client registration never throws: whatever goes wrong (the
    server URL does not parse, no registration endpoint, the request is
    rejected or refused, the body does not parse or is [null]) the answer
    is null. The cache of registrations is written exactly when the
    registration request is answered with a success status and a body
    that parses: with the registration that is returned, or with [null]
    when the body is [null], in which case null is returned. Pending
    authorizations and tokens are not touched. *)
Theorem registerClient_never_throws serverUrl clientMetadata s :
  let run := registerClient P serverUrl clientMetadata s in
  pendingAuthorizations run.2 = pendingAuthorizations s
  /\ tokens run.2 = tokens s
  /\ match run.1 with
     | Throw _ => False
     | Return (Some registration) =>
         clientRegistrations run.2
         = <[serverUrl := Some registration]> (clientRegistrations s)
         /\ answered P (JsonValue registration)
     | Return None =>
         clientRegistrations run.2 = clientRegistrations s
         \/ (clientRegistrations run.2
             = <[serverUrl := None]> (clientRegistrations s)
             /\ answered P JsonNull)
     end.
Proof. apply registerClient_post. Qed.

Lemma find_filter_other k k' (ps : list (string * string)) :
  k <> k' ->
  List.find (fun p => String.eqb k (fst p))
    (filter (fun p => negb (String.eqb k' (fst p))) ps)
  = List.find (fun p => String.eqb k (fst p)) ps.
Proof.
  intros Hne. induction ps as [|[k1 v1] ps IH]; [reflexivity|].
  rewrite filter_cons. cbn [fst List.find].
  destruct (String.eqb k k1) eqn:E.
  - apply String.eqb_eq in E. subst k1.
    apply not_eq_sym, String.eqb_neq in Hne. rewrite Hne. cbn.
    destruct (decide _) as [_|n]; [|destruct n; exact I].
    cbn. now rewrite String.eqb_refl.
  - destruct (decide _); [cbn; rewrite E|]; exact IH.
Qed.

Lemma find_set_params_same k v ps :
  List.find (fun p => String.eqb k (fst p)) (URL.set_params k v ps)
  = Some (k, v).
Proof.
  induction ps as [|[k1 v1] ps IH]; cbn.
  - now rewrite String.eqb_refl.
  - destruct (String.eqb k k1) eqn:E; cbn.
    + now rewrite String.eqb_refl.
    + now rewrite E.
Qed.

Lemma find_set_params_other k k' v ps :
  k <> k' ->
  List.find (fun p => String.eqb k (fst p)) (URL.set_params k' v ps)
  = List.find (fun p => String.eqb k (fst p)) ps.
Proof.
  intros Hne. induction ps as [|[k1 v1] ps IH]; cbn.
  - apply String.eqb_neq in Hne. now rewrite Hne.
  - destruct (String.eqb k' k1) eqn:E; cbn.
    + apply String.eqb_eq in E. subst k1.
      apply String.eqb_neq in Hne. rewrite Hne.
      apply find_filter_other. now apply String.eqb_neq.
    + destruct (String.eqb k k1); [reflexivity | exact IH].
Qed.

Lemma searchParam_set_same k v u : searchParam k (URL.set k v u) = Some v.
Proof. unfold searchParam. cbn. now rewrite find_set_params_same. Qed.

Lemma searchParam_set_other k k' v u :
  k <> k' -> searchParam k (URL.set k' v u) = searchParam k u.
Proof. intros H. unfold searchParam. cbn. now rewrite find_set_params_other. Qed.

Lemma generateRandomString_length n s :
  post (generateRandomString P n) s
    (fun o s' =>
       exists str, o = Return str
                   /\ String.length str = ((4 * n + 2) / 3)%nat
                   /\ s' = consumed 0 0 n 0 [] s).
Proof.
  unfold generateRandomString. repeat exec.
  eexists. split; [reflexivity|]. split; [|reflexivity].
  now rewrite encode_length, length_map, length_seq.
Qed.

(** X10. A flow that starts binds its parts together: the authorization
    URL is the endpoint with the query parameters set to the response type
    [code], the client id and redirect URI of the pending authorization,
    the returned state, the challenge method S256 and the challenge, which
    is the SHA-256 challenge of the verifier kept in the pending
    authorization. The verifier has 43 characters and the state 22. *)
Theorem initiateAuthorizationFlow_binds serverName serverUrl options s info s' :
  initiateAuthorizationFlow P serverName serverUrl options s
  = (Return info, s') ->
  exists pending authUrl,
    pendingAuthorizations s'
    = <[AuthInfo.state info := pending]> (pendingAuthorizations s)
    /\ AuthInfo.authorizationUrl info = URL_toString P authUrl
    /\ searchParam "response_type" authUrl = Some "code"
    /\ searchParam "client_id" authUrl
       = Some (PendingAuthorization.clientId pending)
    /\ searchParam "redirect_uri" authUrl
       = Some (PendingAuthorization.redirectUri pending)
    /\ searchParam "state" authUrl = Some (AuthInfo.state info)
    /\ searchParam "code_challenge" authUrl
       = Some (generateCodeChallenge
                 (PendingAuthorization.codeVerifier pending))
    /\ searchParam "code_challenge_method" authUrl = Some "S256"
    /\ String.length (PendingAuthorization.codeVerifier pending) = 43%nat
    /\ String.length (AuthInfo.state info) = 22%nat
    /\ PendingAuthorization.serverName pending = serverName
    /\ PendingAuthorization.serverUrl pending = serverUrl
    /\ PendingAuthorization.clientSecret pending
       = Options.clientSecret options.
Proof.
  intros Hrun.
  refine (post_run _ _ _ _
            (fun o s' =>
               match o with
               | Return info => exists pending authUrl, _ /\ _
               | Throw _ => True
               end) _ Hrun).
  unfold initiateAuthorizationFlow.
  exec.
  over oauth_maps ltac:(apply discover_keeps_oauth_maps).
  intros [metadata|e] sm Hsm; [|exact I].
  assert (pendingAuthorizations sm = pendingAuthorizations s) as Hpen
    by (unfold oauth_maps in Hsm; cbn in Hsm; congruence).
  exec.
  apply post_weaken with
    (Q := fun o s1 => pendingAuthorizations s1 = pendingAuthorizations s).
  { exec; repeat exec; try exact Hpen;
      (eapply post_weaken; [apply registerClient_post|];
       intros [r|e] s1 (H1 & _ & H3); [|contradiction];
       exec; cbn; congruence). }
  intros [clientId|e] s1 Hs1; [|exact I].
  exec; [exec; exact I|].
  exec. unfold generateCodeVerifier.
  eapply post_weaken; [apply generateRandomString_length|].
  intros ? s2 (codeVerifier & -> & Hlen & ->).
  exec. unfold generateState.
  eapply post_weaken; [apply generateRandomString_length|].
  intros ? s3 (state & -> & Hlen' & ->).
  repeat exec; try exact I.
  eexists _, _. split; [cbn; rewrite Hs1; reflexivity|].
  split; [reflexivity|].
  cbn [AuthInfo.state PendingAuthorization.clientId
       PendingAuthorization.redirectUri PendingAuthorization.codeVerifier
       PendingAuthorization.serverName PendingAuthorization.serverUrl
       PendingAuthorization.clientSecret].
  assert (forall k u,
            k <> "scope" ->
            searchParam k
              match Options.scopes options with
              | Some (_ :: _ as scopes) =>
                  URL.set "scope" (String.concat " " scopes) u
              | _ => u
              end
            = searchParam k u) as Hscope.
  { intros k u Hk. destruct (Options.scopes options) as [[|sc scs]|];
      [reflexivity| |reflexivity].
    now apply searchParam_set_other. }
  repeat split; try assumption;
    rewrite Hscope by discriminate;
    repeat first [ apply searchParam_set_same
                 | rewrite searchParam_set_other by discriminate ].
Qed.

(** X11. Without a client id, neither given nor cached nor obtained by
    registration, the flow stops with its error before a pending
    authorization is stored: the pending authorizations are those of
    before. The flow never touches the tokens, however it ends. *)
Theorem initiateAuthorizationFlow_no_client_id serverName serverUrl options s :
  let run := initiateAuthorizationFlow P serverName serverUrl options s in
  tokens run.2 = tokens s
  /\ (run.1 = Throw (Error.new
        "No client ID available. Provide clientId or enable dynamic registration.")
      -> pendingAuthorizations run.2 = pendingAuthorizations s).
Proof.
  change (post (initiateAuthorizationFlow P serverName serverUrl options) s
            (fun o s' =>
               tokens s' = tokens s
               /\ (o = Throw (Error.new
        "No client ID available. Provide clientId or enable dynamic registration.")
                   -> pendingAuthorizations s' = pendingAuthorizations s))).
  unfold initiateAuthorizationFlow.
  exec.
  over oauth_maps ltac:(apply discover_keeps_oauth_maps).
  intros [metadata|e] sm Hsm;
    assert (pendingAuthorizations sm = pendingAuthorizations s
            /\ tokens sm = tokens s) as [Hpen Htok]
      by (unfold oauth_maps in Hsm; cbn in Hsm; split; congruence).
  2:{ split; [exact Htok | intros _; exact Hpen]. }
  exec.
  apply post_weaken with
    (Q := fun o s1 =>
            pendingAuthorizations s1 = pendingAuthorizations s
            /\ tokens s1 = tokens s
            /\ forall e, o <> Throw e).
  { exec; repeat exec;
      try (repeat split; [exact Hpen|exact Htok|discriminate]);
      (eapply post_weaken; [apply registerClient_post|];
       intros [r|e] s1 (H1 & H2 & H3); [|contradiction];
       exec; cbn; repeat split; [congruence|congruence|discriminate]). }
  intros [clientId|e] s1 (Hp1 & Ht1 & Hne); [|now destruct (Hne e)].
  exec; [exec; split; [exact Ht1 | intros _; exact Hp1]|].
  unfold generateCodeVerifier, generateState, generateRandomString.
  repeat exec; (split; [exact Ht1 | discriminate]).
Qed.

(** *** Revocation, expiry sweep, client credentials, status *)

(** X12. Revocation tells the authorization server only when a record is
    stored and the metadata cache already holds a revocation endpoint for
    its server: then exactly one request goes to that endpoint, and its
    outcome (even a rejection) is ignored. Otherwise nothing is sent; no
    discovery is ever made. In every case the call returns and the record
    is deleted. *)
Theorem revokeTokens_request serverName s :
  revokeTokens P serverName s
  = (Return tt,
     with_tokens (delete serverName)
       match cached_revocation_endpoint serverName s with
       | Some (endpoint, tokenData) =>
           consumed 0 1 0 0 [EvFetch (revocation_request endpoint tokenData)] s
       | None => s
       end).
Proof.
  unfold revokeTokens, cached_revocation_endpoint, bind at 1, get.
  destruct (tokens s !! serverName) as [tokenData|]; [|reflexivity].
  unfold bind at 1, try_catch, bind at 1, get.
  destruct (cached_metadata s (TokenRecord.serverUrl tokenData)) as [md|];
    [|reflexivity].
  cbn [mbind option_bind].
  destruct (revocation_endpoint md) as [endpoint|]; [|reflexivity].
  unfold truthy, truthy_option, truthy, truthy_string.
  destruct (String.eqb endpoint ""); [reflexivity|].
  cbn [negb]. unfold bind at 1, fetch, revocation_request. cbn [js_string default from_option].
  destruct (network P (fetches s) _); reflexivity.
Qed.

(** X13. The sweep of pending authorizations reads the clock once and
    removes exactly the entries whose expiry is strictly before that
    reading, the same comparison by which a callback is refused as
    expired; the entries it keeps are unchanged and the tokens are not
    touched. *)
Theorem cleanupExpiredAuthorizations_spec s state :
  let run := cleanupExpiredAuthorizations P s in
  let now := clock P (reads s) in
  run.1 = Return tt
  /\ reads run.2 = S (reads s)
  /\ tokens run.2 = tokens s
  /\ pendingAuthorizations run.2 !! state
     = match pendingAuthorizations s !! state with
       | Some pending =>
           if (now >? PendingAuthorization.expiresAt pending)%Z then None
           else Some pending
       | None => None
       end.
Proof.
  cbn. repeat split.
  destruct (pendingAuthorizations s !! state) as [pending|] eqn:E.
  - destruct (_ >? _)%Z eqn:Hlate.
    + apply map_lookup_filter_None. right. intros x Hx. cbn.
      rewrite E in Hx. injection Hx as <-. apply Z.gtb_gt in Hlate. lia.
    + apply map_lookup_filter_Some. split; [exact E|]. cbn.
      rewrite Z.gtb_ltb in Hlate. now apply Z.ltb_ge in Hlate.
  - apply map_lookup_filter_None. now left.
Qed.

(** X14. A client-credentials grant stores a record only when it returns:
    whatever makes it throw (discovery, a rejected request, a refusal, a
    body that does not parse or is [null]) leaves the tokens as they were.
    The record it stores is the response it returns with the properties
    [serverUrl], [clientId], [clientSecret] and [grantType] written over
    it: the credentials it was called with and the grant kind
    [client_credentials]. Pending authorizations are never touched. *)
Theorem clientCredentialsGrant_footprint serverName serverUrl clientId
    clientSecret scopes s :
  let run :=
    clientCredentialsGrant P serverName serverUrl clientId clientSecret
      scopes s in
  pendingAuthorizations run.2 = pendingAuthorizations s
  /\ match run.1 with
     | Throw _ => tokens run.2 = tokens s
     | Return response =>
         exists record,
           tokens run.2 = <[serverName := record]> (tokens s)
           /\ TokenRecord.response record
              = set_grantType "client_credentials"
                  (set_record_fields serverUrl clientId (Some clientSecret)
                     response)
           /\ TokenRecord.serverUrl record = Some serverUrl
           /\ TokenRecord.clientId record = Some clientId
           /\ TokenRecord.clientSecret record = Some clientSecret
           /\ TokenRecord.grantType record = Some "client_credentials"
     end.
Proof.
  change (post (clientCredentialsGrant P serverName serverUrl clientId
                  clientSecret scopes) s
            (fun o s' =>
               pendingAuthorizations s' = pendingAuthorizations s
               /\ match o with
                  | Throw _ => tokens s' = tokens s
                  | Return response =>
                      exists record,
                        tokens s' = <[serverName := record]> (tokens s)
                        /\ TokenRecord.response record
                           = set_grantType "client_credentials"
                               (set_record_fields serverUrl clientId
                                  (Some clientSecret) response)
                        /\ TokenRecord.serverUrl record = Some serverUrl
                        /\ TokenRecord.clientId record = Some clientId
                        /\ TokenRecord.clientSecret record = Some clientSecret
                        /\ TokenRecord.grantType record
                           = Some "client_credentials"
                  end)).
  unfold clientCredentialsGrant. exec.
  over oauth_maps ltac:(apply discover_keeps_oauth_maps).
  intros [metadata|e] sm Hsm;
    assert (pendingAuthorizations sm = pendingAuthorizations s
            /\ tokens sm = tokens s) as [Hpen Htok]
      by (unfold oauth_maps in Hsm; cbn in Hsm; split; congruence);
    repeat exec; cbn; rewrite ?Hpen, ?Htok; split; try reflexivity;
    eexists; (split; [reflexivity|]); repeat split.
Qed.

(** X15. The status report and [hasValidTokens] read the same record and the
    same clock: whenever the report is produced, its [authenticated] is the
    answer of [hasValidTokens], except for a record past its expiry whose
    refresh token is the empty string, which [hasValidTokens] accepts and
    the report does not. The report fails only when the expiry is outside
    the range of dates. *)
Theorem getTokenStatus_agrees (toISOString : Z -> option string) serverName s :
  match (getTokenStatus P toISOString serverName s).1 with
  | Return status =>
      (getTokenStatus P toISOString serverName s).2
      = (hasValidTokens P serverName s).2
      /\ ((hasValidTokens P serverName s).1
          = Return (TokenStatus.authenticated status)
          \/ exists tokenData e,
               tokens s !! serverName = Some tokenData
               /\ refresh_token (TokenRecord.response tokenData) = Some ""
               /\ TokenRecord.expiresAt tokenData = Some e
               /\ (clock P (reads s) > e)%Z
               /\ TokenStatus.authenticated status = false
               /\ (hasValidTokens P serverName s).1 = Return true)
  | Throw e =>
      e = Error.mk "RangeError" "Invalid time value" None None None None
      /\ exists tokenData t,
           tokens s !! serverName = Some tokenData
           /\ TokenRecord.expiresAt tokenData = Some t
           /\ toISOString t = None
  end.
Proof.
  unfold getTokenStatus, hasValidTokens, past, bind, get, Date_now, ret, throw.
  destruct (tokens s !! serverName) as [tokenData|] eqn:E; cbn [fst snd].
  2:{ split; [reflexivity | left; reflexivity]. }
  destruct (TokenRecord.expiresAt tokenData) as [e|] eqn:He.
  2:{ cbn. split; [reflexivity | left; reflexivity]. }
  assert (truthy (Some e) = negb (e =? 0)%Z) as Ht by reflexivity.
  rewrite !Ht.
  destruct (e =? 0)%Z eqn:Hz; cbn [negb].
  { cbn. split; [reflexivity | left; reflexivity]. }
  cbn [default from_option]. unfold id. rewrite ?Z.sub_0_r.
  destruct (toISOString e) eqn:Hiso; cbn [fst snd].
  2:{ split; [reflexivity|]. eauto. }
  destruct (clock P (reads s) >? e)%Z eqn:Hlate; cbn.
  2:{ split; [reflexivity | left; reflexivity]. }
  split; [reflexivity|].
  destruct (refresh_token (TokenRecord.response tokenData)) as [r|] eqn:Hr.
  2:{ left. reflexivity. }
  assert (truthy (Some r) = negb (String.eqb r "")) as Htr by reflexivity.
  rewrite ?Htr.
  destruct (String.eqb r "") eqn:Hempty; cbn.
  - right. apply String.eqb_eq in Hempty. subst r.
    exists tokenData, e. repeat split; try assumption.
    now apply Z.gtb_gt.
  - left. reflexivity.
Qed.

(** *** The client: errors *)

Lemma known_name_spec name :
  name ∈ known_error_names
  <-> String.eqb name "ConnectionError" || String.eqb name "MCPError"
      || String.eqb name "OAuthAuthorizationRequired" = true.
Proof.
  unfold known_error_names.
  rewrite !elem_of_cons, elem_of_nil, !orb_true_iff, !String.eqb_eq. tauto.
Qed.

(** X16. [wrapError] is idempotent, keeps the message and the code of every
    error, and yields one of three names only: an error that carries one
    of them passes as it is, every other error becomes an [MCPError]. *)
Theorem wrapError_spec error :
  wrapError (wrapError error) = wrapError error
  /\ Error.message (wrapError error) = Error.message error
  /\ Error.code (wrapError error) = Error.code error
  /\ Error.name (wrapError error) ∈ known_error_names
  /\ (Error.name error ∈ known_error_names -> wrapError error = error)
  /\ (Error.name error ∉ known_error_names ->
      Error.name (wrapError error) = "MCPError").
Proof.
  pose proof (known_name_spec (Error.name error)) as Hk.
  assert (wrapError error = error /\ Error.name error ∈ known_error_names
          \/ wrapError error
             = Error.mk "MCPError" (Error.message error) (Error.code error)
                 None None None
             /\ Error.name error ∉ known_error_names) as [[Hw Hn]|[Hw Hn]].
  { unfold wrapError.
    destruct (String.eqb (Error.name error) "ConnectionError"
              || String.eqb (Error.name error) "MCPError"
              || String.eqb (Error.name error) "OAuthAuthorizationRequired");
      [left; split; [reflexivity | now apply Hk]
      |right; split; [reflexivity|]].
    intros Hin. apply Hk in Hin. discriminate. }
  - rewrite !Hw. repeat split; try reflexivity; [exact Hn | contradiction].
  - rewrite !Hw. repeat split; try reflexivity.
    + apply known_name_spec. reflexivity.
    + intros Hin. contradiction.
Qed.


Lemma substring_all h : substring 0 (String.length h) h = h.
Proof. induction h as [|c h IH]; cbn; congruence. Qed.

Lemma append_cons a p k : String a p +:+ k = String a (p +:+ k).
Proof. reflexivity. Qed.

Lemma prefix_split p h :
  String.prefix p h = true ->
  h = p +:+ substring (String.length p) (String.length h - String.length p) h.
Proof.
  revert h. induction p as [|a p IH]; intros h Hp.
  - cbn. rewrite Nat.sub_0_r. symmetry. apply substring_all.
  - destruct h as [|b h]; [discriminate|]. cbn in Hp.
    destruct (Ascii.ascii_dec a b) as [->|]; [|discriminate].
    cbn. rewrite append_cons. f_equal. now apply IH.
Qed.

Lemma prefix_append p k :
  String.prefix p (p +:+ k) = true
  /\ substring (String.length p)
       (String.length (p +:+ k) - String.length p) (p +:+ k) = k.
Proof.
  induction p as [|a p [IH1 IH2]]; rewrite ?append_cons; cbn.
  - split; [now destruct k|]. rewrite Nat.sub_0_r. apply substring_all.
  - destruct (Ascii.ascii_dec a a); [|congruence]. now split.
Qed.

(** X18. The request guard lets a request pass exactly when no key is
    configured (or the configured key is the empty string), or the
    [x-api-key] header is the key, or the [authorization] header is
    [Bearer ] followed by the key; every other request is answered 401. *)
Theorem authMiddleware_spec apiKey providedApiKey authHeader :
  let passes :=
    match apiKey with
    | None => True
    | Some key =>
        key = "" \/ providedApiKey = Some key
        \/ authHeader = Some ("Bearer " +:+ key)
    end in
  (passes -> authMiddleware apiKey providedApiKey authHeader = Reply.Next)
  /\ (~ passes ->
      exists body,
        authMiddleware apiKey providedApiKey authHeader
        = Reply.Status 401 body).
Proof.
  cbv zeta. unfold authMiddleware.
  destruct apiKey as [key|]; [|split; [reflexivity | tauto]].
  assert (truthy (Some key) = negb (String.eqb key "")) as -> by reflexivity.
  destruct (String.eqb key "") eqn:Hempty; cbn [negb].
  { apply String.eqb_eq in Hempty. split; [reflexivity | tauto]. }
  apply String.eqb_neq in Hempty.
  split.
  - intros [H|[->| ->]]; [contradiction| |].
    + now rewrite bool_decide_eq_true_2.
    + destruct (prefix_append "Bearer " key) as [Hp Hs].
      rewrite Hp. change (String.length "Bearer ") with 7%nat in Hs.
      rewrite Hs, (bool_decide_eq_true_2 (Some key = Some key)) by reflexivity.
      now rewrite orb_true_r.
  - intros Hn.
    rewrite bool_decide_eq_false_2 by tauto.
    rewrite bool_decide_eq_false_2; [cbn; eauto|].
    intros Hb. apply Hn. right. right.
    destruct authHeader as [h|]; [|discriminate].
    destruct (String.prefix "Bearer " h) eqn:Hp; [|discriminate].
    injection Hb as Hb. f_equal.
    rewrite (prefix_split _ _ Hp) at 1.
    change (String.length "Bearer ") with 7%nat. now rewrite Hb.
Qed.

(** *** The client: connecting *)

Lemma objects_beside_oauth : beside_oauth objects.
Proof. repeat split. Qed.

(** One step over a method of the client that assigns nothing. *)
Ltac reader_step :=
  first
    [ apply keeps_deref
    | solve [eapply keeps_fetch; apply objects_beside_oauth]
    | solve [eapply keeps_URL_new]
    | solve [eapply keeps_getAccessToken; apply objects_beside_oauth]
    | solve [eapply keeps_hasValidTokens; apply objects_beside_oauth]
    | solve [eapply keeps_revokeTokens; apply objects_beside_oauth]
    | solve [eapply keeps_refreshAccessToken; apply objects_beside_oauth]
    | solve [eapply keeps_initiateAuthorizationFlow; apply objects_beside_oauth]
    | solve [eapply keeps_clientCredentialsGrant; apply objects_beside_oauth]
    | keeps_step ].

Lemma buildAuthHeaders_reads this : keeps objects (buildAuthHeaders P this).
Proof. unfold buildAuthHeaders. repeat reader_step. Qed.

Lemma requiresOAuthAuthorization_reads this :
  keeps objects (requiresOAuthAuthorization P this).
Proof. unfold requiresOAuthAuthorization. repeat reader_step. Qed.

Lemma initiateOAuthFlow_reads this : keeps objects (initiateOAuthFlow P this).
Proof. unfold initiateOAuthFlow. repeat reader_step. Qed.

Lemma performClientCredentialsGrant_reads this :
  keeps objects (performClientCredentialsGrant P this).
Proof. unfold performClientCredentialsGrant. repeat reader_step. Qed.

Lemma probeForOAuthRequirements_reads this :
  keeps objects (probeForOAuthRequirements P this).
Proof. unfold probeForOAuthRequirements. repeat reader_step. Qed.

Lemma buildAuthHeaders_post this s :
  post (buildAuthHeaders P this) s
            (fun o s' =>
               objects s' = objects s
               /\ match o with
                  | Return headers =>
                      headers !! "MCP-Protocol-Version"
                      = Some MCP_PROTOCOL_VERSION
                      /\ forall me,
                           heap s !! this = Some me ->
                           Config.authType (MCPClientEnhanced.config me)
                           = OAUTH2
                           \/ Config.authType (MCPClientEnhanced.config me)
                              = OAUTH2_CLIENT_CREDENTIALS ->
                           exists token,
                             getAccessToken P (MCPClientEnhanced.name me) s
                             = (Return (Some token), s')
                             /\ token <> ""
                             /\ headers !! "Authorization"
                                = Some ("Bearer " +:+ token)
                  | Throw _ => True
                  end).
Proof.
  unfold buildAuthHeaders.
  exec. exec; [|split; [reflexivity | exact I]].
  destruct (Config.authType (MCPClientEnhanced.config me)) eqn:Hkind.
  1-3: repeat exec; (split; [reflexivity|]);
       (split; [now rewrite ?lookup_insert_ne, lookup_insert_eq by discriminate|]);
       intros me0 Hme0 [?|?]; assert (me0 = me) as -> by congruence;
       congruence.
  all: exec; apply post_cases; intros [[token|]|e] s' Hrun;
    pose proof (keeps_getAccessToken P objects objects_beside_oauth
                  (MCPClientEnhanced.name me) s) as Hobj;
    rewrite Hrun in Hobj; cbn in Hobj;
    [ | change (truthy (@None string)) with false; exec;
        split; [exact Hobj | exact I]
      | split; [exact Hobj | exact I] ];
    repeat exec; (split; [exact Hobj|]); try exact I;
    (split; [now rewrite lookup_insert_ne, lookup_insert_eq by discriminate|]);
    intros me0 Hme0 _; assert (me0 = me) as -> by congruence; exists token;
    (split; [exact Hrun|]);
    (split; [|now rewrite lookup_insert_eq]);
    intros ->; discriminate.
Qed.

(** X19. The headers of a connection always carry the protocol version of
    this client, whatever the configured headers say. With an OAuth kind
    of authentication the headers are built only with the non-empty access
    token that [getAccessToken] answers, sent as a bearer token; without
    one the call throws. No object is changed. *)
Theorem buildAuthHeaders_spec this s :
  let run := buildAuthHeaders P this s in
  objects run.2 = objects s
  /\ match run.1 with
     | Return headers =>
         headers !! "MCP-Protocol-Version" = Some MCP_PROTOCOL_VERSION
         /\ forall me,
              heap s !! this = Some me ->
              Config.authType (MCPClientEnhanced.config me) = OAUTH2
              \/ Config.authType (MCPClientEnhanced.config me)
                 = OAUTH2_CLIENT_CREDENTIALS ->
              exists token,
                getAccessToken P (MCPClientEnhanced.name me) s
                = (Return (Some token), run.2)
                /\ token <> ""
                /\ headers !! "Authorization" = Some ("Bearer " +:+ token)
     | Throw _ => True
     end.
Proof. apply buildAuthHeaders_post. Qed.

Lemma connect_success this s s' :
  connect P this s = (Return tt, s') ->
  exists me me' tr,
    heap s !! this = Some me
    /\ heap s' !! this = Some me'
    /\ MCPClientEnhanced.connected me' = true
    /\ MCPClientEnhanced.client me' = Some (allocated s)
    /\ MCPClientEnhanced.transport me' = Some tr
    /\ MCPClientEnhanced.name me' = MCPClientEnhanced.name me
    /\ MCPClientEnhanced.config me' = MCPClientEnhanced.config me
    /\ allocated s' = S (allocated s)
    /\ (forall other, other <> this -> heap s' !! other = heap s !! other)
    /\ isConnected this s' = (Return true, s')
    /\ transport_headers tr !! "MCP-Protocol-Version"
       = Some MCP_PROTOCOL_VERSION
    /\ exists earlier,
         events s' = EvClientConnect (allocated s) tr :: earlier.
Proof.
  intros Hrun.
  refine (post_run _ _ _ _
            (fun o s' =>
               match o with
               | Return _ => exists me me' tr, _ /\ _
               | Throw _ => True
               end) _ Hrun).
  unfold connect.
  lazymatch goal with
  | |- post (try_catch _ ?h) _ _ =>
      assert (forall e s1 (Q : Outcome unit -> State -> Prop),
                (forall e' s2, Q (Throw e') s2) -> post (h e) s1 Q) as Hcatch
  end.
  { intros e s1 Q HQ. exec. exec; [|apply HQ].
    exec.
    apply post_weaken with
      (Q := fun o _ => o = Return tt \/ exists e', o = Throw e').
    { repeat first [ exec | apply post_any; intros [?|?] ? ]; eauto. }
    intros [[]|e'] s2 _; [|apply HQ].
    repeat exec. apply HQ. }
  exec.
  eapply post_weaken with
    (Q := fun o s' =>
            match o with
            | Return _ => exists me me' tr, _ /\ _
            | Throw _ => True
            end).
  2:{ intros [[]|e] s2 H; cbv beta iota;
      [exact H | apply Hcatch; intros; exact I]. }
  clear Hcatch.
  exec. exec; [|exact I].
  over objects
    ltac:(repeat first [apply performClientCredentialsGrant_reads
                       | reader_step]).
  intros [[]|e] s1 H1; [|exact I].
  over objects ltac:(apply requiresOAuthAuthorization_reads).
  intros [required|e] s2 H2; [|exact I].
  exec.
  { apply post_bind, post_any. intros [?|?] ?; [exec|]; exact I. }
  exec.
  apply post_weaken with
    (Q := fun o s' =>
            match o with
            | Return _ => objects s' = objects s
            | Throw _ => True
            end).
  { exec; [|exec; congruence].
    over objects ltac:(apply probeForOAuthRequirements_reads).
    intros [probeResult|e] s3 H3; [|exact I].
    exec; [|exec; congruence].
    exec. exec. apply post_bind, post_any. intros [?|?] ?; [exec|]; exact I. }
  intros [[]|e] s3 H3; [|exact I].
  exec.
  eapply post_weaken; [apply buildAuthHeaders_post|].
  intros [headers|e] s4 [H4 Hheaders]; [|exact I].
  destruct Hheaders as [Hversion _].
  assert (heap s4 = heap s /\ allocated s4 = allocated s) as [Hheap Halloc].
  { unfold objects in *. split; congruence. }
  unfold createTransport.
  exec. exec. exec. exec. exec. exec.
  eapply post_deref_known.
  { cbn [heap with_heap allocate]. rewrite lookup_alter_eq, Hheap, H.
    reflexivity. }
  exec. exec; [|exact I].
  apply post_weaken with
    (Q := fun o s' =>
            match o with
            | Return _ =>
                exists tr,
                  s' = with_heap (alter (set_transport (Some tr)) this)
                         (with_heap
                            (alter (set_client (Some (allocated s4))) this)
                            (allocate s4))
                  /\ transport_headers tr !! "MCP-Protocol-Version"
                     = Some MCP_PROTOCOL_VERSION
            | Throw _ => True
            end).
  { cbn [MCPClientEnhanced.config set_client].
    destruct (Config.transport (MCPClientEnhanced.config me)); exec;
      eexists; (split; [reflexivity|]); cbn;
      now rewrite ?lookup_insert_ne by discriminate. }
  intros [[]|e] s5 Hs5; [|exact I]. destruct Hs5 as (tr & -> & Htr).
  exec.
  eapply post_deref_known.
  { cbn [heap with_heap allocate]. rewrite !lookup_alter_eq, Hheap, H.
    reflexivity. }
  exec. cbn [MCPClientEnhanced.transport set_transport set_client].
  exec. exec. exec; [|exact I].
  repeat exec.
  assert (forall (m : gmap nat MCPClientEnhanced.t),
            m = heap s ->
            alter (set_capabilities (server_capabilities r)) this
              (alter (set_serverInfo (server_version r)) this
                 (alter (set_connected true) this
                    (alter (set_transport (Some tr)) this
                       (alter (set_client (Some (allocated s4))) this m))))
            !! this
            = Some (set_capabilities (server_capabilities r)
                      (set_serverInfo (server_version r)
                         (set_connected true
                            (set_transport (Some tr)
                               (set_client (Some (allocated s4)) me))))))
    as Hfinal.
  { intros m ->. rewrite !lookup_alter_eq, H. reflexivity. }
  eexists me, _, tr. split; [exact H|].
  split; [cbn [heap with_heap consumed allocate]; apply Hfinal, Hheap|].
  cbn [MCPClientEnhanced.connected MCPClientEnhanced.client
       MCPClientEnhanced.transport MCPClientEnhanced.name
       MCPClientEnhanced.config set_capabilities set_serverInfo
       set_connected set_transport set_client].
  rewrite Halloc in *.
  repeat split; try reflexivity; try assumption.
  - cbn. now rewrite Halloc.
  - intros other Hne. cbn [heap with_heap consumed allocate].
    rewrite !lookup_alter_ne, Hheap by congruence. reflexivity.
  - unfold isConnected, bind, deref.
    cbn [heap with_heap consumed allocate]. rewrite (Hfinal _ Hheap).
    reflexivity.
  - eexists. reflexivity.
Qed.

(** X20. A [connect] that returns has marked the object connected, with a
    new SDK client attached through a transport whose headers carry the
    protocol version; the connecting call is the last thing done to the
    platform. The name and the configuration of the object are those of
    before (the upgrade of the authentication kind after a probe always
    ends in a throw), and no other object is touched. *)
Theorem connect_returns_connected this s s' :
  connect P this s = (Return tt, s') ->
  exists me me' tr,
    heap s !! this = Some me
    /\ heap s' !! this = Some me'
    /\ MCPClientEnhanced.connected me' = true
    /\ MCPClientEnhanced.client me' = Some (allocated s)
    /\ MCPClientEnhanced.transport me' = Some tr
    /\ MCPClientEnhanced.name me' = MCPClientEnhanced.name me
    /\ MCPClientEnhanced.config me' = MCPClientEnhanced.config me
    /\ allocated s' = S (allocated s)
    /\ (forall other, other <> this -> heap s' !! other = heap s !! other)
    /\ isConnected this s' = (Return true, s')
    /\ transport_headers tr !! "MCP-Protocol-Version"
       = Some MCP_PROTOCOL_VERSION
    /\ exists earlier,
         events s' = EvClientConnect (allocated s) tr :: earlier.
Proof. apply connect_success. Qed.
Lemma connected_flag_objects this s s' :
  objects s' = objects s -> connected_flag this s' = connected_flag this s.
Proof. unfold objects, connected_flag. now intros [= -> _]. Qed.

Lemma connected_flag_alter this g s :
  (forall me, MCPClientEnhanced.connected (g me) = MCPClientEnhanced.connected me) ->
  connected_flag this (with_heap (alter g this) s) = connected_flag this s.
Proof.
  intros Hg. unfold connected_flag. cbn. rewrite lookup_alter_eq.
  destruct (heap s !! this); cbn; [now rewrite Hg | reflexivity].
Qed.

Lemma connected_flag_set this b b' s :
  connected_flag this s = Some b ->
  connected_flag this (with_heap (alter (set_connected b') this) s) = Some b'.
Proof.
  unfold connected_flag. cbn. rewrite lookup_alter_eq.
  destruct (heap s !! this); [reflexivity | discriminate].
Qed.

Lemma connected_flag_isConnected this s :
  connected_flag this s = Some false ->
  isConnected this s = (Return false, s).
Proof.
  unfold connected_flag, isConnected, bind, deref.
  destruct (heap s !! this) as [me|]; [|discriminate].
  now intros [= ->].
Qed.

(** X21. A [connect] that throws, on an object that was not marked
    connected, leaves it not marked connected, whichever path failed and
    whichever error comes out, the authorization errors included. *)
Theorem connect_throws_not_connected this s e s' :
  connected_flag this s = Some false ->
  connect P this s = (Throw e, s') ->
  connected_flag this s' = Some false
  /\ isConnected this s' = (Return false, s').
Proof.
  intros Hidle Hrun.
  enough (connected_flag this s' = Some false) as H
    by (split; [exact H | now apply connected_flag_isConnected]).
  refine (post_run _ _ _ _
            (fun o s' =>
               match o with
               | Return _ => True
               | Throw _ => connected_flag this s' = Some false
               end) _ Hrun).
  unfold connect.
  lazymatch goal with
  | |- post (try_catch _ ?h) _ _ =>
      assert (forall e s1,
                connected_flag this s1 = Some false ->
                post (h e) s1
                  (fun o s' =>
                     match o with
                     | Return _ => True
                     | Throw _ => connected_flag this s' = Some false
                     end)) as Hcatch
  end.
  { intros e1 s1 H1. exec. exec; [|exact H1].
    exec.
    apply post_weaken with
      (Q := fun o s' => connected_flag this s' = Some false).
    { exec; [|exec; exact H1].
      exec; [|exec; exact H1].
      exec.
      over objects ltac:(solve [eapply keeps_revokeTokens;
                                apply objects_beside_oauth]).
      intros [[]|e2] s2 H2;
        pose proof (connected_flag_objects this _ _ H2) as H2';
        [|congruence].
      exec; [|exec; congruence].
      exec.
      over objects ltac:(apply initiateOAuthFlow_reads).
      intros [?|?] s3 H3;
        pose proof (connected_flag_objects this _ _ H3) as H3';
        [exec|]; congruence. }
    intros [[]|e2] s2 H2; [|exact H2].
    repeat exec. now apply connected_flag_set with (b := false). }
  exec.
  eapply post_weaken with
    (Q := fun o s' =>
            match o with
            | Return _ => True
            | Throw _ => connected_flag this s' = Some false
            end).
  2:{ intros [[]|e1] s2 H; cbv beta iota; [exact I | now apply Hcatch]. }
  clear Hcatch.
  exec. exec; [|exact Hidle].
  over objects
    ltac:(repeat first [apply performClientCredentialsGrant_reads
                       | reader_step]).
  intros [[]|e1] s1 H1;
    pose proof (connected_flag_objects this _ _ H1) as H1'; [|congruence].
  over objects ltac:(apply requiresOAuthAuthorization_reads).
  intros [required|e1] s2 H2;
    pose proof (connected_flag_objects this _ _ H2) as H2'; [|congruence].
  exec.
  { exec. over objects ltac:(apply initiateOAuthFlow_reads).
    intros [?|?] s3 H3;
      pose proof (connected_flag_objects this _ _ H3) as H3';
      [exec|]; congruence. }
  exec.
  apply post_weaken with
    (Q := fun o s' => connected_flag this s' = Some false).
  { exec; [|exec; congruence].
    exec.
    over objects ltac:(apply probeForOAuthRequirements_reads).
    intros [probeResult|e1] s3 H3;
      pose proof (connected_flag_objects this _ _ H3) as H3'; [|congruence].
    exec; [|exec; congruence].
    exec. exec.
    assert (connected_flag this
              (with_heap
                 (alter (fun me0 =>
                           set_config
                             (Config.set_authType OAUTH2
                                (MCPClientEnhanced.config me0)) me0) this)
                 s3) = Some false) as H4
      by (rewrite connected_flag_alter by reflexivity; congruence).
    exec.
    over objects ltac:(apply initiateOAuthFlow_reads).
    intros [?|?] s4 H5;
      pose proof (connected_flag_objects this _ _ H5) as H5';
      [exec|]; congruence. }
  intros [[]|e1] s3 H3; [|exact H3].
  exec.
  over objects ltac:(apply buildAuthHeaders_reads).
  intros [headers|e1] s4 H4;
    pose proof (connected_flag_objects this _ _ H4) as H4'; [|congruence].
  unfold createTransport.
  exec. exec. exec. exec.
  assert (connected_flag this
            (with_heap (alter (set_client (Some (allocated s4))) this)
               (allocate s4)) = Some false) as H5.
  { rewrite connected_flag_alter by reflexivity.
    unfold connected_flag in *. cbn. congruence. }
  exec. exec. exec; [|exact H5].
  exec. exec; [|exact H5].
  apply post_weaken with
    (Q := fun o s' => connected_flag this s' = Some false).
  { destruct (Config.transport (MCPClientEnhanced.config me0)); exec;
      rewrite connected_flag_alter by reflexivity; exact H5. }
  intros [[]|e1] s5 Hs5; [|exact Hs5].
  exec. exec; [|exact Hs5].
  exec. exec; [|exec; exact Hs5].
  exec. exec. exec; [repeat exec; exact I|].
  unfold connected_flag in *. cbn. exact Hs5.
Qed.

(** *** The client: disconnecting, handling an error, probing *)

(** X22. [disconnect] closes the SDK client when there is one and then
    clears the object: not connected, no client, no transport, no session.
    When the close throws, the error is rethrown and the object is left as
    it was, still marked connected and still holding its client if it did.
    Without a client nothing is called. *)
Theorem client_disconnect_spec this s me :
  heap s !! this = Some me ->
  match MCPClientEnhanced.client me with
  | None =>
      disconnect P this s
      = (Return tt, with_heap (alter cleared this) s)
  | Some c =>
      let closing := consumed 0 0 0 1 [EvClientClose c] s in
      match sdk P (sdk_calls s) with
      | SdkOk _ =>
          disconnect P this s
          = (Return tt, with_heap (alter cleared this) closing)
      | SdkThrows e => disconnect P this s = (Throw e, closing)
      end
  end
  /\ (forall s', (disconnect P this s) = (Return tt, s') ->
                 isConnected this s' = (Return false, s')).
Proof.
  intros Hme.
  assert (forall s0,
            with_heap (alter (set_sessionId None) this)
              (with_heap (alter (set_transport None) this)
                 (with_heap (alter (set_client None) this)
                    (with_heap (alter (set_connected false) this) s0)))
            = with_heap (alter cleared this) s0) as Hclear.
  { intros s0. unfold with_heap, cleared. cbn. f_equal.
    now rewrite !alter_alter_eq. }
  assert (forall s0, heap s0 = heap s ->
            isConnected this (with_heap (alter cleared this) s0)
            = (Return false, with_heap (alter cleared this) s0)) as Hoff.
  { intros s0 E. unfold isConnected, bind, deref. cbn.
    now rewrite lookup_alter_eq, E, Hme. }
  assert (match MCPClientEnhanced.client me with
          | None =>
              disconnect P this s
              = (Return tt, with_heap (alter cleared this) s)
          | Some c =>
              match sdk P (sdk_calls s) with
              | SdkOk _ =>
                  disconnect P this s
                  = (Return tt,
                     with_heap (alter cleared this)
                       (consumed 0 0 0 1 [EvClientClose c] s))
              | SdkThrows e =>
                  disconnect P this s
                  = (Throw e, consumed 0 0 0 1 [EvClientClose c] s)
              end
          end) as Hmain.
  { destruct (MCPClientEnhanced.client me) as [c|] eqn:Hc;
      [destruct (sdk P (sdk_calls s)) eqn:Hsdk|];
      unfold disconnect, try_catch, bind, deref, sdk_call, assign, modify,
        ret, throw;
      rewrite Hme; cbv beta iota; rewrite Hc; cbv beta iota;
      rewrite ?Hsdk; cbv beta iota; rewrite <- ?Hclear; reflexivity. }
  split; [exact Hmain|].
  intros s' Hret.
  destruct (MCPClientEnhanced.client me) as [c|];
    [destruct (sdk P (sdk_calls s)) as [r|e]|];
    rewrite Hmain in Hret; try discriminate;
    injection Hret as <-; now apply Hoff.
Qed.

(** X23. [handleError] never throws. An error that does not speak of 401
    changes nothing; one that does marks the object not connected, and for
    the authentication kinds other than OAuth that is all it does: no
    refresh and no reconnection is tried. *)
Theorem handleError_spec this error s me :
  heap s !! this = Some me ->
  (handleError P this error s).1 = Return tt
  /\ (is_401 error = false -> handleError P this error s = (Return tt, s))
  /\ (is_401 error = true ->
      Config.authType (MCPClientEnhanced.config me) <> OAUTH2 ->
      Config.authType (MCPClientEnhanced.config me)
      <> OAUTH2_CLIENT_CREDENTIALS ->
      handleError P this error s
      = (Return tt, with_heap (alter (set_connected false) this) s)).
Proof.
  intros Hme.
  set (off := with_heap (alter (set_connected false) this) s).
  assert (handleError P this error s
          = if is_401 error then
              if bool_decide
                   (Config.authType (MCPClientEnhanced.config me) = OAUTH2)
                 || bool_decide
                      (Config.authType (MCPClientEnhanced.config me)
                       = OAUTH2_CLIENT_CREDENTIALS)
              then
                try_catch
                  (let* _ := refreshAccessToken P (MCPClientEnhanced.name me)
                   in connect P this)
                  (fun _ => ret tt) off
              else (Return tt, off)
            else (Return tt, s)) as ->.
  { unfold handleError. destruct (is_401 error); [|reflexivity].
    unfold bind, assign, modify, deref. cbn [heap with_heap].
    rewrite lookup_alter_eq, Hme. cbn [fmap option_fmap option_map].
    cbn [MCPClientEnhanced.config set_connected MCPClientEnhanced.name].
    now destruct (_ || _). }
  destruct (is_401 error).
  2:{ split; [reflexivity|]. split; [reflexivity | discriminate]. }
  destruct (bool_decide _ || bool_decide _) eqn:Hkind.
  - split; [|split; [discriminate|]].
    + unfold try_catch. destruct (bind _ _ _) as [[[]|e] s']; reflexivity.
    + intros _ H1 H2. apply orb_true_iff in Hkind.
      destruct Hkind as [Hk|Hk]; apply bool_decide_eq_true in Hk; contradiction.
  - split; [reflexivity|]. split; [discriminate | reflexivity].
Qed.

(** X24. The probe of a server never throws and sends exactly one request.
    It reports that authorization is required exactly when the server
    answers 401 or 403; a request that is rejected is reported as not
    requiring authorization, with the message of the rejection. *)
Theorem probeForOAuthRequirements_spec this s me :
  heap s !! this = Some me ->
  exists result,
    probeForOAuthRequirements P this s
    = (Return result, consumed 0 1 0 0 [EvFetch (probe_request me)] s)
    /\ match network P (fetches s) (probe_request me) with
       | Resolved r =>
           ProbeResult.requiresAuth result
           = bool_decide (status r = 401%Z \/ status r = 403%Z)
           /\ ProbeResult.error result = None
           /\ (ProbeResult.requiresAuth result = false ->
               ProbeResult.wwwAuthenticate result = None)
       | Rejected msg =>
           result = ProbeResult.mk false None (Some msg)
       end.
Proof.
  intros Hme.
  unfold probeForOAuthRequirements, bind at 1, deref. rewrite Hme.
  unfold try_catch, bind at 1, fetch. fold (probe_request me).
  destruct (network P (fetches s) (probe_request me)) as [r|msg].
  2:{ eexists. split; reflexivity. }
  assert (((status r =? 401)%Z || (status r =? 403)%Z)
          = bool_decide (status r = 401%Z \/ status r = 403%Z)) as ->.
  { destruct (Z.eqb_spec (status r) 401), (Z.eqb_spec (status r) 403); cbn;
      symmetry;
      first [ apply bool_decide_eq_true_2; tauto
            | apply bool_decide_eq_false_2; tauto ]. }
  destruct (bool_decide _).
  - destruct (truthy (www_authenticate r)); eexists;
      (split; [reflexivity|]); cbn; repeat split; discriminate.
  - eexists. split; [reflexivity|]. cbn. repeat split.
Qed.

(** *** The connection manager *)

Lemma client_disconnect_frame {B} (f : State -> B) this :
  (forall r n d k evs s, f (consumed r n d k evs s) = f s) ->
  (forall g s, f (with_heap g s) = f s) ->
  keeps f (disconnect P this).
Proof.
  intros Hc Hh. unfold disconnect.
  repeat first
    [ apply keeps_deref
    | apply keeps_modify; intros; apply Hh
    | lazymatch goal with
      | |- keeps _ (sdk_call _ _) =>
          intros s; unfold sdk_call; destruct (sdk P (sdk_calls s)); apply Hc
      end
    | keeps_step ].
Qed.

Lemma getConnection_post serverName s :
  (forall c, connections s !! serverName = Some c -> is_Some (heap s !! c)) ->
  post (MCPConnectionManagerEnhanced.getConnection P serverName) s
    (fun o s' =>
       match o with
       | Return c =>
           connections s' !! serverName = Some c
           /\ isConnected c s' = (Return true, s')
       | Throw e => connections s' !! serverName = None
       end
       /\ forall other,
            other <> serverName ->
            connections s' !! other = connections s !! other).
Proof.
  intros Hheld. unfold MCPConnectionManagerEnhanced.getConnection.
  exec. exec. exec.
  apply post_weaken with
    (Q := fun o s1 =>
            match o with
            | Return (Some c) =>
                s1 = s /\ connections s !! serverName = Some c
                /\ isConnected c s = (Return true, s)
            | Return None =>
                connections s1 !! serverName = None
                /\ (forall other,
                      other <> serverName ->
                      connections s1 !! other = connections s !! other)
            | Throw _ => False
            end).
  { destruct (connections s !! serverName) as [client|] eqn:Hc.
    2:{ exec. split; [exact Hc | reflexivity]. }
    destruct (Hheld client eq_refl) as [me Hme].
    exec. unfold isConnected at 1. exec.
    eapply post_deref_known; [exact Hme|].
    exec. exec.
    - exec. repeat split; try assumption.
      unfold isConnected, bind, deref, ret. rewrite Hme. cbn. congruence.
    - repeat exec. cbn. split; [apply lookup_delete_eq|].
      intros other Hne. now apply lookup_delete_ne. }
  intros [[c|]|e] s1; [| |contradiction].
  { intros (-> & Hc & Hlive). exec. repeat split; assumption. }
  intros [Hnone Hothers].
  exec. exec. exec; [|exec; split; assumption].
  unfold new_MCPClientEnhanced.
  exec. exec. exec. exec. exec. exec. exec. exec.
  apply post_cases. intros [[]|e] s2 Hrun.
  - lazymatch type of Hrun with
    | connect _ ?c ?s0 = _ =>
        pose proof (keeps_connect P connections connections_beside_clients
                      c s0) as Hframe
    end.
    rewrite Hrun in Hframe. cbn in Hframe.
    destruct (connect_success _ _ _ Hrun)
      as (me & me' & tr & _ & Hme' & Hon & Hcl & _).
    repeat exec. cbn. split; [split|].
    + apply lookup_insert_eq.
    + unfold isConnected, bind, deref. cbn. rewrite Hme', Hon, Hcl.
      reflexivity.
    + intros other Hne. rewrite lookup_insert_ne, Hframe by congruence.
      now apply Hothers.
  - lazymatch type of Hrun with
    | connect _ ?c ?s0 = _ =>
        pose proof (keeps_connect P connections connections_beside_clients
                      c s0) as Hframe
    end.
    rewrite Hrun in Hframe. cbn in Hframe.
    repeat exec. rewrite Hframe. split; assumption.
Qed.

(** X25. [getConnection] answers a held connection that is live as it is,
    changing nothing and creating nothing. In every case, when it returns,
    the connection it returns is the one held under the name and it is
    live; when it throws, no connection is held under the name; the
    connections of other names are not touched. *)
Theorem getConnection_spec serverName s :
  (forall c, connections s !! serverName = Some c -> is_Some (heap s !! c)) ->
  let run := MCPConnectionManagerEnhanced.getConnection P serverName s in
  (forall c,
     connections s !! serverName = Some c ->
     isConnected c s = (Return true, s) ->
     run = (Return c, s))
  /\ match run.1 with
     | Return c =>
         connections run.2 !! serverName = Some c
         /\ isConnected c run.2 = (Return true, run.2)
     | Throw e => connections run.2 !! serverName = None
     end
  /\ forall other,
       other <> serverName ->
       connections run.2 !! other = connections s !! other.
Proof.
  intros Hheld. split; [|apply (getConnection_post serverName s Hheld)].
  intros c Hc Hlive.
  unfold MCPConnectionManagerEnhanced.getConnection, bind at 1, get.
  rewrite Hc. unfold bind at 1, bind at 1. rewrite Hlive. reflexivity.
Qed.

Lemma revokeTokens_post serverName s :
  post (revokeTokens P serverName) s
    (fun o s' =>
       o = Return tt /\ tokens s' = delete serverName (tokens s)
       /\ registry s' = registry s).
Proof. unfold revokeTokens. repeat exec; repeat split. Qed.

Lemma manager_disconnect_post serverName s :
  post (MCPConnectionManagerEnhanced.disconnect P serverName) s
    (fun o s' =>
       configs s' = configs s /\ tokens s' = tokens s
       /\ match o with
          | Return _ => connections s' = delete serverName (connections s)
          | Throw _ =>
              connections s' = connections s
              /\ exists c, connections s !! serverName = Some c
          end).
Proof.
  unfold MCPConnectionManagerEnhanced.disconnect.
  exec. exec. exec.
  2:{ exec. repeat split. symmetry. now apply delete_id. }
  over manager_maps ltac:(apply client_disconnect_frame; reflexivity).
  intros [[]|e] s1 H1;
    assert (connections s1 = connections s /\ configs s1 = configs s
            /\ tokens s1 = tokens s) as (Hc & Hg & Ht)
      by (unfold manager_maps in H1; repeat split; congruence).
  - exec. cbn. rewrite Hc. repeat split; assumption.
  - repeat split; eauto.
Qed.

(** X26. Removing a server that goes through leaves no configuration, no
    held connection and no token record under the name. When closing the
    held connection throws, the removal stops there: the server stays
    registered, its connection stays held and its tokens stay stored. *)
Theorem removeServer_spec name s :
  let run := MCPConnectionManagerEnhanced.removeServer P name s in
  match run.1 with
  | Return _ =>
      configs run.2 = delete name (configs s)
      /\ connections run.2 = delete name (connections s)
      /\ tokens run.2 = delete name (tokens s)
  | Throw _ =>
      configs run.2 = configs s
      /\ connections run.2 = connections s
      /\ tokens run.2 = tokens s
      /\ exists c, connections s !! name = Some c
  end.
Proof.
  change (post (MCPConnectionManagerEnhanced.removeServer P name) s
            (fun o s' =>
               match o with
               | Return _ =>
                   configs s' = delete name (configs s)
                   /\ connections s' = delete name (connections s)
                   /\ tokens s' = delete name (tokens s)
               | Throw _ =>
                   configs s' = configs s
                   /\ connections s' = connections s
                   /\ tokens s' = tokens s
                   /\ exists c, connections s !! name = Some c
               end)).
  unfold MCPConnectionManagerEnhanced.removeServer.
  exec. eapply post_weaken; [apply manager_disconnect_post|].
  intros [[]|e] s1 (Hg & Ht & Hc); [|destruct Hc; repeat split; assumption].
  exec. eapply post_weaken; [apply revokeTokens_post|].
  intros o s2 (-> & Ht2 & Hr2).
  assert (connections s2 = connections s1 /\ configs s2 = configs s1)
    as [Hc2 Hg2] by (unfold registry in Hr2; split; congruence).
  exec. cbn. rewrite Hg2, Hc2, Ht2, Hg, Hc, Ht. repeat split.
Qed.

(** X27. Registering a configuration never touches a connection. Without a
    URL it throws and nothing changes. Over a name whose connection is
    live, the new configuration is stored but the connection stays: the
    next [getConnection] answers the client that was connected under the
    old configuration. *)
Theorem registerServer_keeps_connection name config s :
  let run := MCPConnectionManagerEnhanced.registerServer P name config s in
  (truthy (RawConfig.url config) = false ->
   run = (Throw (Error.new "Server configuration must include a URL"), s))
  /\ (truthy (RawConfig.url config) = true ->
      run.1 = Return tt
      /\ configs run.2
         = <[name := MCPConnectionManagerEnhanced.normalizeConfig P config]>
             (configs s)
      /\ connections run.2 = connections s
      /\ forall c,
           connections s !! name = Some c ->
           isConnected c s = (Return true, s) ->
           MCPConnectionManagerEnhanced.getConnection P name run.2
           = (Return c, run.2)).
Proof.
  cbv zeta. unfold MCPConnectionManagerEnhanced.registerServer.
  destruct (truthy (RawConfig.url config)); cbn [negb].
  { split; [discriminate|]. intros _. repeat split.
    intros c Hc Hlive. cbn [snd modify].
    unfold MCPConnectionManagerEnhanced.getConnection, bind at 1, get.
    cbn [connections with_configs]. rewrite Hc.
    unfold bind at 1, bind at 1.
    unfold isConnected, bind, deref in Hlive |- *.
    cbn [heap with_configs].
    destruct (heap s !! c) as [me|]; [|discriminate].
    cbn in Hlive |- *. injection Hlive as ->. reflexivity. }
  split; [reflexivity | discriminate].
Qed.



(** X29. The layers keep to their own state. No method of the OAuth
    manager touches a client object, a held connection or a registered
    configuration; no method of a client touches the connections or the
    configurations of the connection manager, so that a client which
    marks itself not connected stays held by the manager. *)
Theorem layers_keep_to_their_state :
  (forall serverUrl custom,
      keeps registry (discoverServerMetadata P serverUrl custom))
  /\ (forall serverUrl metadata,
        keeps registry (registerClient P serverUrl metadata))
  /\ (forall serverName serverUrl options,
        keeps registry
          (initiateAuthorizationFlow P serverName serverUrl options))
  /\ (forall code state, keeps registry (handleCallback P code state))
  /\ (forall serverName serverUrl clientId clientSecret scopes,
        keeps registry
          (clientCredentialsGrant P serverName serverUrl clientId
             clientSecret scopes))
  /\ (forall serverName, keeps registry (refreshAccessToken P serverName))
  /\ (forall serverName, keeps registry (getAccessToken P serverName))
  /\ (forall serverName, keeps registry (hasValidTokens P serverName))
  /\ (forall serverName, keeps registry (revokeTokens P serverName))
  /\ keeps registry (cleanupExpiredAuthorizations P)
  /\ (forall this, keeps manager_side (connect P this))
  /\ (forall this, keeps manager_side (disconnect P this))
  /\ (forall this error, keeps manager_side (handleError P this error))
  /\ (forall this, keeps manager_side (listTools P this)).
Proof.
  assert (beside_oauth registry) as Ho by (repeat split).
  assert (beside_clients manager_side) as Hc by (repeat split).
  exact (conj (keeps_discoverServerMetadata P registry Ho)
        (conj (keeps_registerClient P registry Ho)
        (conj (keeps_initiateAuthorizationFlow P registry Ho)
        (conj (keeps_handleCallback P registry Ho)
        (conj (keeps_clientCredentialsGrant P registry Ho)
        (conj (keeps_refreshAccessToken P registry Ho)
        (conj (keeps_getAccessToken P registry Ho)
        (conj (keeps_hasValidTokens P registry Ho)
        (conj (keeps_revokeTokens P registry Ho)
        (conj (keeps_cleanupExpiredAuthorizations P registry Ho)
        (conj (keeps_connect P manager_side Hc)
        (conj (keeps_client_disconnect P manager_side Hc)
        (conj (keeps_handleError P manager_side Hc)
              (keeps_listTools P manager_side Hc)))))))))))))).
Qed.

(** X30. A registered configuration reaches the client as it was stored,
    but for the retry settings: the registration keeps neither
    [maxRetries] nor [retryDelay], so that a client always works with 3
    retries and a delay of 1000 ms, whatever the caller registered. *)
Theorem client_config_of_registered config :
  let registered := MCPConnectionManagerEnhanced.normalizeConfig P config in
  let effective := client_config P registered in
  Config.url effective = Config.url registered
  /\ Config.transport effective = Config.transport registered
  /\ Config.authType effective = Config.authType registered
  /\ Config.apiKey effective = Config.apiKey registered
  /\ Config.bearerToken effective = Config.bearerToken registered
  /\ Config.oauth effective = Config.oauth registered
  /\ Config.headers effective = Config.headers registered
  /\ Config.timeout effective = Config.timeout registered
  /\ Config.maxRetries effective = Some 3%Z
  /\ Config.retryDelay effective = Some 1000%Z.
Proof.
  cbv zeta. unfold client_config, normalizeConfig, as_raw,
    MCPConnectionManagerEnhanced.normalizeConfig.
  cbn [Config.url Config.transport Config.authType Config.apiKey
       Config.bearerToken Config.oauth Config.headers Config.timeout
       Config.maxRetries Config.retryDelay RawConfig.url RawConfig.transport
       RawConfig.authType RawConfig.apiKey RawConfig.bearerToken
       RawConfig.oauth RawConfig.headers RawConfig.timeout
       RawConfig.maxRetries RawConfig.retryDelay default from_option].
  unfold id. repeat split.
  assert (forall (x : Z) y,
            x <> 0%Z ->
            or_else (or_else (Some x) y) (Some 30000%Z) = Some x) as Hor.
  { intros x y Hx. unfold or_else, truthy, truthy_option, truthy, truthy_Z.
    apply Z.eqb_neq in Hx. rewrite Hx. cbn. now rewrite Hx. }
  assert (forall a b,
            from_option (fun x : Z => x) 30000%Z
              (or_else (or_else a b) (Some 30000%Z)) <> 0%Z) as Ht.
  { intros [a|] [b|];
      unfold or_else, truthy, truthy_option, truthy, truthy_Z; cbn;
      repeat match goal with
             | |- context [(?z =? 0)%Z] => destruct (Z.eqb_spec z 0); cbn
             end;
      lia. }
  rewrite Hor by apply Ht. reflexivity.
Qed.
End Further.
(** ** Worked runs of the further properties *)

Lemma getAccessToken_without_refresh_witness :
  getAccessToken offline "crm" Runs.holding_fresh
  = (Return (Some "at-1"), consumed 1 0 0 0 [] Runs.holding_fresh).
Proof.
  apply (proj2 (proj2 (getAccessToken_without_refresh offline "crm"
                         Runs.holding_fresh))
           (Demo.token_record "at-1" None (Some 1000000%Z)) 1000000%Z).
  - reflexivity.
  - reflexivity.
  - discriminate.
  - vm_compute. discriminate.
Defined.


Lemma getAccessToken_after_refresh_witness :
  getAccessToken Runs.null_access "crm" holding_refreshable
  = (Return None,
     (refreshAccessToken Runs.null_access "crm"
        (consumed 1 0 0 0 [] holding_refreshable)).2).
Proof.
  apply (getAccessToken_after_refresh Runs.null_access "crm"
           holding_refreshable refreshable Runs.null_access_json).
  - reflexivity.
  - exists 2000%Z.
    split; [reflexivity | split; [discriminate | vm_compute; reflexivity]].
  - reflexivity.
  - vm_compute. reflexivity.
Defined.

Lemma handleCallback_expiry_witness :
  handleCallback Runs.late "code-1" "st-1" awaiting_callback
  = (Throw (Error.new "Authorization request has expired"),
     with_pendingAuthorizations (delete "st-1")
       (consumed 1 0 0 0 [] awaiting_callback)).
Proof.
  apply (proj1 (handleCallback_expiry Runs.late "code-1" "st-1"
                  awaiting_callback Runs.pending_crm eq_refl)).
  vm_compute. reflexivity.
Defined.

Lemma discoverServerMetadata_requests_witness :
  let s' := (discoverServerMetadata offline server None initial).2 in
  fetches initial < fetches s' <= fetches initial + 5.
Proof.
  apply (discoverServerMetadata_requests offline server None initial
           Runs.server_url).
  reflexivity.
Defined.

Lemma discoverServerMetadata_custom_first_witness :
  discoverServerMetadata lenient server (Some "https://as.example.com/meta")
    initial
  = (Return empty_object,
     with_serverMetadata (insert server (Some empty_object))
       (consumed 0 1 0 0
          [EvFetch (discovery_request "https://as.example.com/meta")]
          initial)).
Proof.
  apply (discoverServerMetadata_custom_first lenient server
           "https://as.example.com/meta" initial Runs.server_url
           {| status := 200; www_authenticate := None;
              json := JsonValue empty_object; text := "" |}).
  - reflexivity.
  - discriminate.
  - reflexivity.
  - reflexivity.
Defined.

Lemma discoverServerMetadata_throws_iff_witness :
  discoverServerMetadata offline "mcp.example.com" None initial
  = (Throw (Error.TypeError "Invalid URL"), initial).
Proof.
  apply (proj2 (discoverServerMetadata_throws_iff offline "mcp.example.com"
                  None initial)).
  reflexivity.
Defined.

Lemma initiateAuthorizationFlow_binds_witness :
  exists pending authUrl,
    pendingAuthorizations flow.2
    = <[AuthInfo.state flow_info := pending]> (pendingAuthorizations initial)
    /\ AuthInfo.authorizationUrl flow_info = URL_toString offline authUrl
    /\ searchParam "response_type" authUrl = Some "code"
    /\ searchParam "client_id" authUrl
       = Some (PendingAuthorization.clientId pending)
    /\ searchParam "redirect_uri" authUrl
       = Some (PendingAuthorization.redirectUri pending)
    /\ searchParam "state" authUrl = Some (AuthInfo.state flow_info)
    /\ searchParam "code_challenge" authUrl
       = Some (generateCodeChallenge
                 (PendingAuthorization.codeVerifier pending))
    /\ searchParam "code_challenge_method" authUrl = Some "S256"
    /\ String.length (PendingAuthorization.codeVerifier pending) = 43%nat
    /\ String.length (AuthInfo.state flow_info) = 22%nat
    /\ PendingAuthorization.serverName pending = "crm"
    /\ PendingAuthorization.serverUrl pending = server
    /\ PendingAuthorization.clientSecret pending
       = Options.clientSecret with_client_id.
Proof.
  apply (initiateAuthorizationFlow_binds offline "crm" server with_client_id
           initial flow_info flow.2).
  vm_compute. reflexivity.
Defined.

Lemma initiateAuthorizationFlow_no_client_id_witness :
  pendingAuthorizations
    (initiateAuthorizationFlow offline "crm" server Options.empty initial).2
  = pendingAuthorizations initial.
Proof.
  apply (proj2 (initiateAuthorizationFlow_no_client_id offline "crm" server
                  Options.empty initial)).
  vm_compute. reflexivity.
Defined.

Lemma authMiddleware_spec_witness :
  authMiddleware (Some "key-1") None (Some "Bearer key-1") = Reply.Next.
Proof.
  apply (proj1 (authMiddleware_spec (Some "key-1") None
                  (Some "Bearer key-1"))).
  right. right. reflexivity.
Defined.

Lemma connect_returns_connected_witness :
  let s' := (connect flaky 0 Runs.one_idle).2 in
  exists me me' tr,
    heap Runs.one_idle !! 0%nat = Some me
    /\ heap s' !! 0%nat = Some me'
    /\ MCPClientEnhanced.connected me' = true
    /\ MCPClientEnhanced.client me' = Some (allocated Runs.one_idle)
    /\ MCPClientEnhanced.transport me' = Some tr
    /\ MCPClientEnhanced.name me' = MCPClientEnhanced.name me
    /\ MCPClientEnhanced.config me' = MCPClientEnhanced.config me
    /\ allocated s' = S (allocated Runs.one_idle)
    /\ (forall other, other <> 0%nat ->
                      heap s' !! other = heap Runs.one_idle !! other)
    /\ isConnected 0 s' = (Return true, s')
    /\ transport_headers tr !! "MCP-Protocol-Version"
       = Some MCP_PROTOCOL_VERSION
    /\ exists earlier,
         events s'
         = EvClientConnect (allocated Runs.one_idle) tr :: earlier.
Proof.
  apply (connect_returns_connected flaky 0 Runs.one_idle
           (connect flaky 0 Runs.one_idle).2).
  vm_compute. reflexivity.
Defined.

Lemma connect_throws_not_connected_witness :
  let s' := (connect rejecting 0 Runs.one_idle).2 in
  connected_flag 0 s' = Some false
  /\ isConnected 0 s' = (Return false, s').
Proof.
  apply (connect_throws_not_connected rejecting 0 Runs.one_idle unauthorized
           (connect rejecting 0 Runs.one_idle).2).
  - reflexivity.
  - vm_compute. reflexivity.
Defined.

Lemma client_disconnect_spec_witness :
  disconnect flaky 0 Runs.one_connected
  = (Return tt,
     with_heap (alter cleared 0%nat)
       (consumed 0 0 0 1 [EvClientClose 1] Runs.one_connected)).
Proof.
  exact (proj1 (client_disconnect_spec flaky 0 Runs.one_connected
                  Runs.files_client eq_refl)).
Defined.

Lemma handleError_spec_witness :
  handleError offline 0 unauthorized Runs.one_connected
  = (Return tt,
     with_heap (alter (set_connected false) 0%nat) Runs.one_connected).
Proof.
  apply (proj2 (proj2 (handleError_spec offline 0 unauthorized
                         Runs.one_connected Runs.files_client eq_refl))).
  - reflexivity.
  - discriminate.
  - discriminate.
Defined.

Lemma probeForOAuthRequirements_spec_witness :
  exists result,
    probeForOAuthRequirements Runs.guarded 0 Runs.one_idle
    = (Return result,
       consumed 0 1 0 0 [EvFetch (probe_request Runs.idle_client)]
         Runs.one_idle)
    /\ ProbeResult.requiresAuth result = true.
Proof.
  destruct (probeForOAuthRequirements_spec Runs.guarded 0 Runs.one_idle
              Runs.idle_client eq_refl) as (result & Hrun & Hauth & _).
  exists result. split; [exact Hrun | exact Hauth].
Defined.

Lemma getConnection_spec_witness :
  MCPConnectionManagerEnhanced.getConnection offline "files" Runs.held
  = (Return 0%nat, Runs.held).
Proof.
  refine (proj1 (getConnection_spec offline "files" Runs.held _) 0%nat _ _).
  - intros c Hc. vm_compute in Hc. injection Hc as <-.
    exists Runs.files_client. reflexivity.
  - reflexivity.
  - reflexivity.
Defined.

Lemma registerServer_keeps_connection_witness :
  let run :=
    MCPConnectionManagerEnhanced.registerServer offline "files"
      (raw "https://other.example.com/sse" None None) Runs.held in
  MCPConnectionManagerEnhanced.getConnection offline "files" run.2
  = (Return 0%nat, run.2).
Proof.
  apply (proj2 (registerServer_keeps_connection offline "files"
                  (raw "https://other.example.com/sse" None None) Runs.held)
           eq_refl).
  - reflexivity.
  - reflexivity.
Defined.

Lemma wrapError_spec_witness :
  Error.name (wrapError unauthorized) = "MCPError".
Proof.
  apply (proj2 (proj2 (proj2 (proj2 (proj2 (wrapError_spec unauthorized)))))).
  apply (bool_decide_unpack _). vm_compute. exact I.
Defined.


Lemma buildAuthHeaders_spec_witness :
  exists token headers,
    (buildAuthHeaders offline 0 Runs.authorized).1 = Return headers
    /\ getAccessToken offline "crm" Runs.authorized
       = (Return (Some token), (buildAuthHeaders offline 0 Runs.authorized).2)
    /\ token <> ""
    /\ headers !! "Authorization" = Some ("Bearer " +:+ token).
Proof.
  pose proof (proj2 (buildAuthHeaders_spec offline 0 Runs.authorized))
    as [_ H].
  destruct (H Runs.oauth_client eq_refl (or_introl eq_refl))
    as (token & Htoken & Hne & Hauth).
  exists token. eexists. split; [reflexivity|].
  repeat split; [exact Htoken | exact Hne | exact Hauth].
Defined.

(** Bodies that are [null]: every discovery document is cached as [null]
    and passed over, the defaults are cached in the end; the registration
    is cached as [null] and null is returned. *)
Example registerClient_null_body :
  let run := registerClient Runs.null_bodies server None initial in
  run.1 = Return None
  /\ clientRegistrations run.2 !! server = Some None
  /\ serverMetadata run.2 !! server
     = Some (Some (defaultMetadata "https://mcp.example.com"
                     (Some ["none"; "client_secret_basic";
                            "client_secret_post"])))
  /\ fetches run.2 = 5%nat.
Proof. vm_compute. repeat split. Qed.

(** A code exchange answered with the body [null] throws the error of the
    property read, after the pending authorization is removed; nothing is
    stored. *)
Example handleCallback_null_body :
  let run := handleCallback Runs.null_bodies "code-1" "st-1"
               awaiting_callback in
  run.1 = Throw (Error.TypeError
                   "Cannot read properties of null (reading 'expires_in')")
  /\ pendingAuthorizations run.2 !! "st-1" = None
  /\ tokens run.2 !! "crm" = None.
Proof. vm_compute. repeat split. Qed.
